(** * xv6 lock lab: per-CPU page allocator (kalloc.c) and bucketed buffer
    cache (bio.c)

    A shallow embedding of the two C files and the properties their
    specification states about them.  Kernel memory is explicit state; C
    functions become functions in a state-and-error monad; a panic, a wild
    pointer, a sleep on a held sleep-lock and a loop that does not come back
    are the four ways a call can fail to return. *)

From stdpp Require Import base numbers list strings.

Open Scope Z_scope.

(** ** Outcomes and the monad shared by both files *)

Inductive err : Type :=
| Panic (msg : string)   (* panic("...") *)
| Fault                  (* access through a null or out-of-range pointer *)
| Blocked                (* acquiresleep on a sleep-lock that is held *)
| OutOfFuel.             (* the loop bound of the model was reached *)

Inductive res (S A : Type) : Type :=
| Ok (a : A) (s : S)
| Err (e : err).
Arguments Ok {S A} a s.
Arguments Err {S A} e.

Definition M (S A : Type) : Type := S → res S A.

Definition ret {S A} (a : A) : M S A := λ s, Ok a s.

Definition bind {S A B} (m : M S A) (k : A → M S B) : M S B :=
  λ s, match m s with Ok a s' => k a s' | Err e => Err e end.

Definition throw {S A} (e : err) : M S A := λ _, Err e.

Definition gets {S A} (f : S → A) : M S A := λ s, Ok (f s) s.

Definition modify {S} (f : S → S) : M S unit := λ s, Ok tt (f s).

Definition when {S} (c : bool) (m : M S unit) : M S unit :=
  if c then m else ret tt.

Declare Scope cmd_scope.
Delimit Scope cmd_scope with cmd.
Notation "x <- m ; k" := (bind m (λ x, k))
  (at level 20, m at level 100, k at level 200, only parsing) : cmd_scope.
Notation "m ;; k" := (bind m (λ _, k))
  (at level 100, k at level 200, right associativity, only parsing) : cmd_scope.
Open Scope cmd_scope.

(** Running a command one call at a time. *)
Lemma bind_step {S A B} (m : M S A) (k : A → M S B) s a s' (r : res S B) :
  m s = Ok a s' → k a s' = r → bind m k s = r.
Proof. intros Hm Hk. unfold bind. by rewrite Hm. Qed.

Lemma bind_fail {S A B} (m : M S A) (k : A → M S B) s e :
  m s = Err e → bind m k s = Err e.
Proof. intros Hm. unfold bind. by rewrite Hm. Qed.

Lemma bind_inv {S A B} (m : M S A) (k : A → M S B) s b s' :
  bind m k s = Ok b s' → ∃ a s1, m s = Ok a s1 ∧ k a s1 = Ok b s'.
Proof. unfold bind. destruct (m s) as [a s1|e]; [eauto|done]. Qed.

(** One step of a sequence: run the first command, go on with the rest. *)
Ltac bstep tac := eapply bind_step; [tac|cbv beta].
(** ** kalloc.c *)

Module Kalloc.

(** riscv.h is not part of the sources; kalloc.c's own header comment fixes
    the page size: "Allocates whole 4096-byte pages". *)
Definition PGSIZE : Z := 4096.

(** memset(p, c, PGSIZE) seen through a [struct run *]: the eight bytes of
    [next] all hold [c]. *)
Definition junk (c : Z) : Z := c * 0x0101010101010101.

(** [struct { struct spinlock lock; struct run *freelist; } kmem[NCPU]].
    A pointer is its address, 0 is the null pointer. *)
Record shard : Type := mkShard { lock : bool; freelist : Z }.

(** [kmem] and, of every page, its first word, where a free page keeps
    [struct run.next]: [memory s a] is the word at the page address [a].  The
    other bytes of a page, which only memset writes and nothing in this file
    reads, are not part of the state. *)
Record state : Type := mkState { kmem : list shard; memory : Z → Z }.

Definition set_kmem (k : list shard) (s : state) : state :=
  mkState k (memory s).

Definition store (pa v : Z) (s : state) : state :=
  mkState (kmem s) (λ a, if decide (a = pa) then v else memory s a).

Section WithLayout.

(** NCPU (param.h), PHYSTOP (memlayout.h) and the linker symbol [end] are
    not fixed by the two source files. *)
Variable NCPU : nat.
Variable PHYSTOP : Z.
Variable kend : Z.

(** spinlock.c: acquire panics when the lock is already held by this CPU,
    release when it is not held. *)
Definition acquire (i : nat) : M state unit := λ s,
  match kmem s !! i with
  | None => Err Fault
  | Some k =>
      if lock k then Err (Panic "acquire")
      else Ok tt (set_kmem (<[i := mkShard true (freelist k)]> (kmem s)) s)
  end.

Definition release (i : nat) : M state unit := λ s,
  match kmem s !! i with
  | None => Err Fault
  | Some k =>
      if lock k
      then Ok tt (set_kmem (<[i := mkShard false (freelist k)]> (kmem s)) s)
      else Err (Panic "release")
  end.

(** [kmem[i].freelist] read and written. *)
Definition get_freelist (i : nat) : M state Z := λ s,
  match kmem s !! i with
  | None => Err Fault
  | Some k => Ok (freelist k) s
  end.

Definition set_freelist (i : nat) (r : Z) : M state unit := λ s,
  match kmem s !! i with
  | None => Err Fault
  | Some k => Ok tt (set_kmem (<[i := mkShard (lock k) r]> (kmem s)) s)
  end.

(** [r->next] read and written; [memset(r, c, PGSIZE)], which fills the
    whole page and so leaves [junk c] in its first word. *)
Definition get_next (r : Z) : M state Z := gets (λ s, memory s r).
Definition set_next (r v : Z) : M state unit := modify (store r v).
Definition memset (r c : Z) : M state unit := modify (store r (junk c)).

(** [kfree(pa)] on the CPU whose [cpuid()] is [id].  push_off and pop_off
    only mask interrupts and have no effect on this state. *)
Definition kfree (id : nat) (pa : Z) : M state unit :=
  if bool_decide (pa `mod` PGSIZE ≠ 0) || bool_decide (pa < kend)
     || bool_decide (pa >= PHYSTOP)
  then throw (Panic "kfree")
  else
    memset pa 1;;
    acquire id;;
    hd <- get_freelist id;
    set_next pa hd;;
    set_freelist id pa;;
    release id.

(** The stealing loop [for (i = 1; i < NCPU; i++)], with [n] iterations left
    to run from [i]. *)
Fixpoint steal (id i n : nat) : M state Z :=
  match n with
  | O => ret 0
  | S n' =>
      let id_n := ((id + i) `mod` NCPU)%nat in
      acquire id_n;;
      r <- get_freelist id_n;
      if bool_decide (r ≠ 0) then
        nx <- get_next r;
        set_freelist id_n nx;;
        release id_n;;
        ret r
      else
        release id_n;;
        steal id (S i) n'
  end.

(** [kalloc()] on the CPU whose [cpuid()] is [id]. *)
Definition kalloc (id : nat) : M state Z :=
  acquire id;;
  r <- get_freelist id;
  when (bool_decide (r ≠ 0)) (nx <- get_next r; set_freelist id nx);;
  release id;;
  r <- (if bool_decide (r = 0) then steal id 1 (NCPU - 1) else ret r);
  when (bool_decide (r ≠ 0)) (memset r 5);;
  ret r.

End WithLayout.

(** All spin-locks of the allocator are free: the state between two calls. *)
Definition quiet (s : state) : Prop :=
  ∀ i k, kmem s !! i = Some k → lock k = false.

(** The head of shard [i]'s free list. *)
Definition head_of (s : state) (i : nat) : option Z :=
  freelist <$> kmem s !! i.

(** The state in which page [r], the head of shard [i], has left the free
    list, its lock is free again and the page is filled with 5s. *)
Definition popped (i : nat) (r : Z) (s : state) : state :=
  store r (junk 5) (set_kmem (<[i := mkShard false (memory s r)]> (kmem s)) s).

(** The state in which page [pa], filled with 1s, is the new head of shard
    [i] and links to the old head [hd]. *)
Definition pushed (i : nat) (pa hd : Z) (s : state) : state :=
  set_kmem (<[i := mkShard false pa]> (kmem s))
           (store pa hd (store pa (junk 1) s)).

(** Two CPUs; CPU 0 has no free page, CPU 1 has the page at 0x87fff000
    whose successor is 0x87ffe000. *)
Definition two_cpus : state :=
  mkState [mkShard false 0; mkShard false 0x87fff000]
          (λ a, if decide (a = 0x87fff000) then 0x87ffe000 else 0).

(** *** Boot: kinit and freerange *)

(** A 64-bit address after pointer arithmetic. *)
Definition u64 (z : Z) : Z := z `mod` 2 ^ 64.

Section Boot.

Variable NCPU : nat.
Variable PHYSTOP : Z.
Variable kend : Z.

(** riscv.h is not part of the sources: what its macro PGROUNDUP gives is a
    parameter. *)
Variable PGROUNDUP : Z → Z.

(** spinlock.c: initlock leaves the lock free. *)
Definition initlock (i : nat) : M state unit := λ s,
  match kmem s !! i with
  | None => Err Fault
  | Some k => Ok tt (set_kmem (<[i := mkShard false (freelist k)]> (kmem s)) s)
  end.

(** [for (i = 0; i < NCPU; i++) initlock(&kmem[i].lock, lock_name[i])] with
    [n] iterations left to run from [i]; the names snprintf writes are not
    part of the state. *)
Fixpoint init_locks (i n : nat) : M state unit :=
  match n with
  | O => ret tt
  | S n' => initlock i;; init_locks (S i) n'
  end.

(** [for(; p + PGSIZE <= (char* )pa_end; p += PGSIZE) kfree(p)] on the CPU
    whose [cpuid()] is [id]; [fuel] bounds the number of times the loop
    condition is tested. *)
Fixpoint free_pages (fuel : nat) (id : nat) (p pa_end : Z) : M state unit :=
  match fuel with
  | O => throw OutOfFuel
  | S fuel' =>
      if bool_decide (u64 (p + PGSIZE) ≤ pa_end) then
        kfree PHYSTOP kend id p;;
        free_pages fuel' id (u64 (p + PGSIZE)) pa_end
      else ret tt
  end.

(** [freerange(pa_start, pa_end)] *)
Definition freerange (fuel : nat) (id : nat) (pa_start pa_end : Z)
    : M state unit :=
  free_pages fuel id (PGROUNDUP pa_start) pa_end.

(** [kinit()] *)
Definition kinit (fuel : nat) (id : nat) : M state unit :=
  init_locks 0 NCPU;;
  freerange fuel id kend PHYSTOP.

(** A run of kalloc() calls, one on each CPU of [ids] in turn, and the
    pointers they return. *)
Fixpoint kallocs (ids : list nat) : M state (list Z) :=
  match ids with
  | [] => ret []
  | id :: ids' =>
      r <- kalloc NCPU id;
      rs <- kallocs ids';
      ret (r :: rs)
  end.

End Boot.

(** [flist s r l]: following [next] from the pointer [r] visits the pages
    [l] and ends at the null pointer. *)
Fixpoint flist (s : state) (r : Z) (l : list Z) : Prop :=
  match l with
  | [] => r = 0
  | p :: l' => r = p ∧ p ≠ 0 ∧ flist s (memory s p) l'
  end.

(** [free_lists s ls]: no lock is held, the free list of shard [i] holds the
    pages [ls !! i], and no page is on a list twice or on two lists. *)
Record free_lists (s : state) (ls : list (list Z)) : Prop := {
  fl_length : length ls = length (kmem s);
  fl_shard : ∀ i k l, kmem s !! i = Some k → ls !! i = Some l →
      lock k = false ∧ flist s (freelist k) l;
  fl_nodup : NoDup (concat ls);
}.

(** The [n] pages from address [p] on. *)
Fixpoint pages (p : Z) (n : nat) : list Z :=
  match n with
  | O => []
  | S n' => p :: pages (p + PGSIZE) n'
  end.

(** The number of whole pages between [p] and [pa_end]. *)
Definition page_count (p pa_end : Z) : nat := Z.to_nat ((pa_end - p) / PGSIZE).

(** Memory at boot: [kmem] is zero-initialised. *)
Definition boot (ncpu : nat) : state :=
  mkState (replicate ncpu (mkShard false 0)) (λ _, 0).

(** The usual rounding to the next multiple of PGSIZE, for examples. *)
Definition round_up (a : Z) : Z := (a + PGSIZE - 1) / PGSIZE * PGSIZE.

End Kalloc.

(** ** bio.c *)

Module Bio.

(** [#define NBUCKET 13] *)
Definition NBUCKET : nat := 13.

(** A [struct buf *]: null, the list head of a bucket ([&bucket[i].head]) or
    a buffer of the pool ([&bcache.buf[j]]). *)
Inductive ptr : Type :=
| Null
| Head (i : nat)
| Buf (j : nat).

Global Instance ptr_eq_dec : EqDecision ptr.
Proof. solve_decision. Defined.

(** The bytes of a block, as the disk driver moves them. *)
Definition block : Type := list Z.

(** [struct buf].  buf.h is not part of the sources: the fields are the ones
    bio.c uses.  [lock] is the buffer's sleep-lock, held or not.

    Modelled from the spec: [lu_time] is a signed quantity (it "is compared
    as a signed quantity in the original") and the tick counter does not
    overflow ("overflow is not a concern within a boot"), so both are
    integers without wrap-around.  The width and signedness of [refcnt] are a
    parameter of the model, see [wrap]. *)
Record buf : Type := mkBuf {
  valid : Z;
  dev : Z;
  blockno : Z;
  lock : bool;
  refcnt : Z;
  prev : ptr;
  next : ptr;
  data : block;
  lu_time : Z;
}.

(** [struct { struct spinlock lock; struct buf head; } bucket[NBUCKET]] *)
Record bkt : Type := mkBkt { bucket_lock : bool; head : buf }.

(** One transfer of the disk driver: [virtio_disk_rw(b, write)] for the
    block [(dev, blockno)]. *)
Record transfer : Type := mkTransfer { t_write : bool; t_dev : Z; t_blockno : Z }.

(** [bcache], [bucket], the global [ticks], and the disk with the transfers
    issued so far, oldest first. *)
Record state : Type := mkState {
  bcache_lock : bool;
  bcache_buf : list buf;
  bucket : list bkt;
  ticks : Z;
  disk : Z → Z → block;
  disk_log : list transfer;
}.

Definition set_valid (v : Z) (b : buf) : buf :=
  mkBuf v (dev b) (blockno b) (lock b) (refcnt b) (prev b) (next b) (data b) (lu_time b).
Definition set_dev (v : Z) (b : buf) : buf :=
  mkBuf (valid b) v (blockno b) (lock b) (refcnt b) (prev b) (next b) (data b) (lu_time b).
Definition set_blockno (v : Z) (b : buf) : buf :=
  mkBuf (valid b) (dev b) v (lock b) (refcnt b) (prev b) (next b) (data b) (lu_time b).
Definition set_lock (v : bool) (b : buf) : buf :=
  mkBuf (valid b) (dev b) (blockno b) v (refcnt b) (prev b) (next b) (data b) (lu_time b).
Definition set_refcnt (v : Z) (b : buf) : buf :=
  mkBuf (valid b) (dev b) (blockno b) (lock b) v (prev b) (next b) (data b) (lu_time b).
Definition set_prev (v : ptr) (b : buf) : buf :=
  mkBuf (valid b) (dev b) (blockno b) (lock b) (refcnt b) v (next b) (data b) (lu_time b).
Definition set_next (v : ptr) (b : buf) : buf :=
  mkBuf (valid b) (dev b) (blockno b) (lock b) (refcnt b) (prev b) v (data b) (lu_time b).
Definition set_data (v : block) (b : buf) : buf :=
  mkBuf (valid b) (dev b) (blockno b) (lock b) (refcnt b) (prev b) (next b) v (lu_time b).
Definition set_lu_time (v : Z) (b : buf) : buf :=
  mkBuf (valid b) (dev b) (blockno b) (lock b) (refcnt b) (prev b) (next b) (data b) v.

Definition set_bcache_lock (v : bool) (s : state) : state :=
  mkState v (bcache_buf s) (bucket s) (ticks s) (disk s) (disk_log s).
Definition set_bcache_buf (v : list buf) (s : state) : state :=
  mkState (bcache_lock s) v (bucket s) (ticks s) (disk s) (disk_log s).
Definition set_bucket (v : list bkt) (s : state) : state :=
  mkState (bcache_lock s) (bcache_buf s) v (ticks s) (disk s) (disk_log s).
Definition set_ticks (v : Z) (s : state) : state :=
  mkState (bcache_lock s) (bcache_buf s) (bucket s) v (disk s) (disk_log s).
Definition set_disk (v : Z → Z → block) (s : state) : state :=
  mkState (bcache_lock s) (bcache_buf s) (bucket s) (ticks s) v (disk_log s).
Definition set_disk_log (v : list transfer) (s : state) : state :=
  mkState (bcache_lock s) (bcache_buf s) (bucket s) (ticks s) (disk s) v.

(** The [struct buf] a pointer points to, and its update in place. *)
Definition get (p : ptr) (s : state) : option buf :=
  match p with
  | Null => None
  | Head i => head <$> bucket s !! i
  | Buf j => bcache_buf s !! j
  end.

Definition upd (p : ptr) (f : buf → buf) (s : state) : state :=
  match p with
  | Null => s
  | Head i =>
      set_bucket (alter (λ k, mkBkt (bucket_lock k) (f (head k))) i (bucket s)) s
  | Buf j => set_bcache_buf (alter f j (bcache_buf s)) s
  end.

(** Reading [*p] and assigning to a field of [*p]. *)
Definition rd (p : ptr) : M state buf := λ s,
  match get p s with
  | Some b => Ok b s
  | None => Err Fault
  end.

Definition wr (p : ptr) (f : buf → buf) : M state unit := λ s,
  match get p s with
  | Some _ => Ok tt (upd p f s)
  | None => Err Fault
  end.

(** The spin-locks of bio.c, each a flag in its structure.  spinlock.c:
    initlock leaves the lock free, acquire panics when this CPU already
    holds it, release when it does not. *)
Inductive spinlock : Type :=
| BcacheLock
| BucketLock (i : nat).

Global Instance spinlock_eq_dec : EqDecision spinlock.
Proof. solve_decision. Defined.

Definition spin (l : spinlock) (s : state) : option bool :=
  match l with
  | BcacheLock => Some (bcache_lock s)
  | BucketLock i => bucket_lock <$> bucket s !! i
  end.

Definition set_spin (l : spinlock) (v : bool) (s : state) : state :=
  match l with
  | BcacheLock => set_bcache_lock v s
  | BucketLock i =>
      set_bucket (alter (λ k, mkBkt v (head k)) i (bucket s)) s
  end.

Definition initlock (l : spinlock) : M state unit := λ s,
  match spin l s with
  | Some _ => Ok tt (set_spin l false s)
  | None => Err Fault
  end.

Definition acquire (l : spinlock) : M state unit := λ s,
  match spin l s with
  | Some true => Err (Panic "acquire")
  | Some false => Ok tt (set_spin l true s)
  | None => Err Fault
  end.

Definition release (l : spinlock) : M state unit := λ s,
  match spin l s with
  | Some true => Ok tt (set_spin l false s)
  | Some false => Err (Panic "release")
  | None => Err Fault
  end.

(** The sleep-lock of a buffer, for the one thread of this model: acquiring a
    held lock sleeps for good. *)
Definition initsleeplock (b : ptr) : M state unit := wr b (set_lock false).

Definition acquiresleep (b : ptr) : M state unit :=
  bf <- rd b;
  if lock bf then throw Blocked else wr b (set_lock true).

Definition releasesleep (b : ptr) : M state unit := wr b (set_lock false).

Definition holdingsleep (b : ptr) : M state bool :=
  bf <- rd b; ret (lock bf).

(** [virtio_disk_rw(b, write)]: a synchronous transfer between [b->data] and
    the block [(b->dev, b->blockno)] of the disk. *)
Definition virtio_disk_rw (b : ptr) (write : bool) : M state unit :=
  bf <- rd b;
  modify (λ s, set_disk_log (disk_log s ++ [mkTransfer write (dev bf) (blockno bf)]) s);;
  if write then
    modify (λ s, set_disk (λ d n, if bool_decide (d = dev bf ∧ n = blockno bf)
                                  then data bf else disk s d n) s)
  else
    blk <- gets (λ s, disk s (dev bf) (blockno bf));
    wr b (set_data blk).

(** [blockno % NBUCKET] *)
Definition hash (bn : Z) : nat := Z.to_nat (bn `mod` Z.of_nat NBUCKET).

(** A [refcnt] after arithmetic: a 32-bit int, signed or unsigned. *)
Definition wrap (signed : bool) (z : Z) : Z :=
  if signed then (z + 2 ^ 31) `mod` 2 ^ 32 - 2 ^ 31 else z `mod` 2 ^ 32.

(** [for(b = first; b != hd; b = b->next) if(b->dev == dev && b->blockno ==
    blockno) ...]: the buffer found, or null when the walk is back at the
    head.  [fuel] bounds the number of buffers visited. *)
Fixpoint lookup (fuel : nat) (hd : ptr) (dv bn : Z) (b : ptr)
    : M state ptr :=
  match fuel with
  | O => throw OutOfFuel
  | S fuel' =>
      if bool_decide (b = hd) then ret Null
      else
        bf <- rd b;
        if bool_decide (dev bf = dv ∧ blockno bf = bn) then ret b
        else lookup fuel' hd dv bn (next bf)
  end.

(** [for(b = bcache.buf; b < bcache.buf + NBUF; b++) if(b->refcnt == 0 &&
    (lru == 0 || b->lu_time < lru->lu_time)) lru = b;] with [bs] the
    buffers from [bcache.buf + j] on. *)
Fixpoint scan_pool (s : state) (bs : list buf) (j : nat) (lru : ptr) : ptr :=
  match bs with
  | [] => lru
  | b :: bs' =>
      let older :=
        match get lru s with
        | Some l => bool_decide (lu_time b < lu_time l)
        | None => false
        end in
      scan_pool s bs' (S j)
        (if bool_decide (refcnt b = 0) && (bool_decide (lru = Null) || older)
         then Buf j else lru)
  end.

Fixpoint for_each {A} (l : list A) (body : A → M state unit) : M state unit :=
  match l with
  | [] => ret tt
  | x :: l' => body x;; for_each l' body
  end.

Section WithRefcnt.

(** Whether [refcnt] is an int (true) or a uint (false). *)
Variable refcnt_signed : bool.

Definition incr (b : buf) : buf := set_refcnt (wrap refcnt_signed (refcnt b + 1)) b.
Definition decr (b : buf) : buf := set_refcnt (wrap refcnt_signed (refcnt b - 1)) b.

(** [binit()]; the lock names it prints are not part of the state.
    [binit_bucket] and [binit_buf] are the bodies of its two loops. *)
Definition binit_bucket (i : nat) : M state unit :=
  initlock (BucketLock i);;
  wr (Head i) (set_prev (Head i));;
  wr (Head i) (set_next (Head i)).

Definition binit_buf (j : nat) : M state unit :=
  let b := Buf j in
  h <- rd (Head 0); wr b (set_next (next h));;
  wr b (set_prev (Head 0));;
  initsleeplock b;;
  h <- rd (Head 0); wr (next h) (set_prev b);;
  wr (Head 0) (set_next b);;
  wr b (set_lu_time (-1)).

Definition binit : M state unit :=
  initlock BcacheLock;;
  for_each (seq 0 NBUCKET) binit_bucket;;
  nbuf <- gets (λ s, length (bcache_buf s));
  for_each (seq 0 nbuf) binit_buf.

(** The loop [while(lru == 0) { ... }] of bget with the panic that follows
    it.  [fuel] bounds the number of times the loop condition is tested. *)
Fixpoint recycle (fuel : nat) (dv bn : Z) (hash_n : nat) (lru : ptr)
    : M state ptr :=
  match fuel with
  | O => throw OutOfFuel
  | S fuel' =>
      if bool_decide (lru ≠ Null) then throw (Panic "bget: no buffers")
      else
        lru <- gets (λ s, scan_pool s (bcache_buf s) 0 lru);
        if bool_decide (lru ≠ Null) then
          l <- rd lru;
          let lru_hash_n := hash (blockno l) in
          when (bool_decide (lru_hash_n ≠ hash_n))
               (acquire (BucketLock lru_hash_n));;
          l <- rd lru;
          if bool_decide (refcnt l ≠ 0) then
            when (bool_decide (lru_hash_n ≠ hash_n))
                 (release (BucketLock lru_hash_n));;
            recycle fuel' dv bn hash_n Null
          else
            l <- rd lru; wr (next l) (set_prev (prev l));;
            l <- rd lru; wr (prev l) (set_next (next l));;
            when (bool_decide (lru_hash_n ≠ hash_n))
                 (release (BucketLock lru_hash_n));;
            wr lru (set_dev dv);;
            wr lru (set_blockno bn);;
            wr lru (set_valid 0);;
            wr lru (set_refcnt 1);;
            wr lru (set_prev (Head hash_n));;
            h <- rd (Head hash_n); wr lru (set_next (next h));;
            h <- rd (Head hash_n); wr (next h) (set_prev lru);;
            wr (Head hash_n) (set_next lru);;
            release (BucketLock hash_n);;
            release BcacheLock;;
            acquiresleep lru;;
            ret lru
        else recycle fuel' dv bn hash_n lru
  end.

(** [bget(dev, blockno)] *)
Definition bget (fuel : nat) (dv bn : Z) : M state ptr :=
  let hash_n := hash bn in
  acquire (BucketLock hash_n);;
  h <- rd (Head hash_n);
  b <- lookup fuel (Head hash_n) dv bn (next h);
  if bool_decide (b ≠ Null) then
    wr b incr;;
    release (BucketLock hash_n);;
    acquiresleep b;;
    ret b
  else
    release (BucketLock hash_n);;
    acquire BcacheLock;;
    acquire (BucketLock hash_n);;
    h <- rd (Head hash_n);
    b <- lookup fuel (Head hash_n) dv bn (next h);
    if bool_decide (b ≠ Null) then
      wr b incr;;
      release (BucketLock hash_n);;
      release BcacheLock;;
      acquiresleep b;;
      ret b
    else recycle fuel dv bn hash_n Null.

(** [bread(dev, blockno)] *)
Definition bread (fuel : nat) (dv bn : Z) : M state ptr :=
  b <- bget fuel dv bn;
  bf <- rd b;
  when (bool_decide (valid bf = 0))
       (virtio_disk_rw b false;; wr b (set_valid 1));;
  ret b.

(** [bwrite(b)] *)
Definition bwrite (b : ptr) : M state unit :=
  held <- holdingsleep b;
  if negb held then throw (Panic "bwrite")
  else virtio_disk_rw b true.

(** [brelse(b)] *)
Definition brelse (b : ptr) : M state unit :=
  held <- holdingsleep b;
  if negb held then throw (Panic "brelse")
  else
    releasesleep b;;
    bf <- rd b; acquire (BucketLock (hash (blockno bf)));;
    wr b decr;;
    t <- gets ticks; wr b (set_lu_time t);;
    bf <- rd b; release (BucketLock (hash (blockno bf))).

(** [bpin(b)] and [bunpin(b)] *)
Definition bpin (b : ptr) : M state unit :=
  bf <- rd b; acquire (BucketLock (hash (blockno bf)));;
  wr b incr;;
  bf <- rd b; release (BucketLock (hash (blockno bf))).

Definition bunpin (b : ptr) : M state unit :=
  bf <- rd b; acquire (BucketLock (hash (blockno bf)));;
  wr b decr;;
  bf <- rd b; release (BucketLock (hash (blockno bf))).

(** The timer interrupt: [ticks++]. *)
Definition clock : M state unit := modify (λ s, set_ticks (ticks s + 1) s).

(** Memory at boot: bio.c's globals are zero-initialised; the disk holds
    [dsk]. *)
Definition zero_buf : buf := mkBuf 0 0 0 false 0 Null Null [] 0.

Definition boot (nbuf : nat) (dsk : Z → Z → block) : state :=
  mkState false (replicate nbuf zero_buf)
          (replicate NBUCKET (mkBkt false zero_buf)) 0 dsk [].

(** The calls a kernel makes after binit, on buffers of the pool, and the
    clock. *)
Inductive op : Type :=
| Bread (dv bn : Z)
| Bwrite (j : nat)
| Brelse (j : nat)
| Bpin (j : nat)
| Bunpin (j : nat)
| Clock.

Definition run (fuel : nat) (o : op) : M state unit :=
  match o with
  | Bread dv bn => bread fuel dv bn;; ret tt
  | Bwrite j => bwrite (Buf j)
  | Brelse j => brelse (Buf j)
  | Bpin j => bpin (Buf j)
  | Bunpin j => bunpin (Buf j)
  | Clock => clock
  end.

(** [reach tr s]: [s] is the state after binit at boot and the completed
    calls [tr], oldest first. *)
Inductive reach : list op → state → Prop :=
| reach_binit nbuf dsk s :
    binit (boot nbuf dsk) = Ok tt s → reach [] s
| reach_run tr s fuel o s' :
    reach tr s → run fuel o s = Ok tt s' → reach (tr ++ [o]) s'.

End WithRefcnt.

(** The cache after the first loop of binit: every bucket list is empty. *)
Definition empty_buckets (nbuf : nat) (dsk : Z → Z → block) : state :=
  mkState false (replicate nbuf zero_buf)
    ((λ i, mkBkt false (set_next (Head i) (set_prev (Head i) zero_buf)))
       <$> seq 0 NBUCKET)
    0 dsk [].

(** A buffer of the pool as binit leaves it. *)
Definition fresh_buf : buf := set_lu_time (-1) zero_buf.

(** The cache after bget has found buffer [x], which was [bx]: the count is
    up by one and the sleep-lock is taken. *)
Definition hit_state (rs : bool) (x : nat) (bx : buf) (s : state) : state :=
  set_bcache_buf (<[x := set_lock true (incr rs bx)]> (bcache_buf s)) s.

(** The cache after bread has looked at buffer [x], which bget returned as
    [b1] in state [s1]: a buffer that is not valid is read from the disk. *)
Definition read_state (x : nat) (b1 : buf) (s1 : state) : state :=
  if bool_decide (valid b1 = 0) then
    set_bcache_buf
      (<[x := set_valid 1 (set_data (disk s1 (dev b1) (blockno b1)) b1)]>
         (bcache_buf s1))
      (set_disk_log (disk_log s1 ++ [mkTransfer false (dev b1) (blockno b1)]) s1)
  else s1.

(** *** The shape of the cache between two calls *)

(** [p->next] and [p->prev]. *)
Definition nxt (s : state) (p : ptr) : option ptr := next <$> get p s.
Definition prv (s : state) (p : ptr) : option ptr := prev <$> get p s.

(** A buffer without its list pointers. *)
Definition strip (b : buf) : buf := set_prev Null (set_next Null b).
Definition pay (s : state) (p : ptr) : option buf := strip <$> get p s.

(** [fwd s a l]: following [next] from [a] visits the nodes [l] in order;
    [bwd s a l]: following [prev] from the last node of [l] visits them in
    reverse order and ends at [a]. *)
Fixpoint fwd (s : state) (a : ptr) (l : list ptr) : Prop :=
  match l with
  | [] => True
  | b :: l' => nxt s a = Some b ∧ fwd s b l'
  end.

Fixpoint bwd (s : state) (a : ptr) (l : list ptr) : Prop :=
  match l with
  | [] => True
  | b :: l' => prv s b = Some a ∧ bwd s b l'
  end.

(** The last node of [a :: l], the first node of [l ++ [z]], and the nodes
    of [a :: l] that have a successor in it. *)
Fixpoint lastp (a : ptr) (l : list ptr) : ptr :=
  match l with
  | [] => a
  | b :: l' => lastp b l'
  end.

Definition firstp (l : list ptr) (z : ptr) : ptr :=
  match l with
  | [] => z
  | b :: _ => b
  end.

Fixpoint srcs (a : ptr) (l : list ptr) : list ptr :=
  match l with
  | [] => []
  | b :: l' => a :: srcs b l'
  end.

(** The state after [if(c) acquire(l)] or [if(c) release(l)]. *)
Definition cond_spin (c : bool) (l : spinlock) (v : bool) (s : state) : state :=
  if c then set_spin l v s else s.

(** [ring s h l]: the doubly-linked list of bucket [h] holds the buffers
    [l], from [bucket[h].head.next] on, and closes at the head. *)
Definition ring (s : state) (h : nat) (l : list nat) : Prop :=
  fwd s (Head h) ((Buf <$> l) ++ [Head h])
  ∧ bwd s (Head h) ((Buf <$> l) ++ [Head h]).

(** Buffer [j] is linked into the list of bucket [h]. *)
Definition on_list (s : state) (h j : nat) : Prop :=
  ∃ l, ring s h l ∧ j ∈ l.

(** Buffer [j] holds block [(dv, bn)]: the test of bget's two scans. *)
Definition holds (s : state) (j : nat) (dv bn : Z) : Prop :=
  ∃ b, bcache_buf s !! j = Some b ∧ dev b = dv ∧ blockno b = bn.

(** What identifies the contents of a buffer to bget and bread. *)
Definition key (b : buf) : Z * Z * Z := (dev b, blockno b, valid b).
Definition keyof (s : state) (j : nat) : option (Z * Z * Z) :=
  key <$> bcache_buf s !! j.

(** A buffer as binit leaves it before it is ever bound to a block. *)
Definition unbound (b : buf) : Prop :=
  dev b = 0 ∧ blockno b = 0 ∧ valid b = 0.

(** On a bucket list a buffer that comes after another buffer of the same
    block is an unbound one. *)
Fixpoint first_wins (s : state) (l : list nat) : Prop :=
  match l with
  | [] => True
  | x :: l' =>
      (∀ y bx c, y ∈ l' → bcache_buf s !! x = Some bx →
         bcache_buf s !! y = Some c →
         dev bx = dev c → blockno bx = blockno c → unbound c)
      ∧ first_wins s l'
  end.

(** [linked s D bk]: the buckets hold the lists [bk], without repetition;
    the buffers on them are the buffers of the pool in [D], each on the list
    of bucket [blockno mod NBUCKET]. *)
Record linked (s : state) (D : nat → Prop) (bk : nat → list nat) : Prop := {
  lk_ring : ∀ h, (h < NBUCKET)%nat → ring s h (bk h);
  lk_nodup : ∀ h, (h < NBUCKET)%nat → NoDup (bk h);
  lk_home : ∀ h j, (h < NBUCKET)%nat → j ∈ bk h →
      D j ∧ ∃ b, bcache_buf s !! j = Some b ∧ hash (blockno b) = h;
  lk_all : ∀ j b, D j → bcache_buf s !! j = Some b →
      j ∈ bk (hash (blockno b));
}.

(** No spin-lock of the cache is held. *)
Definition quiet (s : state) : Prop :=
  bcache_lock s = false
  ∧ length (bucket s) = NBUCKET
  ∧ ∀ i k, bucket s !! i = Some k → bucket_lock k = false.

(** The invariant of the cache between two calls. *)
Definition wf (s : state) : Prop :=
  quiet s ∧ 0 ≤ ticks s
  ∧ ∃ bk, linked s (λ _, True) bk
        ∧ ∀ h, (h < NBUCKET)%nat → first_wins s (bk h).

(** The pool has no buffer to recycle. *)
Definition saturated (s : state) : Prop :=
  ∀ j b, bcache_buf s !! j = Some b → refcnt b ≠ 0.

(** [lru_of s n p]: [p] is what the eviction scan holds in [lru] after the
    first [n] buffers of the pool: null when none of them has [refcnt] 0,
    else the first one among those of least [lu_time]. *)
Definition lru_of (s : state) (n : nat) (p : ptr) : Prop :=
  (p = Null ∧ ∀ x b, (x < n)%nat → bcache_buf s !! x = Some b → refcnt b ≠ 0)
  ∨ (∃ l bl, p = Buf l ∧ (l < n)%nat ∧ bcache_buf s !! l = Some bl
       ∧ refcnt bl = 0
       ∧ ∀ x b, (x < n)%nat → bcache_buf s !! x = Some b → refcnt b = 0 →
           lu_time bl ≤ lu_time b ∧ ((x < l)%nat → lu_time bl < lu_time b)).

(** [z] is a value of the type of [refcnt]. *)
Definition fits (signed : bool) (z : Z) : Prop :=
  if signed then - 2 ^ 31 ≤ z < 2 ^ 31 else 0 ≤ z < 2 ^ 32.

(** The state a call leaves, or [s] when it does not return. *)
Definition after {A} (r : res state A) (s : state) : state :=
  match r with
  | Ok _ s' => s'
  | Err _ => s
  end.

(** A pool of three buffers on a disk whose block [(d, n)] holds the bytes
    [d; n]: after binit, after a first [bread(1, 7)], and with all three
    buffers held. *)
Definition demo_disk : Z → Z → block := λ d n, [d; n].
Definition cold3 : state :=
  after (binit (boot 3 demo_disk)) (boot 3 demo_disk).
Definition held7 : state := after (bread false 4 1 7 cold3) cold3.
Definition full3 : state :=
  after (bread false 4 1 33 (after (bread false 4 1 20 held7) held7)) held7.

(** The same pool after [bread(1, 7)], a tick and the brelse of the buffer;
    and after a first [bread(0, 0)]. *)
Definition rel7 : state :=
  after (brelse false (Buf 0) (after (clock held7) held7)) held7.
Definition zero3 : state := after (bread false 4 0 0 cold3) cold3.



#[global] Instance op_eq_dec : EqDecision op.
Proof. solve_decision. Defined.



(** Whether [Brelse j] is among the calls of a trace. *)
Definition released (tr : list op) (j : nat) : Prop := Brelse j ∈ tr.

End Bio.

(** ** Properties of kalloc.c *)

Module KallocSpec.
Import Kalloc.

Lemma set_kmem_same (s : state) : set_kmem (kmem s) s = s.
Proof. by destruct s. Qed.

Lemma set_kmem_twice (a b : list shard) (s : state) :
  set_kmem a (set_kmem b s) = set_kmem a s.
Proof. done. Qed.

Lemma head_of_Some s i r :
  head_of s i = Some r → ∃ k, kmem s !! i = Some k ∧ freelist k = r.
Proof.
  unfold head_of. destruct (kmem s !! i) as [k|]; [|done].
  intros [= <-]. by exists k.
Qed.

Lemma quiet_shard s i k :
  quiet s → kmem s !! i = Some k → k = mkShard false (freelist k).
Proof. intros Hq Hk. specialize (Hq _ _ Hk). destruct k; simpl in *. by subst. Qed.

Lemma mod_reach (n id k : nat) :
  (id < n)%nat → (k < n)%nat →
  ∃ i, (i < n)%nat ∧ ((id + i) `mod` n)%nat = k.
Proof.
  intros Hid Hk. destruct (decide (id ≤ k)%nat).
  - exists (k - id)%nat. split; [lia|].
    replace (id + (k - id))%nat with k by lia. apply Nat.mod_small; lia.
  - exists (n + k - id)%nat. split; [lia|].
    replace (id + (n + k - id))%nat with (k + 1 * n)%nat by lia.
    rewrite Nat.Div0.mod_add. apply Nat.mod_small; lia.
Qed.

Section Prims.
Variables (kl : list shard) (mem : Z → Z) (i : nat) (k : shard).
Hypothesis Hk : kl !! i = Some k.

Lemma acquire_free :
  lock k = false →
  acquire i (mkState kl mem)
  = Ok tt (mkState (<[i := mkShard true (freelist k)]> kl) mem).
Proof. intros Hl. unfold acquire. simpl. by rewrite Hk, Hl. Qed.

Lemma release_held :
  lock k = true →
  release i (mkState kl mem)
  = Ok tt (mkState (<[i := mkShard false (freelist k)]> kl) mem).
Proof. intros Hl. unfold release. simpl. by rewrite Hk, Hl. Qed.

Lemma get_freelist_at :
  get_freelist i (mkState kl mem) = Ok (freelist k) (mkState kl mem).
Proof. unfold get_freelist. simpl. by rewrite Hk. Qed.

Lemma set_freelist_at r :
  set_freelist i r (mkState kl mem)
  = Ok tt (mkState (<[i := mkShard (lock k) r]> kl) mem).
Proof. unfold set_freelist. simpl. by rewrite Hk. Qed.

End Prims.

Ltac klookup :=
  first [ eassumption
        | rewrite ?list_insert_insert_eq; apply list_lookup_insert_eq;
          eapply lookup_lt_Some; eassumption ].

Ltac kstep :=
  eapply bind_step;
  [ first [ eapply acquire_free; [klookup|reflexivity]
          | eapply release_held; [klookup|reflexivity]
          | eapply get_freelist_at; klookup
          | eapply set_freelist_at; klookup
          | reflexivity ]
  | cbv beta; simpl ].

Section Steal.
Variable NCPU : nat.

(** One probe of the stealing loop on an empty shard leaves the state as it
    was. *)
Lemma steal_skip id i n s :
  quiet s →
  head_of s ((id + i) `mod` NCPU)%nat = Some 0 →
  steal NCPU id i (S n) s = steal NCPU id (S i) n s.
Proof.
  intros Hq Hh. apply head_of_Some in Hh as (k & Hk & Hf).
  pose proof (quiet_shard _ _ _ Hq Hk) as Ek. rewrite Hf in Ek. subst k.
  destruct s as [kl mem]. simpl in Hk. simpl steal.
  do 2 kstep. eapply bind_step; [eapply release_held; [klookup|done]|].
  simpl. by rewrite list_insert_insert_eq, list_insert_id.
Qed.

(** A probe of a non-empty shard takes its head and ends the loop. *)
Lemma steal_take id i n s r :
  quiet s →
  head_of s ((id + i) `mod` NCPU)%nat = Some r → r ≠ 0 →
  steal NCPU id i (S n) s =
    Ok r (set_kmem (<[((id + i) `mod` NCPU)%nat := mkShard false (memory s r)]>
                      (kmem s)) s).
Proof.
  intros Hq Hh Hr. apply head_of_Some in Hh as (k & Hk & Hf).
  pose proof (quiet_shard _ _ _ Hq Hk) as Ek. rewrite Hf in Ek. subst k.
  destruct s as [kl mem]. simpl in Hk. simpl steal.
  do 2 kstep. rewrite bool_decide_true by done.
  do 3 kstep. unfold ret, set_kmem. simpl.
  by rewrite !list_insert_insert_eq.
Qed.

Lemma steal_none id i n s :
  quiet s →
  (∀ j, (i ≤ j < i + n)%nat → head_of s ((id + j) `mod` NCPU)%nat = Some 0) →
  steal NCPU id i n s = Ok 0 s.
Proof.
  revert i. induction n as [|n IH]; intros i Hq Hall; [done|].
  rewrite steal_skip by (auto with lia). apply IH; auto with lia.
Qed.

Lemma steal_first id i n j s r :
  quiet s → (i ≤ j < i + n)%nat →
  (∀ j', (i ≤ j' < j)%nat → head_of s ((id + j') `mod` NCPU)%nat = Some 0) →
  head_of s ((id + j) `mod` NCPU)%nat = Some r → r ≠ 0 →
  steal NCPU id i n s =
    Ok r (set_kmem (<[((id + j) `mod` NCPU)%nat := mkShard false (memory s r)]>
                      (kmem s)) s).
Proof.
  revert i. induction n as [|n IH]; intros i Hq Hj Hbefore Hh Hr; [lia|].
  destruct (decide (i = j)) as [->|Hne].
  - by apply steal_take.
  - rewrite steal_skip by (auto with lia). apply IH; auto with lia.
Qed.

(** The loop's two outcomes: every probed shard is empty, or there is a
    first non-empty one. *)
Lemma steal_result id i n s :
  quiet s →
  (∀ j, is_Some (kmem s !! ((id + j) `mod` NCPU)%nat)) →
  (steal NCPU id i n s = Ok 0 s ∧
   ∀ j, (i ≤ j < i + n)%nat → head_of s ((id + j) `mod` NCPU)%nat = Some 0)
  ∨ (∃ j r, (i ≤ j < i + n)%nat ∧ r ≠ 0 ∧
       head_of s ((id + j) `mod` NCPU)%nat = Some r ∧
       (∀ j', (i ≤ j' < j)%nat →
          head_of s ((id + j') `mod` NCPU)%nat = Some 0)).
Proof.
  intros Hq Hex. revert i. induction n as [|n IH]; intros i.
  - left. split; [done|]. lia.
  - destruct (Hex i) as [k Hk].
    destruct (decide (freelist k = 0)) as [Hz|Hnz].
    + assert (head_of s ((id + i) `mod` NCPU)%nat = Some 0) as Hh
        by (unfold head_of; rewrite Hk; simpl; by rewrite Hz).
      destruct (IH (S i)) as [[Hs Hall]|(j & r & Hj & Hr & Hh' & Hb)].
      * left. split; [by rewrite steal_skip|].
        intros j Hj. destruct (decide (j = i)) as [->|]; auto with lia.
      * right. exists j, r. repeat split; auto with lia.
        intros j' Hj'. destruct (decide (j' = i)) as [->|]; auto with lia.
    + right. exists i, (freelist k). repeat split; auto with lia.
      unfold head_of. by rewrite Hk.
Qed.

(** With its own list empty, kalloc is the stealing loop followed by the
    junk fill. *)
Lemma kalloc_empty id s :
  quiet s → head_of s id = Some 0 →
  kalloc NCPU id s =
    (r <- steal NCPU id 1 (NCPU - 1);
     when (bool_decide (r ≠ 0)) (memset r 5);; ret r) s.
Proof.
  intros Hq Hh. apply head_of_Some in Hh as (k & Hk & Hf).
  pose proof (quiet_shard _ _ _ Hq Hk) as Ek. rewrite Hf in Ek. subst k.
  destruct s as [kl mem]. simpl in Hk. unfold kalloc.
  do 3 kstep. eapply bind_step; [eapply release_held; [klookup|done]|].
  simpl. by rewrite list_insert_insert_eq, list_insert_id.
Qed.

Lemma kalloc_own id s r :
  quiet s → head_of s id = Some r → r ≠ 0 →
  kalloc NCPU id s = Ok r (popped id r s).
Proof.
  intros Hq Hh Hr. apply head_of_Some in Hh as (k & Hk & Hf).
  pose proof (quiet_shard _ _ _ Hq Hk) as Ek. rewrite Hf in Ek. subst k.
  destruct s as [kl mem]. simpl in Hk. unfold kalloc.
  do 2 kstep. rewrite bool_decide_true by done. unfold when.
  eapply bind_step.
  { kstep. eapply set_freelist_at. klookup. }
  simpl. kstep. rewrite bool_decide_false by done.
  kstep. rewrite bool_decide_true by done.
  unfold popped, memset, modify, ret, bind, set_kmem, store. simpl.
  by rewrite !list_insert_insert_eq.
Qed.

End Steal.

(** C6.  kalloc on CPU [id], called with every allocator lock free: a
    non-empty own list gives up its head; with the own list empty the shards
    [(id + i) mod NCPU], [i = 1 .. NCPU-1], are probed in that order and the
    head of the first non-empty one is taken, every other shard staying as it
    was; the call always returns, and it returns null exactly when all NCPU
    lists are empty. *)
Theorem kalloc_local_then_steal (NCPU id : nat) (s : state) :
  quiet s → length (kmem s) = NCPU → (id < NCPU)%nat →
  (∀ r, head_of s id = Some r → r ≠ 0 →
     kalloc NCPU id s = Ok r (popped id r s))
  ∧ (head_of s id = Some 0 →
     ∀ i r, (1 ≤ i < NCPU)%nat →
       (∀ j, (1 ≤ j < i)%nat → head_of s ((id + j) `mod` NCPU)%nat = Some 0) →
       head_of s ((id + i) `mod` NCPU)%nat = Some r → r ≠ 0 →
       kalloc NCPU id s = Ok r (popped ((id + i) `mod` NCPU)%nat r s))
  ∧ (∃ r s', kalloc NCPU id s = Ok r s' ∧
       (r = 0 ↔ ∀ k, (k < NCPU)%nat → head_of s k = Some 0)).
Proof.
  intros Hq Hlen Hid.
  assert (∀ j, is_Some (kmem s !! ((id + j) `mod` NCPU)%nat)) as Hex.
  { intros j. apply lookup_lt_is_Some. rewrite Hlen.
    apply Nat.mod_upper_bound. lia. }
  assert (∀ i r, (1 ≤ i < NCPU)%nat →
       (∀ j, (1 ≤ j < i)%nat → head_of s ((id + j) `mod` NCPU)%nat = Some 0) →
       head_of s id = Some 0 →
       head_of s ((id + i) `mod` NCPU)%nat = Some r → r ≠ 0 →
       kalloc NCPU id s = Ok r (popped ((id + i) `mod` NCPU)%nat r s)) as Hsteal.
  { intros i r Hi Hb Hh Hr Hnz. rewrite kalloc_empty by done.
    unfold bind at 1.
    rewrite (steal_first NCPU id 1 (NCPU - 1) i s r) by (auto with lia).
    unfold bind, when, memset, modify, ret.
    by rewrite bool_decide_true by done. }
  split; [|split].
  - intros r Hh Hr. by apply kalloc_own.
  - intros Hh i r Hi Hb Hr Hnz. by apply Hsteal.
  - destruct (lookup_lt_is_Some_2 (kmem s) id) as [k Hk]; [lia|].
    destruct (decide (freelist k = 0)) as [Hz|Hnz].
    + assert (head_of s id = Some 0) as Hh
        by (unfold head_of; rewrite Hk; simpl; by rewrite Hz).
      destruct (steal_result NCPU id 1 (NCPU - 1) s Hq Hex)
        as [[Hs Hall]|(j & r & Hj & Hr & Hh' & Hb)].
      * exists 0, s. split.
        { rewrite kalloc_empty by done. unfold bind at 1. by rewrite Hs. }
        split; [|done]. intros _ k' Hk'.
        destruct (mod_reach NCPU id k' Hid Hk') as (i & Hi & <-).
        destruct (decide (i = 0)%nat) as [->|].
        { rewrite Nat.add_0_r, Nat.mod_small by lia. done. }
        apply Hall. lia.
      * exists r, (popped ((id + j) `mod` NCPU)%nat r s). split.
        { apply Hsteal; auto with lia. }
        split; [done|]. intros Hall.
        rewrite Hall in Hh' by (apply Nat.mod_upper_bound; lia). congruence.
    + exists (freelist k), (popped id (freelist k) s). split.
      { apply kalloc_own; [done| |done]. unfold head_of. by rewrite Hk. }
      split; [done|]. intros Hall. specialize (Hall id Hid).
      unfold head_of in Hall. rewrite Hk in Hall. simpl in Hall. congruence.
Qed.

(** A popped shard shows the old head's successor; the other shards keep
    their heads. *)
Lemma popped_head (i : nat) (r : Z) (s : state) :
  (i < length (kmem s))%nat → head_of (popped i r s) i = Some (memory s r).
Proof.
  intros Hi. unfold head_of, popped. simpl. by rewrite list_lookup_insert_eq.
Qed.

Lemma popped_other (i k : nat) (r : Z) (s : state) :
  i ≠ k → head_of (popped i r s) k = head_of s k.
Proof.
  intros Hne. unfold head_of, popped. simpl. by rewrite list_lookup_insert_ne.
Qed.

Lemma kalloc_local_then_steal_witness :
  kalloc 2 0 two_cpus = Ok 0x87fff000 (popped 1 0x87fff000 two_cpus)
  ∧ head_of (popped 1 0x87fff000 two_cpus) 1 = Some 0x87ffe000.
Proof.
  split; [|done].
  assert (quiet two_cpus) as Hq.
  { intros [|[|i]] k; simpl; intros [= <-]; done. }
  destruct (kalloc_local_then_steal 2 0 two_cpus Hq eq_refl ltac:(lia))
    as (_ & Hsteal & _).
  apply (Hsteal eq_refl 1%nat 0x87fff000); [lia| |done|done].
  intros j Hj. lia.
Defined.

(** C7.  kfree(pa) on CPU [id], called with every allocator lock free:
    it panics exactly when [pa] is not a multiple of PGSIZE, lies below the
    kernel's end or at or above PHYSTOP; for any other [pa] it returns, [pa]
    is the new head of shard [id] and links to the old head, and the other
    shards are as before. *)
Theorem kfree_checks_then_pushes (PHYSTOP kend : Z) (id : nat) (pa : Z)
    (s : state) :
  quiet s → (id < length (kmem s))%nat →
  (kfree PHYSTOP kend id pa s = Err (Panic "kfree")
     ↔ pa `mod` PGSIZE ≠ 0 ∨ pa < kend ∨ PHYSTOP ≤ pa)
  ∧ (pa `mod` PGSIZE = 0 → kend ≤ pa → pa < PHYSTOP →
     ∃ hd s', head_of s id = Some hd
       ∧ kfree PHYSTOP kend id pa s = Ok tt s'
       ∧ s' = pushed id pa hd s
       ∧ head_of s' id = Some pa
       ∧ memory s' pa = hd
       ∧ quiet s'
       ∧ ∀ k, k ≠ id → kmem s' !! k = kmem s !! k).
Proof.
  intros Hq Hid.
  destruct (lookup_lt_is_Some_2 (kmem s) id Hid) as [k Hk].
  pose proof (quiet_shard _ _ _ Hq Hk) as Ek.
  assert (pa `mod` PGSIZE = 0 → kend ≤ pa → pa < PHYSTOP →
          kfree PHYSTOP kend id pa s = Ok tt (pushed id pa (freelist k) s))
    as Hgood.
  { intros H1 H2 H3. unfold kfree.
    rewrite !bool_decide_false by lia. simpl.
    destruct s as [kl mem]. simpl in Hk. unfold memset, set_next.
    eapply bind_step; [reflexivity|]. unfold store at 1. simpl.
    eapply bind_step; [eapply acquire_free; [klookup|by rewrite Ek]|].
    do 3 kstep. rewrite Ek. simpl.
    erewrite release_held; [|klookup|done]. unfold pushed, set_kmem, store.
    simpl. by rewrite !list_insert_insert_eq. }
  split.
  - split.
    + intros Hp.
      destruct (decide (pa `mod` PGSIZE = 0)) as [H1|]; [|by left].
      destruct (decide (pa < kend)) as [|H2]; [by auto|].
      destruct (decide (PHYSTOP ≤ pa)) as [|H3]; [by auto|].
      rewrite Hgood in Hp by lia. done.
    + intros Hbad. unfold kfree.
      destruct Hbad as [Hbad|[Hbad|Hbad]].
      * by rewrite (bool_decide_true _ Hbad).
      * rewrite (bool_decide_true (pa < kend)) by done.
        by rewrite orb_true_r.
      * rewrite (bool_decide_true (pa >= PHYSTOP)) by lia.
        by rewrite orb_true_r.
  - intros H1 H2 H3. exists (freelist k), (pushed id pa (freelist k) s).
    split; [unfold head_of; by rewrite Hk|].
    split; [by apply Hgood|]. split; [done|].
    unfold head_of, pushed. simpl.
    rewrite list_lookup_insert_eq by done. split; [done|].
    rewrite decide_True by done. split; [done|]. split.
    + intros i k'. simpl. destruct (decide (i = id)) as [->|Hne].
      * rewrite list_lookup_insert_eq by done. by intros [= <-].
      * rewrite list_lookup_insert_ne by done. apply Hq.
    + intros k' Hne. by rewrite list_lookup_insert_ne.
Qed.

Lemma kfree_checks_then_pushes_witness :
  kfree 0x88000000 0x80021000 1 0x87ffd000 two_cpus
  = Ok tt (pushed 1 0x87ffd000 0x87fff000 two_cpus)
  ∧ kfree 0x88000000 0x80021000 1 0x87ffd008 two_cpus = Err (Panic "kfree").
Proof.
  assert (quiet two_cpus) as Hq.
  { intros [|[|i]] k; simpl; intros [= <-]; done. }
  split.
  - destruct (kfree_checks_then_pushes 0x88000000 0x80021000 1 0x87ffd000
                two_cpus Hq ltac:(simpl; lia)) as [_ Hgood].
    destruct Hgood as (hd & s' & Hh & Hr & -> & _); [done|lia|lia|].
    injection Hh as <-. exact Hr.
  - apply (kfree_checks_then_pushes 0x88000000 0x80021000 1 0x87ffd008
             two_cpus Hq ltac:(simpl; lia)).
    left. done.
Defined.

End KallocSpec.

(** ** kalloc.c: the free lists as lists of pages *)

Module KallocLists.
Import Kalloc KallocSpec.

Lemma free_lists_quiet s ls : free_lists s ls → quiet s.
Proof.
  intros [Hlen Hsh _] i k Hk.
  destruct (lookup_lt_is_Some_2 ls i) as [l Hl].
  { rewrite Hlen. by eapply lookup_lt_Some. }
  by destruct (Hsh i k l Hk Hl).
Qed.

(** A free list does not depend on the words of the other pages. *)
Lemma flist_frame s s' : ∀ l r,
  (∀ p, p ∈ l → memory s' p = memory s p) → flist s r l → flist s' r l.
Proof.
  induction l as [|p l IH]; simpl; intros r Hm; [done|].
  intros (-> & Hp & Hl). split; [done|]. split; [done|].
  rewrite Hm by (apply elem_of_cons; by left).
  apply IH; [|done]. intros q Hq. apply Hm, elem_of_cons. by right.
Qed.

Lemma flist_functional s : ∀ l l' r, flist s r l → flist s r l' → l = l'.
Proof.
  induction l as [|p l IH]; intros [|p' l'] r; simpl.
  - done.
  - intros -> (<- & Hp & _). done.
  - intros (-> & Hp & _) ->. done.
  - intros (-> & _ & Hl) (<- & _ & Hl'). f_equal. by apply (IH _ _ Hl).
Qed.

Lemma flist_head s r l : flist s r l → r = default 0 (head l).
Proof. destruct l as [|p l]; simpl; [done|]. by intros (-> & _). Qed.

Lemma concat_middle {A} (ls : list (list A)) i l :
  ls !! i = Some l →
  concat ls = concat (take i ls) ++ l ++ concat (drop (S i) ls).
Proof.
  intros Hl. rewrite <- (take_drop_middle ls i l Hl) at 1.
  by rewrite concat_app.
Qed.

Lemma concat_lookup_sub {A} (ls : list (list A)) i l x :
  ls !! i = Some l → x ∈ l → x ∈ concat ls.
Proof.
  intros Hl Hx. rewrite (concat_middle ls i l Hl), !elem_of_app. auto.
Qed.

Lemma concat_insert {A} (ls : list (list A)) i l l' :
  ls !! i = Some l →
  concat (<[i := l']> ls) = concat (take i ls) ++ l' ++ concat (drop (S i) ls).
Proof.
  intros Hl. rewrite insert_take_drop by (by eapply lookup_lt_Some).
  by rewrite concat_app.
Qed.

Lemma concat_insert_cons {A} (ls : list (list A)) i l x :
  ls !! i = Some l → concat (<[i := x :: l]> ls) ≡ₚ x :: concat ls.
Proof.
  intros Hl. rewrite (concat_insert ls i l _ Hl), (concat_middle ls i l Hl).
  simpl. symmetry. apply Permutation_middle.
Qed.

Lemma concat_insert_tail {A} (ls : list (list A)) i l x :
  ls !! i = Some (x :: l) → concat ls ≡ₚ x :: concat (<[i := l]> ls).
Proof.
  intros Hl. rewrite (concat_insert ls i _ l Hl), (concat_middle ls i _ Hl).
  simpl. symmetry. apply Permutation_middle.
Qed.

(** kfree of a well-formed address. *)
Lemma kfree_ok PHYSTOP kend id pa s k :
  quiet s → kmem s !! id = Some k →
  pa `mod` PGSIZE = 0 → kend ≤ pa → pa < PHYSTOP →
  kfree PHYSTOP kend id pa s = Ok tt (pushed id pa (freelist k) s).
Proof.
  intros Hq Hk H1 H2 H3. pose proof (quiet_shard _ _ _ Hq Hk) as Ek.
  unfold kfree. rewrite !bool_decide_false by lia. simpl.
  destruct s as [kl mem]. simpl in Hk. unfold memset, set_next.
  eapply bind_step; [reflexivity|]. unfold store at 1. simpl.
  eapply bind_step; [eapply acquire_free; [klookup|by rewrite Ek]|].
  do 3 kstep. rewrite Ek. simpl.
  erewrite release_held; [|klookup|done]. unfold pushed, set_kmem, store.
  simpl. by rewrite !list_insert_insert_eq.
Qed.

(** The pushed state has one more free page. *)
Lemma pushed_free_lists s ls id pa k l :
  free_lists s ls → kmem s !! id = Some k → ls !! id = Some l →
  pa ≠ 0 → pa ∉ concat ls →
  free_lists (pushed id pa (freelist k) s) (<[id := pa :: l]> ls).
Proof.
  intros [Hlen Hsh Hnd] Hk Hl Hpa Hfresh.
  assert (∀ a, memory (pushed id pa (freelist k) s) a
               = if decide (a = pa) then freelist k else memory s a) as Hmem.
  { intros a. unfold pushed. simpl. by destruct (decide (a = pa)). }
  assert (∀ i l', ls !! i = Some l' → ∀ r,
            flist s r l' → flist (pushed id pa (freelist k) s) r l') as Hfr.
  { intros i l' Hl' r. apply flist_frame. intros p Hp. rewrite Hmem.
    rewrite decide_False; [done|]. intros ->. apply Hfresh.
    by apply (concat_lookup_sub ls i l'). }
  split.
  - unfold pushed. simpl. by rewrite !length_insert.
  - intros i k' l'. unfold pushed at 1. simpl.
    destruct (decide (i = id)) as [->|Hne].
    + rewrite !list_lookup_insert_eq
        by (rewrite <- ?Hlen; by eapply lookup_lt_Some).
      intros [= <-] [= <-]. split; [done|]. simpl. split; [done|].
      split; [done|]. rewrite decide_True by done.
      apply (Hfr id l Hl). by apply (Hsh id k l).
    + rewrite !list_lookup_insert_ne by done. intros Hk' Hl'.
      destruct (Hsh i k' l' Hk' Hl'). split; [done|]. by apply (Hfr i).
  - rewrite (concat_insert_cons ls id l pa Hl). by apply NoDup_cons.
Qed.

(** The popped state has one free page less. *)
Lemma popped_free_lists s ls j r l :
  free_lists s ls → ls !! j = Some (r :: l) →
  free_lists (popped j r s) (<[j := l]> ls) ∧ r ∉ concat (<[j := l]> ls).
Proof.
  intros [Hlen Hsh Hnd] Hl.
  pose proof (concat_insert_tail ls j l r Hl) as Hperm.
  rewrite Hperm in Hnd. apply NoDup_cons in Hnd as [Hr Hnd].
  split; [|done].
  destruct (lookup_lt_is_Some_2 (kmem s) j) as [k Hk].
  { rewrite <- Hlen. by eapply lookup_lt_Some. }
  destruct (Hsh j k _ Hk Hl) as (_ & _ & _ & Htail).
  assert (∀ i l', <[j := l]> ls !! i = Some l' → ∀ q,
            flist s q l' → flist (popped j r s) q l') as Hfr.
  { intros i l' Hl' q. apply flist_frame. intros p Hp. unfold popped. simpl.
    rewrite decide_False; [done|]. intros ->. apply Hr.
    by apply (concat_lookup_sub _ i l'). }
  split.
  - unfold popped. simpl. by rewrite !length_insert.
  - intros i k' l' Hk' Hl'. unfold popped in Hk'. simpl in Hk'.
    destruct (decide (i = j)) as [->|Hne].
    + rewrite list_lookup_insert_eq in Hk' by (by eapply lookup_lt_Some).
      injection Hk' as <-. split; [done|]. simpl.
      apply (Hfr j l' Hl').
      rewrite list_lookup_insert_eq in Hl' by (by eapply lookup_lt_Some).
      by injection Hl' as <-.
    + rewrite list_lookup_insert_ne in Hk' by done.
      pose proof Hl' as Hl''. rewrite list_lookup_insert_ne in Hl'' by done.
      destruct (Hsh i k' l' Hk' Hl''). split; [done|]. by apply (Hfr i).
  - done.
Qed.

(** The two ways kalloc ends. *)
Lemma kalloc_cases NCPU id s :
  quiet s → length (kmem s) = NCPU → (id < NCPU)%nat →
  (kalloc NCPU id s = Ok 0 s ∧ ∀ k, (k < NCPU)%nat → head_of s k = Some 0)
  ∨ ∃ j r, (j < NCPU)%nat ∧ r ≠ 0 ∧ head_of s j = Some r
      ∧ kalloc NCPU id s = Ok r (popped j r s).
Proof.
  intros Hq Hlen Hid.
  assert (∀ j, is_Some (kmem s !! ((id + j) `mod` NCPU)%nat)) as Hex.
  { intros j. apply lookup_lt_is_Some. rewrite Hlen.
    apply Nat.mod_upper_bound. lia. }
  destruct (lookup_lt_is_Some_2 (kmem s) id) as [k Hk]; [lia|].
  destruct (decide (freelist k = 0)) as [Hz|Hnz].
  - assert (head_of s id = Some 0) as Hh
      by (unfold head_of; rewrite Hk; simpl; by rewrite Hz).
    destruct (steal_result NCPU id 1 (NCPU - 1) s Hq Hex)
      as [[Hs Hall]|(j & r & Hj & Hr & Hh' & Hb)].
    + left. split.
      { rewrite kalloc_empty by done. unfold bind at 1. by rewrite Hs. }
      intros k' Hk'.
      destruct (mod_reach NCPU id k' Hid Hk') as (i & Hi & <-).
      destruct (decide (i = 0)%nat) as [->|].
      { rewrite Nat.add_0_r, Nat.mod_small by lia. done. }
      apply Hall. lia.
    + right. exists ((id + j) `mod` NCPU)%nat, r.
      split; [apply Nat.mod_upper_bound; lia|]. split; [done|].
      split; [done|]. rewrite kalloc_empty by done. unfold bind at 1.
      rewrite (steal_first NCPU id 1 (NCPU - 1) j s r) by (auto with lia).
      unfold bind, when, memset, modify, ret.
      by rewrite bool_decide_true by done.
  - right. exists id, (freelist k). split; [done|]. split; [done|].
    assert (head_of s id = Some (freelist k)) as Hh
      by (unfold head_of; by rewrite Hk).
    split; [done|]. by apply kalloc_own.
Qed.

Lemma free_lists_head s ls j r :
  free_lists s ls → head_of s j = Some r → r ≠ 0 →
  ∃ l, ls !! j = Some (r :: l).
Proof.
  intros [Hlen Hsh _] Hh Hr. apply head_of_Some in Hh as (k & Hk & <-).
  destruct (lookup_lt_is_Some_2 ls j) as [l Hl].
  { rewrite Hlen. by eapply lookup_lt_Some. }
  destruct (Hsh j k l Hk Hl) as [_ Hfl].
  destruct l as [|p l]; simpl in Hfl; [done|].
  destruct Hfl as (-> & _). by exists l.
Qed.

Lemma free_lists_empty s ls NCPU :
  free_lists s ls → length (kmem s) = NCPU →
  (∀ k, (k < NCPU)%nat → head_of s k = Some 0) → concat ls = [].
Proof.
  intros [Hlen Hsh _] Hn Hall.
  assert (∀ i l, ls !! i = Some l → l = []) as Hnil.
  { intros i l Hl.
    destruct (lookup_lt_is_Some_2 (kmem s) i) as [k Hk].
    { rewrite <- Hlen. by eapply lookup_lt_Some. }
    destruct (Hsh i k l Hk Hl) as [_ Hfl].
    specialize (Hall i ltac:(rewrite <- Hn; by eapply lookup_lt_Some)).
    unfold head_of in Hall. rewrite Hk in Hall. injection Hall as Hz.
    destruct l as [|p l]; [done|]. simpl in Hfl.
    destruct Hfl as (Hp & Hp0 & _). congruence. }
  clear Hlen Hsh. induction ls as [|l ls IH]; [done|]. simpl.
  rewrite (Hnil 0%nat l eq_refl). simpl. apply IH.
  intros i l' Hl'. by apply (Hnil (S i)).
Qed.

End KallocLists.

(** ** kalloc.c: boot, exhaustion and round trips *)

Module KallocBoot.
Import Kalloc KallocSpec KallocLists.

Lemma quiet_pushed s id pa hd : quiet s → quiet (pushed id pa hd s).
Proof.
  intros Hq i k. unfold pushed. simpl. intros Hk.
  apply list_lookup_insert_Some in Hk as [(_ & <- & _)|[_ Hk]]; [done|].
  by apply (Hq i).
Qed.

Lemma quiet_popped s j r : quiet s → quiet (popped j r s).
Proof.
  intros Hq i k. unfold popped. simpl. intros Hk.
  apply list_lookup_insert_Some in Hk as [(_ & <- & _)|[_ Hk]]; [done|].
  by apply (Hq i).
Qed.

Lemma pages_lower p n q : q ∈ pages p n → p ≤ q.
Proof.
  revert p. induction n as [|n IH]; intros p; simpl.
  - by intros ?%elem_of_nil.
  - intros [->|Hq%IH]%elem_of_cons; unfold PGSIZE in *; lia.
Qed.

Lemma length_pages p n : length (pages p n) = n.
Proof. revert p. induction n as [|n IH]; intros p; simpl; [done|]. by rewrite IH. Qed.

Lemma page_count_0 p pa_end :
  page_count p pa_end = 0%nat → ¬ (p + PGSIZE ≤ pa_end).
Proof.
  unfold page_count, PGSIZE. intros Hn Hle.
  assert (1 ≤ (pa_end - p) / 4096) by (apply Z.div_le_lower_bound; lia). lia.
Qed.

Lemma page_count_S p pa_end n :
  page_count p pa_end = S n →
  p + PGSIZE ≤ pa_end ∧ page_count (p + PGSIZE) pa_end = n.
Proof.
  unfold page_count, PGSIZE. intros Hn.
  assert (¬ pa_end - p < 4096) as Hpos.
  { intros Hlt.
    assert ((pa_end - p) / 4096 < 1) by (apply Z.div_lt_upper_bound; lia).
    lia. }
  split; [lia|].
  replace (pa_end - (p + 4096)) with (pa_end - p + (-1) * 4096) by lia.
  rewrite Z.div_add by lia. lia.
Qed.

Section Freerange.
Variables (PHYSTOP kend : Z) (id : nat) (pa_end : Z).
Hypothesis Hend : pa_end ≤ PHYSTOP.
Hypothesis Hwrap : pa_end + PGSIZE < 2 ^ 64.

(** The loop of freerange pushes the whole pages of the range, lowest
    address first. *)
Lemma free_pages_ok : ∀ n fuel p s ls l,
  free_lists s ls → ls !! id = Some l →
  p `mod` PGSIZE = 0 → kend ≤ p → 0 < p → p + PGSIZE < 2 ^ 64 →
  page_count p pa_end = n →
  (∀ q, q ∈ pages p n → q ∉ concat ls) →
  (n < fuel)%nat →
  ∃ s', free_pages PHYSTOP kend fuel id p pa_end s = Ok tt s'
    ∧ free_lists s' (<[id := reverse (pages p n) ++ l]> ls)
    ∧ ∀ a, a ∉ pages p n → memory s' a = memory s a.
Proof.
  induction n as [|n IH]; intros fuel p s ls l Hfl Hl Hal Hlo Hpos Hpw Hn
    Hfresh Hfuel; (destruct fuel as [|fuel]; [lia|]); simpl free_pages.
  - pose proof (page_count_0 _ _ Hn) as Hstop.
    unfold u64. rewrite Z.mod_small by (unfold PGSIZE in *; lia).
    rewrite bool_decide_false by done.
    exists s. split; [done|]. simpl. rewrite list_insert_id by done. done.
  - destruct (page_count_S _ _ _ Hn) as [Hgo Hn'].
    unfold u64. rewrite Z.mod_small by (unfold PGSIZE in *; lia).
    rewrite bool_decide_true by done.
    destruct (lookup_lt_is_Some_2 (kmem s) id) as [k Hk].
    { rewrite <- (fl_length _ _ Hfl). by eapply lookup_lt_Some. }
    pose proof (kfree_ok PHYSTOP kend id p s k (free_lists_quiet _ _ Hfl) Hk
                  Hal Hlo ltac:(unfold PGSIZE in *; lia)) as Hfree.
    assert (p ∉ concat ls) as Hp.
    { apply Hfresh. simpl. apply elem_of_cons. by left. }
    pose proof (pushed_free_lists s ls id p k l Hfl Hk Hl ltac:(lia) Hp)
      as Hfl1.
    destruct (IH fuel (p + PGSIZE) (pushed id p (freelist k) s)
                (<[id := p :: l]> ls) (p :: l) Hfl1)
      as (s' & Hrun & Hfl' & Hmem).
    + apply list_lookup_insert_eq. by eapply lookup_lt_Some.
    + unfold PGSIZE in *. rewrite <- Z.add_mod_idemp_r, Z.mod_same by lia.
      by rewrite Z.add_0_r.
    + unfold PGSIZE. lia.
    + unfold PGSIZE. lia.
    + unfold PGSIZE in *. lia.
    + done.
    + intros q Hq. rewrite (concat_insert_cons ls id l p Hl).
      intros [->|Hin]%elem_of_cons.
      * apply pages_lower in Hq. unfold PGSIZE in Hq. lia.
      * apply (Hfresh q); [|done]. simpl. apply elem_of_cons. by right.
    + lia.
    + exists s'. split.
      { eapply bind_step; [exact Hfree|]. exact Hrun. }
      split.
      * rewrite list_insert_insert_eq in Hfl'. simpl pages.
        by rewrite reverse_cons, <- app_assoc.
      * intros a Ha. simpl in Ha. rewrite not_elem_of_cons in Ha.
        destruct Ha as [Hap Ha]. rewrite (Hmem a Ha). unfold pushed. simpl.
        by rewrite !decide_False by done.
Qed.

End Freerange.

(** The first loop of kinit frees every lock and changes nothing else. *)
Lemma init_locks_ok : ∀ n i s,
  (i + n ≤ length (kmem s))%nat →
  ∃ s', init_locks i n s = Ok tt s'
    ∧ memory s' = memory s ∧ length (kmem s') = length (kmem s)
    ∧ ∀ x k, kmem s !! x = Some k →
        kmem s' !! x
        = Some (if decide (i ≤ x < i + n)%nat then mkShard false (freelist k)
                else k).
Proof.
  induction n as [|n IH]; intros i s Hlen; simpl.
  - exists s. split; [done|]. split; [done|]. split; [done|].
    intros x k Hk. by rewrite decide_False by lia.
  - destruct (lookup_lt_is_Some_2 (kmem s) i) as [k Hk]; [lia|].
    destruct (IH (S i) (set_kmem (<[i := mkShard false (freelist k)]> (kmem s)) s))
      as (s' & Hrun & Hmem & Hlen' & Hsh).
    { simpl. rewrite length_insert. lia. }
    exists s'. split.
    { eapply bind_step; [|exact Hrun]. unfold initlock. by rewrite Hk. }
    split; [done|]. split; [by rewrite Hlen'; simpl; rewrite length_insert|].
    intros x k' Hk'. destruct (decide (x = i)) as [->|Hne].
    + rewrite (Hsh i (mkShard false (freelist k))).
      * rewrite decide_False by lia. rewrite decide_True by lia. congruence.
      * simpl. apply list_lookup_insert_eq. by eapply lookup_lt_Some.
    + rewrite (Hsh x k') by (simpl; by rewrite list_lookup_insert_ne).
      destruct (decide (S i ≤ x < S i + n)%nat), (decide (i ≤ x < i + S n)%nat);
        done || lia.
Qed.

Lemma concat_replicate_nil {A} n : concat (replicate n (@nil A)) = [].
Proof. induction n as [|n IH]; simpl; [done|]. exact IH. Qed.

Lemma free_lists_none s n :
  length (kmem s) = n →
  (∀ x k, kmem s !! x = Some k → k = mkShard false 0) →
  free_lists s (replicate n []).
Proof.
  intros Hlen Hk. split.
  - by rewrite length_replicate.
  - intros i k l Hki Hl. apply lookup_replicate in Hl as [-> _].
    by rewrite (Hk i k Hki).
  - rewrite concat_replicate_nil. apply NoDup_nil. done.
Qed.

Lemma kmem_pushed_popped s id r k :
  kmem s !! id = Some k → lock k = false → freelist k = r →
  kmem (pushed id r (memory s r) (popped id r s)) = kmem s.
Proof.
  intros Hk Hl Hf. unfold pushed, popped. simpl.
  rewrite list_insert_insert_eq. apply list_insert_id.
  rewrite Hk. destruct k; simpl in *. by subst.
Qed.

End KallocBoot.

(** ** kalloc.c: what a kernel can rely on *)

Module KallocExtras.
Import Kalloc KallocSpec KallocLists KallocBoot.

Lemma pages_within pa_end : ∀ n p q,
  page_count p pa_end = n → q ∈ pages p n →
  p ≤ q ∧ q + PGSIZE ≤ pa_end ∧ (q - p) `mod` PGSIZE = 0.
Proof.
  induction n as [|n IH]; intros p q Hn; simpl.
  - by intros ?%elem_of_nil.
  - destruct (page_count_S _ _ _ Hn) as [Hgo Hn'].
    intros [->|Hq]%elem_of_cons.
    + split; [lia|]. split; [done|]. by rewrite Z.sub_diag.
    + destruct (IH _ _ Hn' Hq) as (H1 & H2 & H3). unfold PGSIZE in *.
      split; [lia|]. split; [done|].
      replace (q - p) with (q - (p + 4096) + 1 * 4096) by lia.
      by rewrite Z.mod_add by lia.
Qed.

Lemma two_cpus_lists :
  free_lists two_cpus [[]; [0x87fff000; 0x87ffe000]].
Proof.
  split; [done| |].
  - intros [|[|i]] k l; simpl; intros [= <-] [= <-]; done.
  - simpl. apply NoDup_cons. split; [|apply NoDup_singleton].
    by intros [=]%list_elem_of_singleton.
Qed.

(** X1.  freerange(pa_start, pa_end) on a CPU whose free lists are well
    formed, for a range inside [[end, PHYSTOP]] whose pages are not free
    yet: the call returns, every whole page between PGROUNDUP(pa_start) and
    pa_end is pushed on the list of the calling CPU, lowest address first
    (so the highest page ends up at the head), the lists stay well formed,
    and no word outside these pages changes.  A range
    without a whole page leaves the state as it is. *)
Theorem freerange_frees_whole_pages (PHYSTOP kend : Z) (PGROUNDUP : Z → Z)
    (fuel id : nat) (pa_start pa_end p : Z) (s : state)
    (ls : list (list Z)) (l : list Z) :
  free_lists s ls → ls !! id = Some l →
  PGROUNDUP pa_start = p → p `mod` PGSIZE = 0 → kend ≤ p → 0 < p →
  pa_end ≤ PHYSTOP → p + PGSIZE < 2 ^ 64 → pa_end + PGSIZE < 2 ^ 64 →
  (∀ q, q ∈ pages p (page_count p pa_end) → q ∉ concat ls) →
  (page_count p pa_end < fuel)%nat →
  ∃ s', freerange PHYSTOP kend PGROUNDUP fuel id pa_start pa_end s = Ok tt s'
    ∧ free_lists s' (<[id := reverse (pages p (page_count p pa_end)) ++ l]> ls)
    ∧ (∀ q, q ∈ pages p (page_count p pa_end) →
         p ≤ q ∧ q + PGSIZE ≤ pa_end ∧ (q - p) `mod` PGSIZE = 0)
    ∧ (∀ a, a ∉ pages p (page_count p pa_end) → memory s' a = memory s a)
    ∧ (pa_end < p + PGSIZE → s' = s).
Proof.
  intros Hfl Hl Hp Hal Hlo Hpos Hend Hpw Hew Hfresh Hfuel.
  destruct (free_pages_ok PHYSTOP kend id pa_end Hend Hew
              (page_count p pa_end) fuel p s ls l Hfl Hl Hal Hlo Hpos Hpw
              eq_refl Hfresh Hfuel) as (s' & Hrun & Hfl' & Hmem).
  exists s'. unfold freerange. rewrite Hp. split; [done|]. split; [done|].
  split; [intros q; by apply pages_within|]. split; [done|].
  intros Hempty. destruct fuel as [|fuel]; [lia|]. simpl in Hrun.
  unfold u64 in Hrun. rewrite Z.mod_small in Hrun by (unfold PGSIZE in *; lia).
  rewrite bool_decide_false in Hrun by lia. by injection Hrun.
Qed.

Lemma freerange_frees_whole_pages_witness :
  ∃ s', freerange 0x88000000 0x80021000 round_up 8 1 0x87ffb800 0x87ffe000
          two_cpus = Ok tt s'
    ∧ free_lists s' [[]; [0x87ffd000; 0x87ffc000; 0x87fff000; 0x87ffe000]].
Proof.
  destruct (freerange_frees_whole_pages 0x88000000 0x80021000 round_up 8 1
              0x87ffb800 0x87ffe000 0x87ffc000 two_cpus _
              [0x87fff000; 0x87ffe000] two_cpus_lists eq_refl)
    as (s' & Hrun & Hfl & _); try (vm_compute; done).
  - intros q Hq Hin. vm_compute in Hq.
    apply elem_of_cons in Hq as [->|Hq];
      [|apply elem_of_cons in Hq as [->|Hq]; [|by apply elem_of_nil in Hq]];
      simpl in Hin;
      repeat (apply elem_of_cons in Hin as [Hin|Hin]; [discriminate Hin|]);
      by apply elem_of_nil in Hin.
  - vm_compute. lia.
  - exists s'. split; [exact Hrun|]. exact Hfl.
Defined.

(** X2.  kinit() on CPU [id], on a kmem whose list heads are null: the call
    returns with every lock free; the list of CPU [id] holds every whole
    page between PGROUNDUP(end) and PHYSTOP, highest address first, and the
    lists of all other CPUs are empty. *)
Theorem kinit_builds_one_list (NCPU : nat) (PHYSTOP kend : Z)
    (PGROUNDUP : Z → Z) (fuel id : nat) (p : Z) (s : state) :
  length (kmem s) = NCPU →
  (∀ x k, kmem s !! x = Some k → freelist k = 0) →
  (id < NCPU)%nat →
  PGROUNDUP kend = p → p `mod` PGSIZE = 0 → kend ≤ p → 0 < p →
  p + PGSIZE < 2 ^ 64 → PHYSTOP + PGSIZE < 2 ^ 64 →
  (page_count p PHYSTOP < fuel)%nat →
  ∃ s', kinit NCPU PHYSTOP kend PGROUNDUP fuel id s = Ok tt s'
    ∧ free_lists s'
        (<[id := reverse (pages p (page_count p PHYSTOP))]> (replicate NCPU []))
    ∧ quiet s'
    ∧ ∀ k, (k < NCPU)%nat → k ≠ id → head_of s' k = Some 0.
Proof.
  intros Hlen Hzero Hid Hp Hal Hlo Hpos Hpw Hew Hfuel.
  destruct (init_locks_ok NCPU 0 s ltac:(lia))
    as (s1 & Hrun1 & Hmem1 & Hlen1 & Hsh1).
  assert (free_lists s1 (replicate NCPU [])) as Hfl1.
  { apply free_lists_none; [congruence|]. intros x k Hk.
    destruct (lookup_lt_is_Some_2 (kmem s) x) as [k0 Hk0].
    { rewrite <- Hlen1. by eapply lookup_lt_Some. }
    rewrite (Hsh1 x k0 Hk0) in Hk.
    rewrite decide_True in Hk
      by (split; [lia|]; rewrite <- Hlen; simpl; by eapply lookup_lt_Some).
    injection Hk as <-. by rewrite (Hzero x k0 Hk0). }
  destruct (free_pages_ok PHYSTOP kend id PHYSTOP ltac:(lia) Hew
              (page_count p PHYSTOP) fuel p s1 (replicate NCPU []) []
              Hfl1) as (s' & Hrun & Hfl' & _); try done.
  { by apply lookup_replicate_2. }
  { intros q _. rewrite concat_replicate_nil. by intros ?%elem_of_nil. }
  rewrite app_nil_r in Hfl'.
  exists s'. split.
  { unfold kinit. eapply bind_step; [exact Hrun1|]. unfold freerange.
    by rewrite Hp. }
  split; [done|]. split; [by eapply free_lists_quiet|].
  intros k Hk Hne.
  destruct (lookup_lt_is_Some_2 (kmem s') k) as [sh Hsh].
  { rewrite <- (fl_length _ _ Hfl'), length_insert, length_replicate. done. }
  destruct (fl_shard _ _ Hfl' k sh [] Hsh) as [_ Hnil].
  { rewrite list_lookup_insert_ne by done. by apply lookup_replicate_2. }
  unfold head_of. rewrite Hsh. simpl in *. by rewrite Hnil.
Qed.

Lemma kinit_builds_one_list_witness :
  ∃ s', kinit 2 0x80025000 0x80021234 round_up 8 0 (boot 2) = Ok tt s'
    ∧ free_lists s' [[0x80024000; 0x80023000; 0x80022000]; []].
Proof.
  destruct (kinit_builds_one_list 2 0x80025000 0x80021234 round_up 8 0
              0x80022000 (boot 2) eq_refl)
    as (s' & Hrun & Hfl & _); try (vm_compute; done).
  - intros [|[|x]] k; simpl; intros [= <-]; done.
  - lia.
  - vm_compute. lia.
  - exists s'. split; [exact Hrun|]. exact Hfl.
Defined.

(** X3.  kfree(pa) of a well-formed, non-null page that is on no free list
    keeps the free lists well formed: page [pa] is added at the front of the
    list of the calling CPU and every list is as before otherwise. *)
Theorem kfree_adds_one_free_page (PHYSTOP kend : Z) (id : nat) (pa : Z)
    (s : state) (ls : list (list Z)) (l : list Z) :
  free_lists s ls → ls !! id = Some l →
  pa `mod` PGSIZE = 0 → kend ≤ pa → pa < PHYSTOP → pa ≠ 0 →
  pa ∉ concat ls →
  ∃ s', kfree PHYSTOP kend id pa s = Ok tt s'
    ∧ free_lists s' (<[id := pa :: l]> ls)
    ∧ concat (<[id := pa :: l]> ls) ≡ₚ pa :: concat ls.
Proof.
  intros Hfl Hl H1 H2 H3 Hnz Hfresh.
  destruct (lookup_lt_is_Some_2 (kmem s) id) as [k Hk].
  { rewrite <- (fl_length _ _ Hfl). by eapply lookup_lt_Some. }
  exists (pushed id pa (freelist k) s).
  split; [by apply kfree_ok; [eapply free_lists_quiet|..]|].
  split; [by apply pushed_free_lists|]. by apply concat_insert_cons.
Qed.

Lemma kfree_adds_one_free_page_witness :
  ∃ s', kfree 0x88000000 0x80021000 0 0x87ffd000 two_cpus = Ok tt s'
    ∧ free_lists s' [[0x87ffd000]; [0x87fff000; 0x87ffe000]].
Proof.
  destruct (kfree_adds_one_free_page 0x88000000 0x80021000 0 0x87ffd000
              two_cpus _ [] two_cpus_lists eq_refl eq_refl)
    as (s' & Hrun & Hfl & _); try lia.
  - simpl. intros Hin.
    repeat (apply elem_of_cons in Hin as [Hin|Hin]; [discriminate Hin|]).
    by apply elem_of_nil in Hin.
  - exists s'. split; [exact Hrun|]. exact Hfl.
Defined.

(** X4.  kalloc() with well-formed free lists always returns.  When no
    page is free it returns null and leaves the state as it is; otherwise it
    returns a non-null page that was free, takes exactly that page off the
    lists and leaves them well formed: the page returned is on no free
    list any more. *)
Theorem kalloc_takes_one_free_page (NCPU id : nat) (s : state)
    (ls : list (list Z)) :
  free_lists s ls → length (kmem s) = NCPU → (id < NCPU)%nat →
  ∃ r s', kalloc NCPU id s = Ok r s'
    ∧ ((r = 0 ∧ s' = s ∧ concat ls = [])
       ∨ (r ≠ 0 ∧ ∃ ls', free_lists s' ls'
            ∧ concat ls ≡ₚ r :: concat ls' ∧ r ∉ concat ls')).
Proof.
  intros Hfl Hlen Hid. pose proof (free_lists_quiet _ _ Hfl) as Hq.
  destruct (kalloc_cases NCPU id s Hq Hlen Hid)
    as [[Hrun Hall]|(j & r & Hj & Hr & Hh & Hrun)].
  - exists 0, s. split; [done|]. left. split; [done|]. split; [done|].
    by apply (free_lists_empty s ls NCPU).
  - destruct (free_lists_head s ls j r Hfl Hh Hr) as [l Hl].
    destruct (popped_free_lists s ls j r l Hfl Hl) as [Hfl' Hout].
    exists r, (popped j r s). split; [done|]. right. split; [done|].
    exists (<[j := l]> ls). split; [done|]. split; [|done].
    by apply concat_insert_tail.
Qed.

Lemma kalloc_takes_one_free_page_witness :
  ∃ r s', kalloc 2 0 two_cpus = Ok r s'
    ∧ ((r = 0 ∧ s' = two_cpus
        ∧ concat [[]; [0x87fff000; 0x87ffe000]] = [])
       ∨ (r ≠ 0 ∧ ∃ ls', free_lists s' ls'
            ∧ concat [[]; [0x87fff000; 0x87ffe000]] ≡ₚ r :: concat ls'
            ∧ r ∉ concat ls')).
Proof.
  apply (kalloc_takes_one_free_page 2 0 two_cpus _ two_cpus_lists eq_refl).
  lia.
Defined.

(** X5.  A run of kalloc() calls on any CPUs, from well-formed free lists:
    every call returns; the non-null pages handed out are pairwise
    different, each was free before the run and is free no more; exactly
    min(calls, free pages) calls get a page, and a call gets null only once
    no page is left on any list. *)
Theorem kallocs_until_exhausted (NCPU : nat) (ids : list nat) (s : state)
    (ls : list (list Z)) :
  free_lists s ls → length (kmem s) = NCPU →
  Forall (λ id, (id < NCPU)%nat) ids →
  ∃ rs s' ls', kallocs NCPU ids s = Ok rs s'
    ∧ free_lists s' ls'
    ∧ length rs = length ids
    ∧ NoDup (filter (λ r, r ≠ 0) rs)
    ∧ concat ls ≡ₚ filter (λ r, r ≠ 0) rs ++ concat ls'
    ∧ (0 ∈ rs → concat ls' = [])
    ∧ length (filter (λ r, r ≠ 0) rs)
      = (length ids `min` length (concat ls))%nat.
Proof.
  intros Hfl Hlen Hids.
  assert (∃ rs s' ls', kallocs NCPU ids s = Ok rs s'
    ∧ free_lists s' ls'
    ∧ length rs = length ids
    ∧ NoDup (filter (λ r, r ≠ 0) rs)
    ∧ concat ls ≡ₚ filter (λ r, r ≠ 0) rs ++ concat ls'
    ∧ (0 ∈ rs → concat ls' = [])) as (rs & s' & ls' & H1 & H2 & H3 & H4 & H5 & H6).
  { revert s ls Hfl Hlen.
    induction Hids as [|id ids Hid Hids IH]; intros s ls Hfl Hlen.
    { exists [], s, ls. split; [done|]. split; [done|]. split; [done|].
      split; [apply NoDup_nil; done|]. split; [done|].
      by intros ?%elem_of_nil. }
    pose proof (free_lists_quiet _ _ Hfl) as Hq.
    destruct (kalloc_cases NCPU id s Hq Hlen Hid)
      as [[Hrun Hall]|(j & r & Hj & Hr & Hh & Hrun)].
    - destruct (IH s ls Hfl Hlen)
        as (rs & s' & ls' & Hruns & Hfl' & Hlr & Hnd & Hperm & Hnull).
      pose proof (free_lists_empty s ls NCPU Hfl Hlen Hall) as Hnil.
      exists (0 :: rs), s', ls'. split.
      { simpl. eapply bind_step; [exact Hrun|].
        eapply bind_step; [exact Hruns|]. done. }
      split; [done|]. split; [simpl; by rewrite Hlr|].
      rewrite filter_cons_False by (intros H; by apply H).
      split; [done|]. split; [done|]. intros _.
      rewrite Hnil in Hperm. symmetry in Hperm.
      apply Permutation_nil_r in Hperm. by apply app_eq_nil in Hperm as [_ ?].
    - destruct (free_lists_head s ls j r Hfl Hh Hr) as [l Hl].
      destruct (popped_free_lists s ls j r l Hfl Hl) as [Hfl1 Hout].
      destruct (IH (popped j r s) (<[j := l]> ls) Hfl1)
        as (rs & s' & ls' & Hruns & Hfl' & Hlr & Hnd & Hperm & Hnull).
      { unfold popped. simpl. by rewrite length_insert. }
      exists (r :: rs), s', ls'. split.
      { simpl. eapply bind_step; [exact Hrun|].
        eapply bind_step; [exact Hruns|]. done. }
      split; [done|]. split; [simpl; by rewrite Hlr|].
      rewrite filter_cons_True by done. split.
      { apply NoDup_cons. split; [|done]. intros Hin. apply Hout.
        rewrite Hperm. apply elem_of_app. by left. }
      split.
      { rewrite (concat_insert_tail ls j l r Hl), Hperm. done. }
      intros [H0|Hin]%elem_of_cons; [congruence|]. by apply Hnull. }
  exists rs, s', ls'. split_and!; try done.
  pose proof (length_filter (λ r, r ≠ 0) rs) as Hle.
  apply Permutation_length in H5. rewrite length_app in H5.
  destruct (decide (0 ∈ rs)) as [H0|H0].
  - rewrite (H6 H0) in H5. simpl in H5. lia.
  - assert (filter (λ r, r ≠ 0) rs = rs) as Hall.
    { clear -H0. induction rs as [|r rs IH]; [done|].
      rewrite not_elem_of_cons in H0. destruct H0 as [Hr H0].
      rewrite filter_cons_True by done. by rewrite IH. }
    rewrite Hall in *. lia.
Qed.

Lemma kallocs_until_exhausted_witness :
  ∃ rs s' ls', kallocs 2 [0; 1; 0]%nat two_cpus = Ok rs s'
    ∧ free_lists s' ls'
    ∧ NoDup (filter (λ r, r ≠ 0) rs)
    ∧ length (filter (λ r, r ≠ 0) rs) = 2%nat.
Proof.
  destruct (kallocs_until_exhausted 2 [0; 1; 0]%nat two_cpus _ two_cpus_lists
              eq_refl)
    as (rs & s' & ls' & Hrun & Hfl & _ & Hnd & _ & _ & Hn).
  - repeat (apply Forall_cons; split; [lia|]). apply Forall_nil. done.
  - exists rs, s', ls'. split; [exact Hrun|]. split; [exact Hfl|].
    split; [exact Hnd|exact Hn].
Defined.

(** X6.  kfree(pa) followed by kalloc() on the same CPU returns [pa]: the
    list is last in, first out.  After the two calls [kmem] is as it was
    before them, the first word of page [pa] holds the junk kalloc fills
    the page with, and no word that lies outside page [pa] has changed. *)
Theorem kfree_then_kalloc_returns_page (NCPU : nat) (PHYSTOP kend : Z)
    (id : nat) (pa : Z) (s : state) :
  quiet s → length (kmem s) = NCPU → (id < NCPU)%nat →
  pa `mod` PGSIZE = 0 → kend ≤ pa → pa < PHYSTOP → pa ≠ 0 →
  ∃ s1 s2, kfree PHYSTOP kend id pa s = Ok tt s1
    ∧ head_of s1 id = Some pa
    ∧ kalloc NCPU id s1 = Ok pa s2
    ∧ kmem s2 = kmem s
    ∧ memory s2 pa = junk 5
    ∧ ∀ a, a + 8 ≤ pa ∨ pa + PGSIZE ≤ a → memory s2 a = memory s a.
Proof.
  intros Hq Hlen Hid H1 H2 H3 Hnz.
  destruct (lookup_lt_is_Some_2 (kmem s) id) as [k Hk]; [lia|].
  pose proof (quiet_shard _ _ _ Hq Hk) as Ek.
  assert (head_of (pushed id pa (freelist k) s) id = Some pa) as Hhead.
  { unfold head_of, pushed. simpl.
    rewrite list_lookup_insert_eq by (by eapply lookup_lt_Some). done. }
  exists (pushed id pa (freelist k) s),
    (popped id pa (pushed id pa (freelist k) s)).
  split; [by apply kfree_ok|]. split; [done|]. split.
  { apply kalloc_own; [by apply quiet_pushed|done|done]. }
  split.
  { unfold popped, pushed. simpl. rewrite decide_True by done.
    rewrite list_insert_insert_eq. apply list_insert_id. by rewrite Hk, Ek at 1. }
  split.
  { unfold popped. simpl. by rewrite decide_True. }
  intros a Ha. assert (a ≠ pa) as Hne by (unfold PGSIZE in Ha; lia).
  unfold popped, pushed. simpl. by rewrite !decide_False by done.
Qed.

Lemma kfree_then_kalloc_returns_page_witness :
  ∃ s1 s2, kfree 0x88000000 0x80021000 0 0x87ffd000 two_cpus = Ok tt s1
    ∧ kalloc 2 0 s1 = Ok 0x87ffd000 s2
    ∧ kmem s2 = kmem two_cpus.
Proof.
  assert (quiet two_cpus) as Hq by exact (free_lists_quiet _ _ two_cpus_lists).
  destruct (kfree_then_kalloc_returns_page 2 0x88000000 0x80021000 0
              0x87ffd000 two_cpus Hq eq_refl)
    as (s1 & s2 & Hf & _ & Ha & Hk & _); try lia; [done|].
  exists s1, s2. split; [exact Hf|]. split; [exact Ha|exact Hk].
Defined.

(** X7.  kalloc() followed by kfree of the page it returned, on the same
    CPU.  A page taken from the CPU's own list goes back to its head: [kmem]
    is as before and the page again links to the old rest of the list.  A
    page stolen from the list of another CPU [j] does not go back there: it
    is now the head of the caller's list and the list of [j] stays one page
    shorter. *)
Theorem kalloc_then_kfree_restores (NCPU : nat) (PHYSTOP kend : Z)
    (id : nat) (s : state) (r : Z) (s1 : state) :
  quiet s → length (kmem s) = NCPU → (id < NCPU)%nat →
  kalloc NCPU id s = Ok r s1 → r ≠ 0 →
  r `mod` PGSIZE = 0 → kend ≤ r → r < PHYSTOP →
  ∃ s2, kfree PHYSTOP kend id r s1 = Ok tt s2
    ∧ head_of s2 id = Some r
    ∧ (head_of s id = Some r →
         kmem s2 = kmem s ∧ ∀ a, memory s2 a = memory s a)
    ∧ (head_of s id = Some 0 →
         ∃ j, j ≠ id ∧ head_of s j = Some r
           ∧ head_of s2 j = Some (memory s r)
           ∧ memory s2 r = 0).
Proof.
  intros Hq Hlen Hid Hrun Hr H1 H2 H3.
  destruct (kalloc_cases NCPU id s Hq Hlen Hid)
    as [[Hrun0 _]|(j & r' & Hj & Hr' & Hh & Hrun')]; [congruence|].
  rewrite Hrun' in Hrun. injection Hrun as -> <-.
  destruct (lookup_lt_is_Some_2 (kmem s) id) as [k Hk]; [lia|].
  pose proof (quiet_shard _ _ _ Hq Hk) as Ek.
  destruct (lookup_lt_is_Some_2 (kmem (popped j r s)) id) as [k1 Hk1].
  { unfold popped. simpl. rewrite length_insert. lia. }
  exists (pushed id r (freelist k1) (popped j r s)).
  split; [apply kfree_ok; try done; by apply quiet_popped|].
  assert (head_of (pushed id r (freelist k1) (popped j r s)) id = Some r)
    as Hhead.
  { unfold head_of, pushed. simpl.
    rewrite list_lookup_insert_eq by (by eapply lookup_lt_Some). done. }
  split; [done|]. split.
  - intros Hown.
    pose proof (kalloc_own NCPU id s r Hq Hown Hr) as Hown'.
    assert (popped j r s = popped id r s) as Heq by congruence.
    rewrite Heq in Hk1. rewrite Heq. clear Heq Hown'.
    apply head_of_Some in Hown as (k' & Hk' & Hf').
    rewrite Hk in Hk'. injection Hk' as <-.
    unfold popped in Hk1. simpl in Hk1.
    rewrite list_lookup_insert_eq in Hk1 by (by eapply lookup_lt_Some).
    injection Hk1 as <-. simpl. split.
    + apply (kmem_pushed_popped s id r k Hk); [by rewrite Ek|done].
    + intros a. unfold pushed, popped. simpl.
      destruct (decide (a = r)) as [->|]; done.
  - intros Hempty. assert (j ≠ id) as Hne.
    { intros ->. rewrite Hh in Hempty. congruence. }
    exists j. split; [done|]. split; [done|].
    apply head_of_Some in Hempty as (k' & Hk' & Hf').
    rewrite Hk in Hk'. injection Hk' as <-.
    unfold popped in Hk1. simpl in Hk1.
    rewrite list_lookup_insert_ne in Hk1 by done.
    rewrite Hk in Hk1. injection Hk1 as <-. split.
    + unfold head_of, pushed, popped. simpl.
      rewrite list_lookup_insert_ne by done.
      rewrite list_lookup_insert_eq; [done|].
      apply head_of_Some in Hh as (kj & Hkj & _). by eapply lookup_lt_Some.
    + unfold pushed, popped. simpl. by rewrite decide_True.
Qed.

Lemma kalloc_then_kfree_restores_witness :
  ∃ s2, kfree 0x88000000 0x80021000 0 0x87fff000
          (popped 1 0x87fff000 two_cpus) = Ok tt s2
    ∧ head_of s2 0 = Some 0x87fff000
    ∧ head_of s2 1 = Some 0x87ffe000.
Proof.
  assert (quiet two_cpus) as Hq by exact (free_lists_quiet _ _ two_cpus_lists).
  assert (kalloc 2 0 two_cpus = Ok 0x87fff000 (popped 1 0x87fff000 two_cpus))
    as Hrun by (vm_compute; reflexivity).
  destruct (kalloc_then_kfree_restores 2 0x88000000 0x80021000 0 two_cpus
              0x87fff000 _ Hq eq_refl ltac:(lia) Hrun)
    as (s2 & Hf & Hh & _ & Hst); try lia; [done|].
  destruct (Hst eq_refl) as (j & Hne & Hj & Hj2 & _).
  exists s2. split; [exact Hf|]. split; [exact Hh|].
  destruct j as [|[|j]]; [done| |discriminate Hj]. exact Hj2.
Defined.

(** X8.  kfree does not detect a double free.  Freeing the same page twice
    in a row makes the page its own successor on the list, so the next two
    kalloc() calls on that CPU both return it, and the rest of the list is
    lost: the head is then the junk word kalloc filled the page with. *)
Theorem kfree_twice_hands_out_twice (NCPU : nat) (PHYSTOP kend : Z)
    (id : nat) (pa : Z) (s : state) :
  quiet s → length (kmem s) = NCPU → (id < NCPU)%nat →
  pa `mod` PGSIZE = 0 → kend ≤ pa → pa < PHYSTOP → pa ≠ 0 →
  ∃ s1 s2 s3 s4,
    kfree PHYSTOP kend id pa s = Ok tt s1
    ∧ kfree PHYSTOP kend id pa s1 = Ok tt s2
    ∧ head_of s2 id = Some pa ∧ memory s2 pa = pa
    ∧ kalloc NCPU id s2 = Ok pa s3
    ∧ kalloc NCPU id s3 = Ok pa s4
    ∧ head_of s4 id = Some (junk 5).
Proof.
  intros Hq Hlen Hid H1 H2 H3 Hnz.
  destruct (lookup_lt_is_Some_2 (kmem s) id) as [k Hk]; [lia|].
  set (s1 := pushed id pa (freelist k) s).
  assert (kmem s1 !! id = Some (mkShard false pa)) as Hk1.
  { unfold s1, pushed. simpl. apply list_lookup_insert_eq.
    by eapply lookup_lt_Some. }
  assert (quiet s1) as Hq1 by (by apply quiet_pushed).
  set (s2 := pushed id pa pa s1).
  assert (quiet s2) as Hq2 by (by apply quiet_pushed).
  assert (head_of s2 id = Some pa) as Hh2.
  { unfold head_of, s2, pushed. simpl.
    rewrite list_lookup_insert_eq; [done|]. by eapply lookup_lt_Some. }
  assert (memory s2 pa = pa) as Hm2.
  { unfold s2, pushed. simpl. by rewrite decide_True. }
  set (s3 := popped id pa s2).
  assert (quiet s3) as Hq3 by (by apply quiet_popped).
  assert (head_of s3 id = Some pa) as Hh3.
  { unfold s3. rewrite popped_head, Hm2; [done|].
    unfold s2, pushed. simpl. rewrite length_insert.
    by eapply lookup_lt_Some. }
  assert (memory s3 pa = junk 5) as Hm3.
  { unfold s3, popped. simpl. by rewrite decide_True. }
  exists s1, s2, s3, (popped id pa s3).
  split; [by apply kfree_ok|].
  split; [by apply (kfree_ok PHYSTOP kend id pa s1 (mkShard false pa))|].
  split; [done|]. split; [done|].
  split; [by apply kalloc_own|]. split; [by apply kalloc_own|].
  rewrite popped_head, Hm3; [done|].
  unfold s3, popped, s2, pushed. simpl. rewrite !length_insert.
  by eapply lookup_lt_Some.
Qed.

Lemma kfree_twice_hands_out_twice_witness :
  ∃ s2 s3 s4,
    kalloc 2 0 s2 = Ok 0x87ffd000 s3 ∧ kalloc 2 0 s3 = Ok 0x87ffd000 s4
    ∧ head_of s4 0 = Some 0x0505050505050505.
Proof.
  assert (quiet two_cpus) as Hq by exact (free_lists_quiet _ _ two_cpus_lists).
  destruct (kfree_twice_hands_out_twice 2 0x88000000 0x80021000 0 0x87ffd000
              two_cpus Hq eq_refl)
    as (s1 & s2 & s3 & s4 & _ & _ & _ & _ & Ha & Hb & Hh); try lia; [done|].
  exists s2, s3, s4. split; [exact Ha|]. split; [exact Hb|exact Hh].
Defined.

Lemma pages_snoc : ∀ n p,
  pages p (S n) = pages p n ++ [p + Z.of_nat n * PGSIZE].
Proof.
  induction n as [|n IH]; intros p.
  - simpl. by rewrite Z.add_0_r.
  - change (pages p (S (S n))) with (p :: pages (p + PGSIZE) (S n)).
    rewrite IH. simpl. do 2 f_equal. unfold PGSIZE. f_equal. lia.
Qed.

(** X21.  After kinit() on CPU [id] has freed at least one page, the first
    kalloc() on any CPU returns the highest whole page below PHYSTOP: CPU
    [id] pops it from its own list, every other CPU finds its own list empty
    and steals it from CPU [id]. *)
Theorem kinit_then_kalloc_takes_top_page (NCPU : nat) (PHYSTOP kend : Z)
    (PGROUNDUP : Z → Z) (fuel id c : nat) (p : Z) (n : nat) (s : state) :
  length (kmem s) = NCPU →
  (∀ x k, kmem s !! x = Some k → freelist k = 0) →
  (id < NCPU)%nat → (c < NCPU)%nat →
  PGROUNDUP kend = p → p `mod` PGSIZE = 0 → kend ≤ p → 0 < p →
  p + PGSIZE < 2 ^ 64 → PHYSTOP + PGSIZE < 2 ^ 64 →
  page_count p PHYSTOP = S n → (S n < fuel)%nat →
  ∃ s1 s2, kinit NCPU PHYSTOP kend PGROUNDUP fuel id s = Ok tt s1
    ∧ kalloc NCPU c s1 = Ok (p + Z.of_nat n * PGSIZE) s2
    ∧ p + Z.of_nat n * PGSIZE + PGSIZE ≤ PHYSTOP
    ∧ PHYSTOP < p + Z.of_nat n * PGSIZE + 2 * PGSIZE.
Proof.
  intros Hlen Hzero Hid Hc Hp Hal Hlo Hpos Hpw Hew Hn Hfuel.
  destruct (init_locks_ok NCPU 0 s ltac:(lia))
    as (s0 & Hrun0 & Hmem0 & Hlen0 & Hsh0).
  assert (free_lists s0 (replicate NCPU [])) as Hfl0.
  { apply free_lists_none; [congruence|]. intros x k Hk.
    destruct (lookup_lt_is_Some_2 (kmem s) x) as [k0 Hk0].
    { rewrite <- Hlen0. by eapply lookup_lt_Some. }
    rewrite (Hsh0 x k0 Hk0) in Hk.
    rewrite decide_True in Hk
      by (split; [lia|]; rewrite <- Hlen; simpl; by eapply lookup_lt_Some).
    injection Hk as <-. by rewrite (Hzero x k0 Hk0). }
  destruct (free_pages_ok PHYSTOP kend id PHYSTOP ltac:(lia) Hew
              (S n) fuel p s0 (replicate NCPU []) [] Hfl0)
    as (s1 & Hrun & Hfl1 & _); try done.
  { by apply lookup_replicate_2. }
  { intros q _. rewrite concat_replicate_nil. by intros ?%elem_of_nil. }
  rewrite app_nil_r, pages_snoc, reverse_app in Hfl1. simpl in Hfl1.
  set (top := p + Z.of_nat n * PGSIZE) in *.
  assert (length (kmem s1) = NCPU) as Hlen1.
  { rewrite <- (fl_length _ _ Hfl1), length_insert. apply length_replicate. }
  pose proof (free_lists_quiet _ _ Hfl1) as Hq1.
  assert (∀ j, (j < NCPU)%nat →
            head_of s1 j = Some (if decide (j = id) then top else 0)) as Hheads.
  { intros j Hj. destruct (lookup_lt_is_Some_2 (kmem s1) j) as [k Hk]; [lia|].
    unfold head_of. rewrite Hk. simpl. f_equal.
    destruct (decide (j = id)) as [->|Hne].
    - destruct (fl_shard _ _ Hfl1 id k (top :: reverse (pages p n)) Hk)
        as [_ Hfl].
      { apply list_lookup_insert_eq. rewrite length_replicate. lia. }
      simpl in Hfl. by destruct Hfl as (-> & _).
    - destruct (fl_shard _ _ Hfl1 j k [] Hk) as [_ Hfl]; [|done].
      rewrite list_lookup_insert_ne by done. by apply lookup_replicate_2. }
  assert (top ≠ 0) as Htop by (unfold top, PGSIZE; lia).
  destruct (kalloc_cases NCPU c s1 Hq1 Hlen1 Hc)
    as [[_ Hall]|(j & r & Hj & Hr & Hh & Hrun2)].
  { specialize (Hall id Hid). rewrite (Hheads id Hid), decide_True in Hall by done.
    congruence. }
  rewrite (Hheads j Hj) in Hh. destruct (decide (j = id)) as [->|]; [|congruence].
  injection Hh as <-.
  exists s1, (popped id top s1). split.
  { unfold kinit. eapply bind_step; [exact Hrun0|]. unfold freerange.
    by rewrite Hp. }
  split; [done|].
  assert (top ∈ pages p (S n)) as Hin.
  { rewrite pages_snoc. apply elem_of_app. right. by apply list_elem_of_singleton. }
  destruct (pages_within PHYSTOP (S n) p top Hn Hin) as (_ & Hup & _).
  split; [done|].
  unfold page_count in Hn.
  assert ((PHYSTOP - p) / PGSIZE = Z.of_nat (S n)) as Hdiv by lia.
  pose proof (Z.mul_succ_div_gt (PHYSTOP - p) PGSIZE ltac:(unfold PGSIZE; lia))
    as Hgt.
  rewrite Hdiv in Hgt. unfold top, PGSIZE in *. lia.
Qed.

Lemma kinit_then_kalloc_takes_top_page_witness :
  ∃ s1 s2, kinit 2 0x80025000 0x80021234 round_up 8 0 (boot 2) = Ok tt s1
    ∧ kalloc 2 1 s1 = Ok 0x80024000 s2.
Proof.
  destruct (kinit_then_kalloc_takes_top_page 2 0x80025000 0x80021234 round_up
              8 0 1 0x80022000 2 (boot 2) eq_refl)
    as (s1 & s2 & Hi & Ha & _); try (vm_compute; done); try lia.
  - intros [|[|x]] k; simpl; intros [= <-]; done.
  - exists s1, s2. split; [exact Hi|exact Ha].
Defined.

End KallocExtras.

(** ** Properties of bio.c *)

Module BioSpec.
Import Bio.

(** *** Reads after writes *)

Lemma get_upd p q f s :
  get q (upd p f s) = if decide (q = p) then f <$> get q s else get q s.
Proof.
  destruct p as [|i|j], q as [|i'|j']; simpl; try done.
  - destruct (decide (Head i' = Head i)) as [[= ->]|Hne].
    + rewrite list_lookup_alter_eq. by destruct (bucket s !! i).
    + rewrite list_lookup_alter_ne; [done|congruence].
  - destruct (decide (Buf j' = Buf j)) as [[= ->]|Hne].
    + by rewrite list_lookup_alter_eq.
    + rewrite list_lookup_alter_ne; [done|congruence].
Qed.

Lemma get_upd_eq p f s : get p (upd p f s) = f <$> get p s.
Proof. rewrite get_upd. by rewrite decide_True. Qed.

Lemma get_upd_ne p q f s : q ≠ p → get q (upd p f s) = get q s.
Proof. intros. rewrite get_upd. by rewrite decide_False. Qed.

Lemma get_set_spin l v q s : get q (set_spin l v s) = get q s.
Proof.
  destruct l as [|i], q as [|i'|j']; simpl; try done.
  destruct (decide (i' = i)) as [->|Hne].
  - rewrite list_lookup_alter_eq. by destruct (bucket s !! i).
  - by rewrite list_lookup_alter_ne.
Qed.

Lemma spin_upd p f l s : spin l (upd p f s) = spin l s.
Proof.
  destruct p as [|i|j], l as [|i']; simpl; try done.
  destruct (decide (i' = i)) as [->|Hne].
  - rewrite list_lookup_alter_eq. by destruct (bucket s !! i).
  - by rewrite list_lookup_alter_ne.
Qed.

Lemma spin_set_spin l l' v s :
  spin l' (set_spin l v s)
  = if decide (l' = l) then (λ _, v) <$> spin l' s else spin l' s.
Proof.
  destruct l as [|i], l' as [|i']; simpl; try done.
  destruct (decide (BucketLock i' = BucketLock i)) as [[= ->]|Hne].
  - rewrite list_lookup_alter_eq. by destruct (bucket s !! i).
  - rewrite list_lookup_alter_ne; [done|congruence].
Qed.

Lemma pool_upd j p f s :
  bcache_buf (upd p f s) !! j = get (Buf j) (upd p f s).
Proof. done. Qed.

Lemma ticks_upd p f s : ticks (upd p f s) = ticks s.
Proof. by destruct p. Qed.
Lemma ticks_set_spin l v s : ticks (set_spin l v s) = ticks s.
Proof. by destruct l. Qed.
Lemma disk_upd p f s : disk (upd p f s) = disk s.
Proof. by destruct p. Qed.
Lemma disk_set_spin l v s : disk (set_spin l v s) = disk s.
Proof. by destruct l. Qed.
Lemma disk_log_upd p f s : disk_log (upd p f s) = disk_log s.
Proof. by destruct p. Qed.
Lemma disk_log_set_spin l v s : disk_log (set_spin l v s) = disk_log s.
Proof. by destruct l. Qed.

Lemma length_pool_upd p f s :
  length (bcache_buf (upd p f s)) = length (bcache_buf s).
Proof. destruct p; simpl; try done. by rewrite length_alter. Qed.
Lemma pool_set_spin l v s : bcache_buf (set_spin l v s) = bcache_buf s.
Proof. by destruct l. Qed.
Lemma length_bucket_upd p f s :
  length (bucket (upd p f s)) = length (bucket s).
Proof. destruct p; simpl; try done. by rewrite length_alter. Qed.
Lemma length_bucket_set_spin l v s :
  length (bucket (set_spin l v s)) = length (bucket s).
Proof. destruct l; simpl; try done. by rewrite length_alter. Qed.

(** *** The primitive commands *)

Lemma rd_ok p s b : get p s = Some b → rd p s = Ok b s.
Proof. intros H. unfold rd. by rewrite H. Qed.

Lemma wr_ok p f s : is_Some (get p s) → wr p f s = Ok tt (upd p f s).
Proof. intros [b H]. unfold wr. by rewrite H. Qed.

Lemma acquire_ok l s :
  spin l s = Some false → acquire l s = Ok tt (set_spin l true s).
Proof. intros H. unfold acquire. by rewrite H. Qed.

Lemma release_ok l s :
  spin l s = Some true → release l s = Ok tt (set_spin l false s).
Proof. intros H. unfold release. by rewrite H. Qed.

Lemma acquiresleep_ok p s b :
  get p s = Some b → lock b = false →
  acquiresleep p s = Ok tt (upd p (set_lock true) s).
Proof.
  intros H Hl. unfold acquiresleep.
  eapply bind_step; [by apply rd_ok|]. simpl. rewrite Hl.
  apply wr_ok. by rewrite H.
Qed.

Lemma acquiresleep_blocked p s b :
  get p s = Some b → lock b = true → acquiresleep p s = Err Blocked.
Proof.
  intros H Hl. unfold acquiresleep.
  eapply bind_step; [by apply rd_ok|]. simpl. by rewrite Hl.
Qed.

(** *** Pointers that survive a write *)

Lemma nxt_upd_ne p q f s : q ≠ p → nxt (upd p f s) q = nxt s q.
Proof. intros. unfold nxt. by rewrite get_upd_ne. Qed.

Lemma prv_upd_ne p q f s : q ≠ p → prv (upd p f s) q = prv s q.
Proof. intros. unfold prv. by rewrite get_upd_ne. Qed.

Lemma nxt_upd_keep p q f s :
  (∀ b, next (f b) = next b) → nxt (upd p f s) q = nxt s q.
Proof.
  intros Hf. unfold nxt. rewrite get_upd. case_decide; [|done].
  destruct (get q s); simpl; [|done]. by rewrite Hf.
Qed.

Lemma prv_upd_keep p q f s :
  (∀ b, prev (f b) = prev b) → prv (upd p f s) q = prv s q.
Proof.
  intros Hf. unfold prv. rewrite get_upd. case_decide; [|done].
  destruct (get q s); simpl; [|done]. by rewrite Hf.
Qed.

Lemma pay_upd_ne p q f s : q ≠ p → pay (upd p f s) q = pay s q.
Proof. intros. unfold pay. by rewrite get_upd_ne. Qed.

Lemma pay_upd_keep p q f s :
  (∀ b, strip (f b) = strip b) → pay (upd p f s) q = pay s q.
Proof.
  intros Hf. unfold pay. rewrite get_upd. case_decide; [|done].
  destruct (get q s); simpl; [|done]. by rewrite Hf.
Qed.

Lemma nxt_upd_set p v s :
  is_Some (get p s) → nxt (upd p (set_next v) s) p = Some v.
Proof. intros [b H]. unfold nxt. by rewrite get_upd_eq, H. Qed.

Lemma prv_upd_set p v s :
  is_Some (get p s) → prv (upd p (set_prev v) s) p = Some v.
Proof. intros [b H]. unfold prv. by rewrite get_upd_eq, H. Qed.

Lemma nxt_set_spin l v s q : nxt (set_spin l v s) q = nxt s q.
Proof. unfold nxt. by rewrite get_set_spin. Qed.
Lemma prv_set_spin l v s q : prv (set_spin l v s) q = prv s q.
Proof. unfold prv. by rewrite get_set_spin. Qed.
Lemma pay_set_spin l v s q : pay (set_spin l v s) q = pay s q.
Proof. unfold pay. by rewrite get_set_spin. Qed.

Lemma nxt_is_Some s p q : nxt s p = Some q → is_Some (get p s).
Proof. unfold nxt. destruct (get p s); [eauto|done]. Qed.
Lemma prv_is_Some s p q : prv s p = Some q → is_Some (get p s).
Proof. unfold prv. destruct (get p s); [eauto|done]. Qed.

End BioSpec.

Module BioChains.
Import Bio BioSpec.

(** *** Chains of list nodes *)

Lemma srcs_snoc a l z : srcs a (l ++ [z]) = a :: l.
Proof. revert a. induction l as [|b l IH]; intros a; simpl; [done|]. by rewrite IH. Qed.

Lemma lastp_in a l : lastp a l ∈ a :: l.
Proof.
  revert a. induction l as [|b l IH]; intros a; simpl.
  - apply elem_of_cons; by left.
  - apply elem_of_cons; right. apply IH.
Qed.

Lemma lastp_app a l1 l2 : lastp a (l1 ++ l2) = lastp (lastp a l1) l2.
Proof. revert a. induction l1 as [|b l1 IH]; intros a; simpl; [done|]. apply IH. Qed.

Lemma srcs_lastp a l : NoDup (a :: l) → lastp a l ∉ srcs a l.
Proof.
  revert a. induction l as [|b l IH]; intros a Hnd; simpl.
  - by intros ?%elem_of_nil.
  - apply NoDup_cons in Hnd as [Ha Hnd]. intros [Heq|Hin]%elem_of_cons.
    + apply Ha. rewrite <- Heq. apply lastp_in.
    + by apply (IH b).
Qed.

Lemma srcs_sub a l q : q ∈ srcs a l → q ∈ a :: l.
Proof.
  revert a. induction l as [|b l IH]; intros a; simpl.
  - by intros ?%elem_of_nil.
  - intros [->|Hin]%elem_of_cons; [apply elem_of_cons; by left|].
    apply elem_of_cons; right. by apply IH.
Qed.

Lemma fwd_app s a l1 l2 :
  fwd s a (l1 ++ l2) ↔ fwd s a l1 ∧ fwd s (lastp a l1) l2.
Proof.
  revert a. induction l1 as [|b l1 IH]; intros a; simpl; [tauto|].
  rewrite IH. tauto.
Qed.

Lemma bwd_app s a l1 l2 :
  bwd s a (l1 ++ l2) ↔ bwd s a l1 ∧ bwd s (lastp a l1) l2.
Proof.
  revert a. induction l1 as [|b l1 IH]; intros a; simpl; [tauto|].
  rewrite IH. tauto.
Qed.

(** A chain stays a chain when the pointers it follows are not written. *)
Lemma fwd_frame s s' a l :
  (∀ q, q ∈ srcs a l → nxt s' q = nxt s q) → fwd s a l → fwd s' a l.
Proof.
  revert a. induction l as [|b l IH]; intros a Hq; simpl; [done|].
  intros [Ha Hl]. split.
  - rewrite Hq; [done|]. simpl. apply elem_of_cons; by left.
  - apply IH; [|done]. intros q Hin. apply Hq. simpl.
    apply elem_of_cons; by right.
Qed.

Lemma bwd_frame s s' a l :
  (∀ q, q ∈ l → prv s' q = prv s q) → bwd s a l → bwd s' a l.
Proof.
  revert a. induction l as [|b l IH]; intros a Hq; simpl; [done|].
  intros [Ha Hl]. split.
  - rewrite Hq; [done|]. apply elem_of_cons; by left.
  - apply IH; [|done]. intros q Hin. apply Hq. apply elem_of_cons; by right.
Qed.

(** Taking the node [x] out of a chain: its neighbours now point at each
    other. *)
Lemma fwd_remove s s' a ns x ms z :
  fwd s a (ns ++ x :: ms ++ [z]) → NoDup (a :: ns ++ x :: ms) →
  nxt s' (lastp a ns) = Some (firstp ms z) →
  (∀ q, q ≠ lastp a ns → nxt s' q = nxt s q) →
  fwd s' a (ns ++ ms ++ [z]).
Proof.
  intros Hf Hnd HP Hother.
  apply fwd_app in Hf as [Hns [_ Hms]].
  apply fwd_app. split.
  - apply (fwd_frame s); [|done]. intros q Hq. apply Hother. intros ->.
    revert Hq. apply srcs_lastp.
    rewrite app_comm_cons in Hnd. by apply NoDup_app in Hnd as [? _].
  - assert (∀ q, q ∈ ms → q ≠ lastp a ns) as Hdis.
    { intros q Hq ->. rewrite app_comm_cons in Hnd.
      apply NoDup_app in Hnd as (_ & Hd & _).
      apply (Hd _ (lastp_in a ns)). apply elem_of_cons; by right. }
    destruct ms as [|m ms]; simpl in *; [done|].
    split; [done|]. destruct Hms as [_ Hms].
    apply (fwd_frame s); [|done]. intros q Hq. apply Hother, Hdis.
    rewrite srcs_snoc in Hq. done.
Qed.

Lemma bwd_remove s s' a ns x ms z :
  bwd s a (ns ++ x :: ms ++ [z]) → NoDup (ns ++ x :: ms ++ [z]) →
  prv s' (firstp ms z) = Some (lastp a ns) →
  (∀ q, q ≠ firstp ms z → prv s' q = prv s q) →
  bwd s' a (ns ++ ms ++ [z]).
Proof.
  intros Hb Hnd HN Hother.
  apply bwd_app in Hb as [Hns [_ Hms]].
  apply NoDup_app in Hnd as (_ & Hd & Hnd').
  apply NoDup_cons in Hnd' as [_ Hnd'].
  apply bwd_app. split.
  - apply (bwd_frame s); [|done]. intros q Hq. apply Hother. intros ->.
    apply (Hd _ Hq). apply elem_of_cons; right.
    destruct ms; simpl; apply elem_of_cons; by left.
  - destruct ms as [|m ms]; simpl in *.
    + done.
    + split; [done|]. destruct Hms as [_ Hms].
      apply (bwd_frame s); [|done]. intros q Hq. apply Hother. intros ->.
      by apply NoDup_cons in Hnd' as [? _].
Qed.

(** Putting the node [x] in front of a chain. *)
Lemma fwd_insert s s' a x ms z :
  fwd s a (ms ++ [z]) → a ∉ ms → x ∉ ms →
  nxt s' a = Some x → nxt s' x = Some (firstp ms z) →
  (∀ q, q ≠ a → q ≠ x → nxt s' q = nxt s q) →
  fwd s' a (x :: ms ++ [z]).
Proof.
  intros Hf Ha Hx Hax Hxn Hother. simpl. split; [done|].
  destruct ms as [|m ms]; simpl in *; [done|].
  split; [done|]. destruct Hf as [_ Hf].
  apply (fwd_frame s); [|done]. intros q Hq. rewrite srcs_snoc in Hq.
  apply Hother; intros ->; [by apply Ha|by apply Hx].
Qed.

Lemma bwd_insert s s' a x ms z :
  bwd s a (ms ++ [z]) → NoDup (ms ++ [z]) → x ∉ ms ++ [z] →
  prv s' x = Some a → prv s' (firstp ms z) = Some x →
  (∀ q, q ≠ x → q ≠ firstp ms z → prv s' q = prv s q) →
  bwd s' a (x :: ms ++ [z]).
Proof.
  intros Hb Hnd Hx Hxa Hnx Hother. simpl. split; [done|].
  destruct ms as [|m ms]; simpl in *.
  - done.
  - split; [done|]. destruct Hb as [_ Hb].
    apply NoDup_cons in Hnd as [Hm _].
    apply (bwd_frame s); [|done]. intros q Hq.
    apply Hother; intros ->; [|done].
    apply Hx. apply elem_of_cons; by right.
Qed.

(** *** Rings *)

Global Instance Buf_inj : Inj (=) (=) Buf.
Proof. by intros x y [= ->]. Qed.

Lemma head_not_buf h (l : list nat) : Head h ∉ Buf <$> l.
Proof. intros (x & Heq & _)%list_elem_of_fmap. discriminate. Qed.

Lemma nodup_head_bufs h (l : list nat) : NoDup l → NoDup (Head h :: (Buf <$> l)).
Proof.
  intros Hnd. apply NoDup_cons. split; [apply head_not_buf|].
  by apply (NoDup_fmap_2 Buf).
Qed.

Lemma nodup_bufs_head h (l : list nat) : NoDup l → NoDup ((Buf <$> l) ++ [Head h]).
Proof.
  intros Hnd. apply NoDup_app. split; [by apply (NoDup_fmap_2 Buf)|].
  split; [|apply NoDup_singleton].
  intros q Hq Hz. apply list_elem_of_singleton in Hz as ->.
  revert Hq. apply head_not_buf.
Qed.

Lemma firstp_in (l : list ptr) z : firstp l z ∈ l ++ [z].
Proof. destruct l; simpl; apply elem_of_cons; by left. Qed.

Lemma ring_frame s s' h l :
  (∀ q, q ∈ Head h :: (Buf <$> l) → nxt s' q = nxt s q ∧ prv s' q = prv s q) →
  ring s h l → ring s' h l.
Proof.
  intros Hq [Hf Hb]. split.
  - apply (fwd_frame s); [|done]. intros q Hin. rewrite srcs_snoc in Hin.
    by apply Hq.
  - apply (bwd_frame s); [|done]. intros q Hin. apply Hq.
    apply elem_of_app in Hin as [Hin|Hin].
    + apply elem_of_cons; by right.
    + apply list_elem_of_singleton in Hin as ->. apply elem_of_cons; by left.
Qed.

(** The neighbours of a buffer on its ring. *)
Lemma ring_at s h l1 j l2 :
  ring s h (l1 ++ j :: l2) →
  prv s (Buf j) = Some (lastp (Head h) (Buf <$> l1))
  ∧ nxt s (Buf j) = Some (firstp (Buf <$> l2) (Head h)).
Proof.
  intros [Hf Hb]. rewrite fmap_app, fmap_cons, <- app_assoc in Hf, Hb.
  simpl in Hf, Hb.
  apply fwd_app in Hf as [_ [_ Hf]]. apply bwd_app in Hb as [_ [Hb _]].
  split; [done|]. destruct l2; simpl in *; tauto.
Qed.

Lemma ring_get s h l j : ring s h l → j ∈ l → is_Some (get (Buf j) s).
Proof.
  intros Hr (l1 & l2 & ->)%list_elem_of_split.
  apply ring_at in Hr as [Hp _]. by eapply prv_is_Some.
Qed.

Lemma ring_head s h l :
  ring s h l → nxt s (Head h) = Some (firstp (Buf <$> l) (Head h)).
Proof. intros [Hf _]. destruct l; simpl in *; tauto. Qed.

Lemma ring_unlink s s' h l1 j l2 :
  ring s h (l1 ++ j :: l2) → NoDup (l1 ++ j :: l2) →
  nxt s' (lastp (Head h) (Buf <$> l1)) = Some (firstp (Buf <$> l2) (Head h)) →
  (∀ q, q ≠ lastp (Head h) (Buf <$> l1) → nxt s' q = nxt s q) →
  prv s' (firstp (Buf <$> l2) (Head h)) = Some (lastp (Head h) (Buf <$> l1)) →
  (∀ q, q ≠ firstp (Buf <$> l2) (Head h) → prv s' q = prv s q) →
  ring s' h (l1 ++ l2).
Proof.
  intros [Hf Hb] Hnd HP HPo HN HNo.
  rewrite fmap_app, fmap_cons, <- app_assoc in Hf, Hb. simpl in Hf, Hb.
  unfold ring. rewrite fmap_app, <- app_assoc. split.
  - eapply fwd_remove; [exact Hf| |done|done].
    pose proof (nodup_head_bufs h _ Hnd) as H.
    by rewrite fmap_app, fmap_cons in H.
  - eapply bwd_remove; [exact Hb| |done|done].
    pose proof (nodup_bufs_head h _ Hnd) as H.
    by rewrite fmap_app, fmap_cons, <- app_assoc in H.
Qed.

Lemma ring_insert s s' h j l :
  ring s h l → NoDup l → j ∉ l →
  nxt s' (Head h) = Some (Buf j) →
  nxt s' (Buf j) = Some (firstp (Buf <$> l) (Head h)) →
  (∀ q, q ≠ Head h → q ≠ Buf j → nxt s' q = nxt s q) →
  prv s' (Buf j) = Some (Head h) →
  prv s' (firstp (Buf <$> l) (Head h)) = Some (Buf j) →
  (∀ q, q ≠ Buf j → q ≠ firstp (Buf <$> l) (Head h) → prv s' q = prv s q) →
  ring s' h (j :: l).
Proof.
  intros [Hf Hb] Hnd Hj H1 H2 H3 H4 H5 H6. unfold ring.
  rewrite fmap_cons. simpl. split.
  - apply (fwd_insert s s' (Head h) (Buf j) (Buf <$> l) (Head h)); try done.
    + apply head_not_buf.
    + by intros ?%(list_elem_of_fmap_inj_2 Buf).
  - apply (bwd_insert s s' (Head h) (Buf j) (Buf <$> l) (Head h)); try done.
    + by apply nodup_bufs_head.
    + intros [Hin|Heq%list_elem_of_singleton]%elem_of_app; [|discriminate].
      by apply (list_elem_of_fmap_inj_2 Buf) in Hin.
Qed.

(** Following [next] from one node leads to one list head only. *)
Lemma fwd_functional s a l h l' h' :
  fwd s a ((Buf <$> l) ++ [Head h]) → fwd s a ((Buf <$> l') ++ [Head h']) →
  l = l' ∧ h = h'.
Proof.
  revert a l'. induction l as [|x l IH]; intros a [|x' l']; simpl.
  - intros [H1 _] [H2 _]. rewrite H1 in H2. by injection H2 as ->.
  - intros [H1 _] [H2 _]. rewrite H1 in H2. done.
  - intros [H1 _] [H2 _]. rewrite H1 in H2. done.
  - intros [H1 Hl] [H2 Hl']. rewrite H1 in H2. injection H2 as <-.
    destruct (IH _ _ Hl Hl') as [-> ->]. done.
Qed.

Lemma on_list_unique s h h' j : on_list s h j → on_list s h' j → h = h'.
Proof.
  intros (l & [Hf _] & Hj) (l' & [Hf' _] & Hj').
  apply list_elem_of_split in Hj as (l1 & l2 & ->).
  apply list_elem_of_split in Hj' as (l1' & l2' & ->).
  rewrite fmap_app, fmap_cons, <- app_assoc in Hf, Hf'. simpl in Hf, Hf'.
  apply fwd_app in Hf as [_ [_ Hf]]. apply fwd_app in Hf' as [_ [_ Hf']].
  by destruct (fwd_functional _ _ _ _ _ _ Hf Hf').
Qed.

End BioChains.

Module BioLinked.
Import Bio BioSpec BioChains.

(** *** The partition of the pool into bucket lists *)

Lemma hash_lt bn : (hash bn < NBUCKET)%nat.
Proof.
  unfold hash, NBUCKET. pose proof (Z.mod_pos_bound bn (Z.of_nat 13)). lia.
Qed.

Lemma hash_0 : hash 0 = 0%nat.
Proof. done. Qed.

Lemma bno_eq (o' o : option buf) b :
  blockno <$> o' = blockno <$> o → o = Some b →
  ∃ b', o' = Some b' ∧ blockno b' = blockno b.
Proof.
  intros Heq ->. destruct o' as [b'|]; simpl in Heq; [|done].
  exists b'. split; [done|]. congruence.
Qed.

Lemma filter_out (j : nat) (l : list nat) :
  j ∉ l → filter (λ x, x ≠ j) l = l.
Proof.
  induction l as [|x l IH]; intros Hj; [done|].
  rewrite filter_cons_True.
  - f_equal. apply IH. intros ?. apply Hj. apply elem_of_cons; by right.
  - intros ->. apply Hj. apply elem_of_cons; by left.
Qed.

Lemma filter_split (j : nat) (l1 l2 : list nat) :
  NoDup (l1 ++ j :: l2) → filter (λ x, x ≠ j) (l1 ++ j :: l2) = l1 ++ l2.
Proof.
  intros Hnd. apply NoDup_app in Hnd as (_ & Hd & Hnd).
  apply NoDup_cons in Hnd as [Hj2 _].
  rewrite filter_app, filter_cons_False by (intros H; by apply H).
  rewrite !filter_out; [done|done|].
  intros Hj1. apply (Hd _ Hj1). apply elem_of_cons; by left.
Qed.

Section Linked.
Variables (s s' : state) (D : nat → Prop) (bk : nat → list nat).
Hypothesis Hlk : linked s D bk.

(** Two lists of the partition share no buffer. *)
Lemma linked_home h k j :
  (h < NBUCKET)%nat → (k < NBUCKET)%nat → j ∈ bk h → j ∈ bk k → h = k.
Proof.
  intros Hh Hk Hjh Hjk.
  destruct (lk_home _ _ _ Hlk h j Hh Hjh) as (_ & b & Hb & <-).
  destruct (lk_home _ _ _ Hlk k j Hk Hjk) as (_ & b' & Hb' & <-).
  congruence.
Qed.

Lemma linked_nodes_disjoint h k q :
  (h < NBUCKET)%nat → (k < NBUCKET)%nat → h ≠ k →
  q ∈ Head h :: (Buf <$> bk h) → q ∈ (Buf <$> bk k) ++ [Head k] → False.
Proof.
  intros Hh Hk Hne [->|Hq]%elem_of_cons Hq'.
  - apply elem_of_app in Hq' as [Hq'|Hq'].
    + by apply head_not_buf in Hq'.
    + apply list_elem_of_singleton in Hq'. congruence.
  - apply list_elem_of_fmap in Hq as (x & -> & Hx).
    apply elem_of_app in Hq' as [Hq'|Hq'].
    + apply (list_elem_of_fmap_inj_2 Buf) in Hq'.
      apply Hne. by apply (linked_home h k x).
    + apply list_elem_of_singleton in Hq'. discriminate.
Qed.

(** Writes that touch no list pointer and no block number of [D]. *)
Lemma linked_frame :
  (∀ q, nxt s' q = nxt s q) → (∀ q, prv s' q = prv s q) →
  (∀ j, D j →
     blockno <$> bcache_buf s' !! j = blockno <$> bcache_buf s !! j) →
  linked s' D bk.
Proof.
  intros Hn Hp Hb. destruct Hlk as [Hring Hnd Hhome Hall]. split.
  - intros h Hh. apply (ring_frame s); [|by apply Hring]. intros q _. auto.
  - done.
  - intros h j Hh Hj. destruct (Hhome h j Hh Hj) as (HD & b & Hbj & Hhash).
    split; [done|].
    destruct (bno_eq _ _ b (Hb j HD) Hbj) as (b' & Hb' & Hbn).
    exists b'. split; [done|]. by rewrite Hbn.
  - intros j b' HD Hb'.
    destruct (bno_eq _ _ b' (eq_sym (Hb j HD)) Hb') as (b & Hbj & Hbn).
    rewrite <- Hbn. by apply Hall.
Qed.

(** Buffer [j] leaves its list. *)
Lemma linked_unlink j b :
  D j → bcache_buf s !! j = Some b →
  nxt s' (prev b) = Some (next b) →
  (∀ q, q ≠ prev b → nxt s' q = nxt s q) →
  prv s' (next b) = Some (prev b) →
  (∀ q, q ≠ next b → prv s' q = prv s q) →
  (∀ x, blockno <$> bcache_buf s' !! x = blockno <$> bcache_buf s !! x) →
  linked s' (λ x, D x ∧ x ≠ j) (λ h, filter (λ x, x ≠ j) (bk h)).
Proof.
  intros HD Hb HP HPo HN HNo Hbn.
  pose proof Hlk as [Hring Hnd Hhome Hall].
  pose proof (Hall j b HD Hb) as Hj.
  pose proof (hash_lt (blockno b)) as Hhj.
  set (hj := hash (blockno b)) in *.
  destruct (list_elem_of_split _ _ Hj) as (l1 & l2 & Hsplit).
  pose proof (Hring hj Hhj) as Hr. rewrite Hsplit in Hr.
  destruct (ring_at _ _ _ _ _ Hr) as [Hprev Hnext].
  unfold prv, nxt in Hprev, Hnext. simpl in Hprev, Hnext.
  rewrite Hb in Hprev, Hnext. simpl in Hprev, Hnext.
  injection Hprev as Hprev. injection Hnext as Hnext.
  rewrite Hprev, Hnext in *.
  split.
  - intros h Hh. destruct (decide (h = hj)) as [->|Hne].
    + rewrite Hsplit, filter_split by (rewrite <- Hsplit; auto).
      eapply ring_unlink; try done. rewrite <- Hsplit. auto.
    + rewrite filter_out.
      2:{ intros Hjh. apply Hne. by apply (linked_home h hj j). }
      apply (ring_frame s); [|by apply Hring]. intros q Hq. split.
      * apply HPo. intros ->.
        apply (linked_nodes_disjoint h hj _ Hh Hhj Hne Hq).
        rewrite Hsplit, fmap_app.
        pose proof (lastp_in (Head hj) (Buf <$> l1)) as Hin.
        apply elem_of_cons in Hin as [->|Hin].
        -- apply elem_of_app; right. by apply list_elem_of_singleton.
        -- apply elem_of_app; left. apply elem_of_app; by left.
      * apply HNo. intros ->.
        apply (linked_nodes_disjoint h hj _ Hh Hhj Hne Hq).
        rewrite Hsplit, fmap_app, fmap_cons.
        pose proof (firstp_in (Buf <$> l2) (Head hj)) as Hin.
        apply elem_of_app in Hin as [Hin|Hin].
        -- apply elem_of_app; left. apply elem_of_app; right.
           apply elem_of_cons; by right.
        -- apply elem_of_app; by right.
  - intros h Hh. apply NoDup_filter; auto.
  - intros h x Hh [Hxj Hx]%list_elem_of_filter.
    destruct (Hhome h x Hh Hx) as (HDx & bx & Hbx & Hhash).
    split; [done|].
    destruct (bno_eq _ _ bx (Hbn x) Hbx) as (b' & Hb' & Hbn').
    exists b'. split; [done|]. by rewrite Hbn'.
  - intros x b' [HDx Hxj] Hb'.
    destruct (bno_eq _ _ b' (eq_sym (Hbn x)) Hb') as (bx & Hbx & Hbn').
    apply list_elem_of_filter. split; [done|].
    rewrite <- Hbn'. by apply Hall.
Qed.

(** Buffer [j], on no list, goes to the head of the list of bucket [h]. *)
Lemma linked_insert j h b' N0 :
  ¬ D j → bcache_buf s' !! j = Some b' → hash (blockno b') = h →
  nxt s (Head h) = Some N0 →
  nxt s' (Head h) = Some (Buf j) → nxt s' (Buf j) = Some N0 →
  (∀ q, q ≠ Head h → q ≠ Buf j → nxt s' q = nxt s q) →
  prv s' (Buf j) = Some (Head h) → prv s' N0 = Some (Buf j) →
  (∀ q, q ≠ Buf j → q ≠ N0 → prv s' q = prv s q) →
  (∀ x, x ≠ j →
     blockno <$> bcache_buf s' !! x = blockno <$> bcache_buf s !! x) →
  linked s' (λ x, D x ∨ x = j)
         (λ k, if decide (k = h) then j :: bk k else bk k).
Proof.
  intros HD Hb' Hhash HN0 H1 H2 H3 H4 H5 H6 Hbn.
  pose proof Hlk as [Hring Hnd Hhome Hall].
  assert (∀ k, (k < NBUCKET)%nat → j ∉ bk k) as Hfresh.
  { intros k Hk Hj. by destruct (Hhome k j Hk Hj) as [? _]. }
  pose proof (hash_lt (blockno b')) as Hh. rewrite Hhash in Hh.
  pose proof (ring_head _ _ _ (Hring h Hh)) as Hfirst.
  rewrite HN0 in Hfirst. injection Hfirst as ->.
  split.
  - intros k Hk. case_decide as Hkh.
    + subst k. apply (ring_insert s); auto.
    + apply (ring_frame s); [|by apply Hring]. intros q Hq.
      assert (q ≠ Head h ∧ q ≠ Buf j ∧ q ≠ firstp (Buf <$> bk h) (Head h))
        as (Hq1 & Hq2 & Hq3).
      { repeat split; intros ->.
        - apply elem_of_cons in Hq as [[=]|Hq]; [done|].
          by apply head_not_buf in Hq.
        - apply elem_of_cons in Hq as [[=]|Hq].
          apply (list_elem_of_fmap_inj_2 Buf) in Hq. by apply (Hfresh k).
        - apply (linked_nodes_disjoint k h _ Hk Hh Hkh Hq), firstp_in. }
      split; [by apply H3|by apply H6].
  - intros k Hk. case_decide; [|by auto]. subst k.
    apply NoDup_cons. split; auto.
  - intros k x Hk Hx.
    assert (x = j ∧ k = h ∨ x ≠ j ∧ x ∈ bk k) as [[-> ->]|[Hxj Hx']].
    { case_decide.
      - apply elem_of_cons in Hx as [->|Hx]; [by left|].
        right. split; [|done]. intros ->. by apply (Hfresh k).
      - right. split; [|done]. intros ->. by apply (Hfresh k). }
    + split; [by right|]. by exists b'.
    + destruct (Hhome k x Hk Hx') as (HDx & bx & Hbx & Hhx).
      split; [by left|].
      destruct (bno_eq _ _ bx (Hbn x Hxj) Hbx) as (b'' & Hb'' & Hbn').
      exists b''. split; [done|]. by rewrite Hbn'.
  - intros x bx [HDx| ->] Hbx.
    + assert (x ≠ j) as Hxj by (by intros ->).
      destruct (bno_eq _ _ bx (eq_sym (Hbn x Hxj)) Hbx) as (b0 & Hb0 & Hbn').
      pose proof (Hall x b0 HDx Hb0) as Hin. rewrite Hbn' in Hin.
      case_decide; [|done]. apply elem_of_cons; by right.
    + rewrite Hb' in Hbx. injection Hbx as <-.
      rewrite decide_True by done. apply elem_of_cons; by left.
Qed.

End Linked.

Lemma linked_ext s D D' bk :
  (∀ j b, bcache_buf s !! j = Some b → D j ↔ D' j) →
  linked s D bk → linked s D' bk.
Proof.
  intros HDD [Hring Hnd Hhome Hall]. split; auto.
  - intros h j Hh Hj. destruct (Hhome h j Hh Hj) as (HD & b & Hb & Hhash).
    split; [by apply (HDD j b)|]. by exists b.
  - intros j b HD Hb. apply Hall; [|done]. by apply (HDD j b).
Qed.

Lemma linked_on_list s D bk j b :
  linked s D bk → D j → bcache_buf s !! j = Some b →
  on_list s (hash (blockno b)) j.
Proof.
  intros [Hring _ _ Hall] HD Hb. exists (bk (hash (blockno b))).
  split; [apply Hring, hash_lt|]. by apply Hall.
Qed.

End BioLinked.

Module BioScans.
Import Bio BioSpec BioChains BioLinked.

(** *** The two scans of bget *)

(** The walk over a bucket list returns the first buffer of the list that
    holds the block, or null when none does; it leaves the state alone. *)
Lemma lookup_fwd s h dv bn l : ∀ a fuel,
  fwd s a ((Buf <$> l) ++ [Head h]) → (length l < fuel)%nat →
  ∃ r, lookup fuel (Head h) dv bn (firstp (Buf <$> l) (Head h)) s = Ok r s ∧
    ((r = Null ∧ ∀ x, x ∈ l → ¬ holds s x dv bn)
     ∨ (∃ x l1 l2, r = Buf x ∧ l = l1 ++ x :: l2 ∧ holds s x dv bn
          ∧ ∀ y, y ∈ l1 → ¬ holds s y dv bn)).
Proof.
  induction l as [|x l IH]; intros a fuel Hf Hfuel.
  - destruct fuel as [|fuel]; [simpl in Hfuel; lia|]. simpl.
    rewrite bool_decide_true by done. exists Null. split; [done|].
    left. split; [done|]. by intros x ?%elem_of_nil.
  - destruct fuel as [|fuel]; [simpl in Hfuel; lia|].
    simpl in Hf. destruct Hf as [_ Hf]. simpl firstp. simpl lookup.
    rewrite ?bool_decide_false by done.
    assert (∃ bx, get (Buf x) s = Some bx
              ∧ next bx = firstp (Buf <$> l) (Head h)) as (bx & Hbx & Hnx).
    { assert (nxt s (Buf x) = Some (firstp (Buf <$> l) (Head h))) as Hn
        by (destruct l; simpl in *; tauto).
      unfold nxt in Hn. destruct (get (Buf x) s) as [bx|]; [|done].
      exists bx. split; [done|]. simpl in Hn. congruence. }
    destruct (decide (dev bx = dv ∧ blockno bx = bn)) as [Hm|Hm].
    + exists (Buf x). split.
      * eapply bind_step; [by apply rd_ok|]. simpl.
        by rewrite bool_decide_true.
      * right. exists x, [], l. split; [done|]. split; [done|].
        split; [exists bx; tauto|]. by intros y ?%elem_of_nil.
    + destruct (IH (Buf x) fuel Hf) as (r & Hr & Hspec);
        [simpl in Hfuel; lia|].
      exists r. split.
      * eapply bind_step; [by apply rd_ok|]. simpl.
        rewrite bool_decide_false by done. by rewrite Hnx.
      * assert (¬ holds s x dv bn) as Hx.
        { intros (b & Hb & Hd & Hn). simpl in Hbx. rewrite Hbx in Hb.
          injection Hb as <-. tauto. }
        destruct Hspec as [[-> Hnone]|(y & l1 & l2 & -> & -> & Hy & Hl1)].
        -- left. split; [done|].
           intros y [->|Hy]%elem_of_cons; [done|by apply Hnone].
        -- right. exists y, (x :: l1), l2. repeat split; try done.
           intros z [->|Hz]%elem_of_cons; [done|by apply Hl1].
Qed.

Lemma lookup_ring s h dv bn l fuel hd :
  ring s h l → (length l < fuel)%nat → get (Head h) s = Some hd →
  ∃ r, lookup fuel (Head h) dv bn (next hd) s = Ok r s ∧
    ((r = Null ∧ ∀ x, x ∈ l → ¬ holds s x dv bn)
     ∨ (∃ x l1 l2, r = Buf x ∧ l = l1 ++ x :: l2 ∧ holds s x dv bn
          ∧ ∀ y, y ∈ l1 → ¬ holds s y dv bn)).
Proof.
  intros Hr Hfuel Hhd. pose proof (ring_head _ _ _ Hr) as Hn.
  unfold nxt in Hn. rewrite Hhd in Hn. injection Hn as ->.
  destruct Hr as [Hf _]. by apply (lookup_fwd s h dv bn l (Head h)).
Qed.

(** The scan of the pool. *)
Lemma scan_pool_step s n b lru :
  bcache_buf s !! n = Some b → lru_of s n lru →
  lru_of s (S n)
    (if bool_decide (refcnt b = 0)
        && (bool_decide (lru = Null)
            || match get lru s with
               | Some l => bool_decide (lu_time b < lu_time l)
               | None => false
               end)
     then Buf n else lru).
Proof.
  intros Hb [[-> Hnone]|(l & bl & -> & Hl & Hbl & Hrl & Hmin)].
  - simpl. rewrite andb_true_r. case_bool_decide as Hr.
    + right. exists n, b. split; [done|]. split; [lia|].
      split; [done|]. split; [done|]. intros x c Hx Hc Hrc.
      assert (x = n ∨ x < n)%nat as [->|Hx'] by lia.
      * rewrite Hb in Hc. injection Hc as <-. lia.
      * by destruct (Hnone x c Hx' Hc).
    + left. split; [done|]. intros x bx Hx Hbx.
      assert (x = n ∨ x < n)%nat as [->|Hx'] by lia.
      * rewrite Hb in Hbx. by injection Hbx as <-.
      * by apply (Hnone x).
  - unfold get. rewrite Hbl.
    rewrite (bool_decide_false (Buf l = Null)) by done. rewrite orb_false_l.
    destruct (bool_decide (refcnt b = 0) && bool_decide (lu_time b < lu_time bl))
      eqn:Htake.
    + apply andb_prop in Htake as [Hr%bool_decide_eq_true Hlt%bool_decide_eq_true].
      right. exists n, b. split; [done|]. split; [lia|].
      split; [done|]. split; [done|]. intros x c Hx Hc Hrc.
      assert (x = n ∨ x < n)%nat as [->|Hx'] by lia.
      * rewrite Hb in Hc. injection Hc as <-. lia.
      * destruct (Hmin x c Hx' Hc Hrc). lia.
    + right. exists l, bl. split; [done|]. split; [lia|].
      split; [done|]. split; [done|]. intros x c Hx Hc Hrc.
      assert (x = n ∨ x < n)%nat as [->|Hx'] by lia.
      * rewrite Hb in Hc. injection Hc as <-.
        rewrite (bool_decide_true _ Hrc) in Htake. simpl in Htake.
        apply bool_decide_eq_false in Htake. lia.
      * by destruct (Hmin x c Hx' Hc Hrc).
Qed.

Lemma scan_pool_spec s : ∀ bs pre lru,
  bcache_buf s = pre ++ bs → lru_of s (length pre) lru →
  lru_of s (length (bcache_buf s)) (scan_pool s bs (length pre) lru).
Proof.
  induction bs as [|b bs IH]; intros pre lru Hpool Hlru.
  - simpl. rewrite Hpool, app_nil_r. done.
  - simpl.
    assert (bcache_buf s !! length pre = Some b) as Hb.
    { rewrite Hpool. by apply list_lookup_middle. }
    pose proof (scan_pool_step s _ b lru Hb Hlru) as Hstep.
    specialize (IH (pre ++ [b])). rewrite length_app in IH. simpl in IH.
    rewrite Nat.add_1_r in IH. apply IH; [|done].
    by rewrite <- app_assoc.
Qed.

(** The victim of a scan that starts with [lru = 0]. *)
Lemma scan_pool_lru s :
  lru_of s (length (bcache_buf s)) (scan_pool s (bcache_buf s) 0 Null).
Proof.
  apply (scan_pool_spec s (bcache_buf s) [] Null); [done|].
  left. split; [done|]. simpl. lia.
Qed.

Lemma scan_pool_saturated s :
  saturated s → scan_pool s (bcache_buf s) 0 Null = Null.
Proof.
  intros Hsat.
  destruct (scan_pool_lru s) as [[-> _]|(l & bl & _ & _ & Hbl & Hr & _)];
    [done|].
  by destruct (Hsat l bl).
Qed.

Lemma scan_pool_candidate s j b :
  bcache_buf s !! j = Some b → refcnt b = 0 →
  ∃ l bl, scan_pool s (bcache_buf s) 0 Null = Buf l
    ∧ bcache_buf s !! l = Some bl ∧ refcnt bl = 0
    ∧ ∀ x c, bcache_buf s !! x = Some c → refcnt c = 0 →
        lu_time bl ≤ lu_time c ∧ ((x < l)%nat → lu_time bl < lu_time c).
Proof.
  intros Hb Hr.
  destruct (scan_pool_lru s) as [[_ Hnone]|(l & bl & -> & _ & Hbl & Hrl & Hmin)].
  - destruct (Hnone j b); [by eapply lookup_lt_Some|done|done].
  - exists l, bl. split; [done|]. split; [done|]. split; [done|].
    intros x c Hc Hrc. apply (Hmin x c); [|done|done].
    by eapply lookup_lt_Some.
Qed.

End BioScans.

Module BioOps.
Import Bio BioSpec BioChains BioLinked BioScans.

(** *** Spin-locks between two calls *)

Lemma quiet_bcache s : quiet s → spin BcacheLock s = Some false.
Proof. intros (H & _ & _). simpl. by rewrite H. Qed.

Lemma quiet_bucket s i :
  quiet s → (i < NBUCKET)%nat → spin (BucketLock i) s = Some false.
Proof.
  intros (_ & Hlen & Hfree) Hi. simpl.
  destruct (lookup_lt_is_Some_2 (bucket s) i) as [k Hk]; [lia|].
  rewrite Hk. simpl. by rewrite (Hfree i k).
Qed.

Lemma quiet_intro s :
  spin BcacheLock s = Some false → length (bucket s) = NBUCKET →
  (∀ i, (i < NBUCKET)%nat → spin (BucketLock i) s = Some false) → quiet s.
Proof.
  intros Hb Hlen Hfree. split; [by injection Hb|]. split; [done|].
  intros i k Hk. specialize (Hfree i). simpl in Hfree. rewrite Hk in Hfree.
  simpl in Hfree. assert (i < NBUCKET)%nat as Hi.
  { rewrite <- Hlen. by eapply lookup_lt_Some. }
  specialize (Hfree Hi). congruence.
Qed.

Lemma set_spin_undo l s :
  spin l s = Some false → set_spin l false (set_spin l true s) = s.
Proof.
  destruct s as [bl pool bks t d dl]. destruct l as [|i]; simpl.
  - intros [= ->]. done.
  - intros Hk. unfold set_bucket. simpl. f_equal.
    rewrite list_alter_alter_eq.
    rewrite (list_alter_ext _ id _ bks i); [by apply list_alter_id| |done].
    intros k Hik. rewrite Hik in Hk. simpl in Hk. injection Hk as Hk.
    destruct k; simpl in *. by subst.
Qed.

Lemma upd_Buf_spin j f l v s :
  upd (Buf j) f (set_spin l v s) = set_spin l v (upd (Buf j) f s).
Proof. by destruct l. Qed.

Lemma upd_Buf_upd j f g s :
  upd (Buf j) f (upd (Buf j) g s) = upd (Buf j) (f ∘ g) s.
Proof. unfold upd, set_bcache_buf. simpl. by rewrite list_alter_alter_eq. Qed.

Lemma upd_Buf_insert j f s b :
  bcache_buf s !! j = Some b →
  upd (Buf j) f s = set_bcache_buf (<[j := f b]> (bcache_buf s)) s.
Proof.
  intros Hb. unfold upd. f_equal. rewrite list_insert_alter.
  apply list_alter_ext; [|done]. intros x Hx. congruence.
Qed.

(** *** bpin, bunpin, brelse, bwrite and the clock *)

Section Simple.
Variable rs : bool.
Variables (s : state) (j : nat) (b : buf).
Hypothesis Hq : quiet s.
Hypothesis Hb : bcache_buf s !! j = Some b.

(** A call that takes the bucket lock of [b], changes [b] by [f] without
    touching [blockno], and gives the lock back. *)
Lemma locked_update f :
  blockno (f b) = blockno b →
  (bf <- rd (Buf j); acquire (BucketLock (hash (blockno bf)));;
   wr (Buf j) f;;
   bf <- rd (Buf j); release (BucketLock (hash (blockno bf)))) s
  = Ok tt (set_bcache_buf (<[j := f b]> (bcache_buf s)) s).
Proof.
  intros Hf.
  bstep ltac:(by apply rd_ok).
  bstep ltac:(apply acquire_ok, quiet_bucket; [done|apply hash_lt]).
  bstep ltac:(apply wr_ok; rewrite get_set_spin; simpl; by rewrite Hb).
  bstep ltac:(apply rd_ok; rewrite get_upd_eq, get_set_spin; simpl;
              by rewrite Hb).
  rewrite Hf, release_ok.
  - rewrite upd_Buf_spin, set_spin_undo
      by (rewrite spin_upd; apply quiet_bucket; [done|apply hash_lt]).
    by rewrite (upd_Buf_insert _ _ _ b).
  - rewrite spin_upd, spin_set_spin, decide_True by done.
    by rewrite quiet_bucket by (done || apply hash_lt).
Qed.

Lemma bpin_ok :
  bpin rs (Buf j) s
  = Ok tt (set_bcache_buf (<[j := incr rs b]> (bcache_buf s)) s).
Proof. by apply locked_update. Qed.

Lemma bunpin_ok :
  bunpin rs (Buf j) s
  = Ok tt (set_bcache_buf (<[j := decr rs b]> (bcache_buf s)) s).
Proof. by apply locked_update. Qed.

Lemma brelse_ok :
  lock b = true →
  brelse rs (Buf j) s
  = Ok tt (set_bcache_buf
             (<[j := set_lu_time (ticks s) (decr rs (set_lock false b))]>
                (bcache_buf s)) s).
Proof.
  intros Hl. unfold brelse, holdingsleep, releasesleep.
  bstep ltac:(bstep ltac:(by apply rd_ok); reflexivity).
  rewrite Hl. simpl negb. cbv iota.
  bstep ltac:(apply wr_ok; simpl; by rewrite Hb).
  bstep ltac:(apply rd_ok; rewrite get_upd_eq; simpl; by rewrite Hb).
  simpl blockno.
  bstep ltac:(apply acquire_ok; rewrite spin_upd; apply quiet_bucket;
              [done|apply hash_lt]).
  bstep ltac:(apply wr_ok; rewrite get_set_spin, get_upd_eq; simpl;
              by rewrite Hb).
  bstep ltac:(reflexivity).
  bstep ltac:(apply wr_ok; rewrite get_upd_eq, get_set_spin, get_upd_eq;
              simpl; by rewrite Hb).
  bstep ltac:(apply rd_ok;
              rewrite !get_upd_eq, get_set_spin, get_upd_eq; simpl;
              by rewrite Hb).
  simpl blockno. rewrite release_ok.
  - rewrite !upd_Buf_spin, set_spin_undo
      by (rewrite !spin_upd; apply quiet_bucket; [done|apply hash_lt]).
    rewrite !upd_Buf_upd, (upd_Buf_insert _ _ _ b) by done.
    by rewrite ticks_set_spin, ticks_upd.
  - rewrite !spin_upd, spin_set_spin, decide_True by done.
    rewrite spin_upd. by rewrite quiet_bucket by (done || apply hash_lt).
Qed.

Lemma brelse_not_held :
  lock b = false → brelse rs (Buf j) s = Err (Panic "brelse").
Proof.
  intros Hl. unfold brelse, holdingsleep.
  bstep ltac:(bstep ltac:(by apply rd_ok); reflexivity).
  by rewrite Hl.
Qed.

Lemma bwrite_ok :
  lock b = true →
  bwrite (Buf j) s
  = Ok tt (set_disk (λ d n, if bool_decide (d = dev b ∧ n = blockno b)
                            then data b else disk s d n)
             (set_disk_log (disk_log s ++ [mkTransfer true (dev b) (blockno b)])
                s)).
Proof.
  intros Hl. unfold bwrite, holdingsleep.
  bstep ltac:(bstep ltac:(by apply rd_ok); reflexivity).
  rewrite Hl. simpl negb. cbv iota. unfold virtio_disk_rw.
  bstep ltac:(by apply rd_ok).
  bstep ltac:(reflexivity). done.
Qed.

End Simple.

End BioOps.

Module BioBget.
Import Bio BioSpec BioChains BioLinked BioScans BioOps.

(** *** Conditional locking *)

Lemma when_acquire c l s :
  (c = true → spin l s = Some false) →
  when c (acquire l) s = Ok tt (cond_spin c l true s).
Proof. destruct c; simpl; [|done]. intros H. by apply acquire_ok, H. Qed.

Lemma when_release c l s :
  (c = true → spin l s = Some true) →
  when c (release l) s = Ok tt (cond_spin c l false s).
Proof. destruct c; simpl; [|done]. intros H. by apply release_ok, H. Qed.

Lemma get_cond_spin c l v s q : get q (cond_spin c l v s) = get q s.
Proof. destruct c; simpl; [apply get_set_spin|done]. Qed.
Lemma nxt_cond_spin c l v s q : nxt (cond_spin c l v s) q = nxt s q.
Proof. unfold nxt. by rewrite get_cond_spin. Qed.
Lemma prv_cond_spin c l v s q : prv (cond_spin c l v s) q = prv s q.
Proof. unfold prv. by rewrite get_cond_spin. Qed.
Lemma pay_cond_spin c l v s q : pay (cond_spin c l v s) q = pay s q.
Proof. unfold pay. by rewrite get_cond_spin. Qed.
Lemma pool_cond_spin c l v s : bcache_buf (cond_spin c l v s) = bcache_buf s.
Proof. destruct c; simpl; [apply pool_set_spin|done]. Qed.
Lemma ticks_cond_spin c l v s : ticks (cond_spin c l v s) = ticks s.
Proof. destruct c; simpl; [apply ticks_set_spin|done]. Qed.
Lemma disk_cond_spin c l v s : disk (cond_spin c l v s) = disk s.
Proof. destruct c; simpl; [apply disk_set_spin|done]. Qed.
Lemma disk_log_cond_spin c l v s : disk_log (cond_spin c l v s) = disk_log s.
Proof. destruct c; simpl; [apply disk_log_set_spin|done]. Qed.
Lemma length_bucket_cond_spin c l v s :
  length (bucket (cond_spin c l v s)) = length (bucket s).
Proof. destruct c; simpl; [apply length_bucket_set_spin|done]. Qed.

(** *** Nodes of a ring *)

Lemma is_Some_get_upd p f q s : is_Some (get q s) → is_Some (get q (upd p f s)).
Proof.
  intros [b Hb]. rewrite get_upd. case_decide; rewrite Hb; simpl; eauto.
Qed.

Lemma fwd_src_get s a l q : fwd s a l → q ∈ srcs a l → is_Some (get q s).
Proof.
  revert a. induction l as [|b l IH]; intros a; simpl.
  - by intros _ ?%elem_of_nil.
  - intros [Ha Hl] [->|Hq]%elem_of_cons; [by eapply nxt_is_Some|].
    by apply (IH b).
Qed.

Lemma ring_node_get s h l q :
  ring s h l → q ∈ Head h :: (Buf <$> l) → is_Some (get q s).
Proof.
  intros [Hf _] Hq. apply (fwd_src_get _ _ _ _ Hf). by rewrite srcs_snoc.
Qed.

Lemma firstp_node h (l : list nat) :
  firstp (Buf <$> l) (Head h) ∈ Head h :: (Buf <$> l).
Proof.
  destruct l; simpl.
  - apply elem_of_cons; by left.
  - apply elem_of_cons; right. apply elem_of_cons; by left.
Qed.

Lemma firstp_ne_buf h (l : list nat) j :
  j ∉ l → firstp (Buf <$> l) (Head h) ≠ Buf j.
Proof.
  destruct l as [|x l]; simpl; [done|]. intros Hj [= ->]. apply Hj.
  apply elem_of_cons; by left.
Qed.

Lemma lastp_ne_buf h (l : list nat) j :
  j ∉ l → lastp (Head h) (Buf <$> l) ≠ Buf j.
Proof.
  intros Hj Heq. pose proof (lastp_in (Head h) (Buf <$> l)) as Hin.
  rewrite Heq in Hin. apply elem_of_cons in Hin as [[=]|Hin].
  by apply (list_elem_of_fmap_inj_2 Buf) in Hin.
Qed.

(** *** What the pointer writes of bget do *)

Lemma unlink_effect s P N :
  is_Some (get P s) → is_Some (get N s) →
  let s' := upd P (set_next N) (upd N (set_prev P) s) in
  nxt s' P = Some N ∧ (∀ q, q ≠ P → nxt s' q = nxt s q)
  ∧ prv s' N = Some P ∧ (∀ q, q ≠ N → prv s' q = prv s q)
  ∧ (∀ q, pay s' q = pay s q)
  ∧ (∀ q, q ≠ P → q ≠ N → get q s' = get q s).
Proof.
  intros HP HN s'. subst s'. repeat split.
  - apply nxt_upd_set. by apply is_Some_get_upd.
  - intros q Hq. rewrite nxt_upd_ne by done. by apply nxt_upd_keep.
  - rewrite prv_upd_keep by done. by apply prv_upd_set.
  - intros q Hq. rewrite prv_upd_keep by done. by apply prv_upd_ne.
  - intros q. by rewrite !pay_upd_keep.
  - intros q HqP HqN. by rewrite !get_upd_ne.
Qed.

Lemma insert_effect s h j N0 :
  N0 ≠ Buf j → is_Some (get (Buf j) s) → is_Some (get (Head h) s) →
  is_Some (get N0 s) →
  let s' := upd (Head h) (set_next (Buf j))
              (upd N0 (set_prev (Buf j))
                 (upd (Buf j) (set_next N0)
                    (upd (Buf j) (set_prev (Head h)) s))) in
  nxt s' (Head h) = Some (Buf j) ∧ nxt s' (Buf j) = Some N0
  ∧ (∀ q, q ≠ Head h → q ≠ Buf j → nxt s' q = nxt s q)
  ∧ prv s' (Buf j) = Some (Head h) ∧ prv s' N0 = Some (Buf j)
  ∧ (∀ q, q ≠ Buf j → q ≠ N0 → prv s' q = prv s q)
  ∧ (∀ q, pay s' q = pay s q).
Proof.
  intros HN0 Hj Hh HN s'. subst s'. repeat split.
  - apply nxt_upd_set. by do 3 apply is_Some_get_upd.
  - rewrite nxt_upd_ne by done. rewrite nxt_upd_keep by done.
    apply nxt_upd_set. by apply is_Some_get_upd.
  - intros q Hq1 Hq2. rewrite nxt_upd_ne by done.
    rewrite nxt_upd_keep by done. by rewrite !nxt_upd_ne.
  - rewrite prv_upd_keep by done. rewrite prv_upd_ne by done.
    rewrite prv_upd_keep by done. by apply prv_upd_set.
  - rewrite prv_upd_keep by done. apply prv_upd_set.
    by do 2 apply is_Some_get_upd.
  - intros q Hq1 Hq2. rewrite prv_upd_keep by done.
    by rewrite !prv_upd_ne.
  - intros q. by rewrite !pay_upd_keep.
Qed.

Lemma pay_blockno s' s q :
  pay s' q = pay s q → blockno <$> get q s' = blockno <$> get q s.
Proof.
  unfold pay. destruct (get q s') as [b'|], (get q s) as [b|]; simpl; try done.
  intros [=]. by f_equal.
Qed.

Lemma bno_upd_keep p q f s :
  (∀ b, blockno (f b) = blockno b) →
  blockno <$> get q (upd p f s) = blockno <$> get q s.
Proof.
  intros Hf. rewrite get_upd. case_decide; [|done].
  destruct (get q s); simpl; [|done]. by rewrite Hf.
Qed.

Lemma pay_get s' s q b :
  pay s' q = pay s q → get q s = Some b →
  ∃ b', get q s' = Some b' ∧ strip b' = strip b.
Proof.
  unfold pay. intros H Hb. rewrite Hb in H.
  destruct (get q s') as [b'|]; simpl in H; [|done].
  exists b'. split; [done|]. congruence.
Qed.

(** *** The eviction path of bget *)

(** The body of the loop, entered with the eviction lock and the lock of
    bucket [hash bn] held, when the scan of the pool finds buffer [j]: the
    call sleeps for good on a held sleep-lock of [j], and returns [j]
    otherwise. *)
Lemma recycle_ok s1 dv bn bk j b fuel :
  spin BcacheLock s1 = Some true →
  (∀ k, (k < NBUCKET)%nat →
     spin (BucketLock k) s1 = Some (bool_decide (k = hash bn))) →
  linked s1 (λ _, True) bk →
  scan_pool s1 (bcache_buf s1) 0 Null = Buf j →
  bcache_buf s1 !! j = Some b → refcnt b = 0 →
  ∃ s2 b2, recycle (S fuel) dv bn (hash bn) Null s1
           = (if lock b then Err Blocked else Ok (Buf j) s2)
    ∧ spin BcacheLock s2 = Some false
    ∧ (∀ k, (k < NBUCKET)%nat → spin (BucketLock k) s2 = Some false)
    ∧ length (bucket s2) = length (bucket s1)
    ∧ ticks s2 = ticks s1 ∧ disk s2 = disk s1 ∧ disk_log s2 = disk_log s1
    ∧ bcache_buf s2 !! j = Some b2
    ∧ strip b2 = strip (set_lock true (set_refcnt 1 (set_valid 0
                          (set_blockno bn (set_dev dv b)))))
    ∧ (∀ x, x ≠ j → pay s2 (Buf x) = pay s1 (Buf x))
    ∧ linked s2 (λ _, True)
        (λ k, if decide (k = hash bn) then j :: filter (λ x, x ≠ j) (bk k)
              else filter (λ x, x ≠ j) (bk k)).
Proof.
  intros Hbl Hsp Hlk Hscan Hb Hr.
  set (h := hash bn) in *.
  pose proof Hlk as [Hring Hnd Hhome Hall].
  pose proof (Hall j b I Hb) as Hj. set (lh := hash (blockno b)) in *.
  assert (lh < NBUCKET)%nat as Hlh by apply hash_lt.
  assert (h < NBUCKET)%nat as Hh by apply hash_lt.
  destruct (list_elem_of_split _ _ Hj) as (l1 & l2 & Hsplit).
  pose proof (Hnd lh Hlh) as Hndj. rewrite Hsplit in Hndj.
  pose proof (Hring lh Hlh) as Hrj. rewrite Hsplit in Hrj.
  destruct (ring_at _ _ _ _ _ Hrj) as [Hprev Hnext].
  unfold prv, nxt in Hprev, Hnext. simpl in Hprev, Hnext.
  rewrite Hb in Hprev, Hnext. simpl in Hprev, Hnext.
  injection Hprev as Hprev. injection Hnext as Hnext.
  assert ((j ∉ l1) ∧ (j ∉ l2)) as [Hj1 Hj2].
  { apply NoDup_app in Hndj as (_ & Hd & Hnd2).
    apply NoDup_cons in Hnd2 as [? _]. split; [|done].
    intros Hin. apply (Hd _ Hin). apply elem_of_cons; by left. }
  assert (is_Some (get (prev b) s1) ∧ is_Some (get (next b) s1)) as [HPget HNget].
  { split; apply (ring_node_get _ _ _ _ Hrj).
    - rewrite Hprev, fmap_app. 
      pose proof (lastp_in (Head lh) (Buf <$> l1)) as Hin.
      apply elem_of_cons in Hin as [->|Hin]; [apply elem_of_cons; by left|].
      apply elem_of_cons; right. apply elem_of_app; by left.
    - rewrite Hnext, fmap_app, fmap_cons.
      pose proof (firstp_node lh l2) as Hin.
      apply elem_of_cons in Hin as [->|Hin]; [apply elem_of_cons; by left|].
      apply elem_of_cons; right. apply elem_of_app; right.
      apply elem_of_cons; by right. }
  assert (prev b ≠ Buf j ∧ next b ≠ Buf j) as [HPj HNj].
  { rewrite Hprev, Hnext. split; [by apply lastp_ne_buf|by apply firstp_ne_buf]. }
  (* the states the body goes through *)
  set (c := bool_decide (lh ≠ h)).
  set (s1a := cond_spin c (BucketLock lh) true s1).
  set (s3 := upd (prev b) (set_next (next b))
               (upd (next b) (set_prev (prev b)) s1a)).
  set (s4 := cond_spin c (BucketLock lh) false s3).
  set (b5 := set_refcnt 1 (set_valid 0 (set_blockno bn (set_dev dv b)))).
  set (s5 := upd (Buf j) (set_refcnt 1) (upd (Buf j) (set_valid 0)
               (upd (Buf j) (set_blockno bn) (upd (Buf j) (set_dev dv) s4)))).
  destruct (unlink_effect s1a (prev b) (next b))
    as (U1 & U2 & U3 & U4 & U5 & U6);
    [unfold s1a; by rewrite get_cond_spin..|]. fold s3 in U1, U2, U3, U4, U5, U6.
  assert (get (Buf j) s4 = Some b) as G4.
  { unfold s4. rewrite get_cond_spin, U6 by done. unfold s1a.
    by rewrite get_cond_spin. }
  assert (∀ l, spin l s4 = spin l s1) as S4.
  { intros l. unfold s4, s3, s1a, cond_spin. destruct c eqn:Hc; [|by rewrite !spin_upd].
    rewrite spin_set_spin, !spin_upd, spin_set_spin.
    case_decide as Hl'; [|done]. subst l. rewrite Hsp by done.
    apply bool_decide_eq_true in Hc. by rewrite bool_decide_false. }
  assert (linked s4 (λ x, True ∧ x ≠ j) (λ k, filter (λ x, x ≠ j) (bk k))) as L4.
  { apply (linked_unlink s1 s4 _ bk Hlk j b I Hb); unfold s4.
    - by rewrite nxt_cond_spin.
    - intros q Hq. rewrite nxt_cond_spin, U2 by done. unfold s1a.
      by rewrite nxt_cond_spin.
    - by rewrite prv_cond_spin.
    - intros q Hq. rewrite prv_cond_spin, U4 by done. unfold s1a.
      by rewrite prv_cond_spin.
    - intros x. apply (pay_blockno _ _ (Buf x)).
      rewrite pay_cond_spin, U5. unfold s1a. by rewrite pay_cond_spin. }
  assert (get (Buf j) s5 = Some b5) as G5.
  { unfold s5. rewrite !get_upd_eq, G4. done. }
  assert (∀ q, q ≠ Buf j → get q s5 = get q s4) as G5o.
  { intros q Hq. unfold s5. by rewrite !get_upd_ne. }
  assert (linked s5 (λ x, True ∧ x ≠ j) (λ k, filter (λ x, x ≠ j) (bk k))) as L5.
  { apply (linked_frame s4); [done| | |].
    - intros q. unfold s5. by rewrite !nxt_upd_keep.
    - intros q. unfold s5. by rewrite !prv_upd_keep.
    - intros x [_ Hx]. change (bcache_buf s5 !! x) with (get (Buf x) s5).
      rewrite G5o; [done|congruence]. }
  pose proof (lk_ring _ _ _ L5 h Hh) as Hr5.
  set (N0 := firstp (Buf <$> filter (λ x, x ≠ j) (bk h)) (Head h)) in *.
  pose proof (ring_head _ _ _ Hr5) as HN0. fold N0 in HN0.
  assert (∃ hd, get (Head h) s5 = Some hd ∧ next hd = N0) as (hd & Hhd & Hhdn).
  { unfold nxt in HN0. destruct (get (Head h) s5) as [hd|]; [|done].
    exists hd. split; [done|]. simpl in HN0. congruence. }
  assert (N0 ≠ Buf j) as HN0j.
  { apply firstp_ne_buf. intros [Hne _]%list_elem_of_filter. done. }
  assert (is_Some (get N0 s5)) as HN0get.
  { apply (ring_node_get _ _ _ _ Hr5), firstp_node. }
  set (s6 := upd (Head h) (set_next (Buf j))
               (upd N0 (set_prev (Buf j))
                  (upd (Buf j) (set_next N0)
                     (upd (Buf j) (set_prev (Head h)) s5)))).
  destruct (insert_effect s5 h j N0 HN0j)
    as (I1 & I2 & I3 & I4 & I5 & I6 & I7); [by rewrite G5|by rewrite Hhd|done|].
  fold s6 in I1, I2, I3, I4, I5, I6, I7.
  destruct (pay_get s6 s5 (Buf j) b5 (I7 _) G5) as (b6 & G6 & Hb6).
  assert (lock b6 = lock b) as Hl6.
  { apply (f_equal lock) in Hb6. simpl in Hb6. congruence. }
  set (s7 := set_spin BcacheLock false (set_spin (BucketLock h) false s6)).
  assert (∀ l, spin l s6 = spin l s1) as S6.
  { intros l. unfold s6, s5. rewrite !spin_upd. apply S4. }
  exists (upd (Buf j) (set_lock true) s7), (set_lock true b6).
  split; [|split; [|split; [|split; [|split; [|split; [|split; [|split; [|split; [|split]]]]]]]]].
  - (* the run *)
    simpl recycle. rewrite ?(bool_decide_false (Null ≠ Null)) by (intros H; by apply H).
    bstep ltac:(reflexivity). rewrite Hscan.
    rewrite (bool_decide_true (Buf j ≠ Null)) by done.
    bstep ltac:(by apply rd_ok). cbv zeta. fold lh c.
    bstep ltac:(apply when_acquire; unfold c;
                intros Hc%bool_decide_eq_true; rewrite Hsp by done;
                by rewrite bool_decide_false).
    fold s1a.
    bstep ltac:(apply rd_ok; unfold s1a; rewrite get_cond_spin; exact Hb).
    rewrite (bool_decide_false (refcnt b ≠ 0)) by (intros H; by apply H).
    bstep ltac:(apply rd_ok; unfold s1a; rewrite get_cond_spin; exact Hb).
    bstep ltac:(apply wr_ok; unfold s1a; by rewrite get_cond_spin).
    bstep ltac:(apply rd_ok; rewrite get_upd_ne by done; unfold s1a;
                rewrite get_cond_spin; exact Hb).
    bstep ltac:(apply wr_ok, is_Some_get_upd; unfold s1a;
                by rewrite get_cond_spin).
    fold s3.
    bstep ltac:(apply when_release; unfold c; intros Hc%bool_decide_eq_true;
                unfold s3, s1a, cond_spin, c; rewrite (bool_decide_true _ Hc);
                rewrite !spin_upd, spin_set_spin, decide_True by done;
                by rewrite Hsp).
    fold c s4.
    bstep ltac:(apply wr_ok; by rewrite G4).
    bstep ltac:(apply wr_ok, is_Some_get_upd; by rewrite G4).
    bstep ltac:(apply wr_ok; do 2 apply is_Some_get_upd; by rewrite G4).
    bstep ltac:(apply wr_ok; do 3 apply is_Some_get_upd; by rewrite G4).
    fold s5.
    bstep ltac:(apply wr_ok; by rewrite G5).
    bstep ltac:(apply rd_ok; rewrite get_upd_ne by done; exact Hhd).
    bstep ltac:(apply wr_ok, is_Some_get_upd; by rewrite G5).
    bstep ltac:(apply rd_ok; rewrite !get_upd_ne by done; exact Hhd).
    rewrite Hhdn.
    bstep ltac:(apply wr_ok; by do 2 apply is_Some_get_upd).
    bstep ltac:(apply wr_ok; do 3 apply is_Some_get_upd; by rewrite Hhd).
    fold s6.
    bstep ltac:(apply release_ok; rewrite S6, Hsp by done;
                by rewrite bool_decide_true).
    bstep ltac:(apply release_ok; by rewrite spin_set_spin, decide_False, S6).
    fold s7. rewrite <- Hl6. destruct (lock b6) eqn:Hl.
    + apply bind_fail. apply (acquiresleep_blocked _ _ b6); [|done].
      unfold s7. by rewrite !get_set_spin.
    + bstep ltac:(apply (acquiresleep_ok _ _ b6); [|done]; unfold s7;
                  by rewrite !get_set_spin).
      done.
  - rewrite spin_upd. unfold s7. by rewrite spin_set_spin, decide_True.
  - intros k Hk. rewrite spin_upd. unfold s7.
    rewrite spin_set_spin, decide_False, spin_set_spin by done.
    case_decide as Hkh.
    + injection Hkh as ->. by rewrite S6, Hsp.
    + rewrite S6, Hsp by done. rewrite bool_decide_false; [done|congruence].
  - rewrite length_bucket_upd. unfold s7, s6, s5, s4, s3, s1a.
    rewrite !length_bucket_set_spin, !length_bucket_upd,
      length_bucket_cond_spin, !length_bucket_upd.
    apply length_bucket_cond_spin.
  - rewrite ticks_upd. unfold s7, s6, s5, s4, s3, s1a.
    rewrite !ticks_set_spin, !ticks_upd, ticks_cond_spin, !ticks_upd.
    apply ticks_cond_spin.
  - rewrite disk_upd. unfold s7, s6, s5, s4, s3, s1a.
    rewrite !disk_set_spin, !disk_upd, disk_cond_spin, !disk_upd.
    apply disk_cond_spin.
  - rewrite disk_log_upd. unfold s7, s6, s5, s4, s3, s1a.
    rewrite !disk_log_set_spin, !disk_log_upd, disk_log_cond_spin,
      !disk_log_upd.
    apply disk_log_cond_spin.
  - change (get (Buf j) (upd (Buf j) (set_lock true) s7)
            = Some (set_lock true b6)).
    rewrite get_upd_eq. unfold s7. by rewrite !get_set_spin, G6.
  - clear -Hb6.
    unfold b5, strip, set_lock, set_refcnt, set_valid, set_blockno, set_dev,
      set_prev, set_next in *.
    simpl in *. congruence.
  - intros x Hx. rewrite pay_upd_ne by congruence. unfold s7.
    rewrite !pay_set_spin, I7. unfold pay. rewrite G5o by congruence.
    unfold s4. rewrite get_cond_spin. fold (pay s3 (Buf x)). rewrite U5.
    unfold pay, s1a. by rewrite get_cond_spin.
  - apply (linked_ext _ (λ x, (True ∧ x ≠ j) ∨ x = j)).
    { intros x _ _. split; [done|]. intros _.
      destruct (decide (x = j)); [by right|by left]. }
    apply (linked_frame s6).
    + apply (linked_insert s5 s6 _ _ L5 j h b6 N0); try done.
      * by intros [_ ?].
      * apply (f_equal blockno) in Hb6. simpl in Hb6. by rewrite Hb6.
      * intros x Hx. apply (pay_blockno _ _ (Buf x)), I7.
    + intros q. rewrite nxt_upd_keep by done. unfold s7.
      by rewrite !nxt_set_spin.
    + intros q. rewrite prv_upd_keep by done. unfold s7.
      by rewrite !prv_set_spin.
    + intros x _.
      change (blockno <$> get (Buf x) (upd (Buf j) (set_lock true) s7)
              = blockno <$> get (Buf x) s6).
      rewrite bno_upd_keep by done. unfold s7. by rewrite !get_set_spin.
Qed.

End BioBget.

Module BioBgetCases.
Import Bio BioSpec BioChains BioLinked BioScans BioOps BioBget.

(** *** The scans in states that differ in their locks only *)

Lemma lookup_ext s s' hd dv bn : ∀ fuel b r,
  (∀ p, get p s' = get p s) →
  lookup fuel hd dv bn b s = Ok r s → lookup fuel hd dv bn b s' = Ok r s'.
Proof.
  induction fuel as [|fuel IH]; intros b r Hget; simpl; [done|].
  case_bool_decide; [by intros [= ->]|].
  unfold bind, rd. rewrite Hget. destruct (get b s) as [bf|]; [|done].
  case_bool_decide; [by intros [= ->]|]. by apply IH.
Qed.

Lemma lookup_fail_ext s s' hd dv bn : ∀ fuel b e,
  (∀ p, get p s' = get p s) →
  lookup fuel hd dv bn b s = Err e → lookup fuel hd dv bn b s' = Err e.
Proof.
  induction fuel as [|fuel IH]; intros b e Hget; simpl; [done|].
  case_bool_decide; [done|].
  unfold bind, rd. rewrite Hget. destruct (get b s) as [bf|]; [|done].
  case_bool_decide; [done|]. by apply IH.
Qed.

Lemma scan_pool_ext s s' : ∀ bs j lru,
  (∀ p, get p s' = get p s) → scan_pool s' bs j lru = scan_pool s bs j lru.
Proof.
  induction bs as [|b bs IH]; intros j lru Hget; simpl; [done|].
  rewrite Hget. by apply IH.
Qed.

(** A walk over a bucket list with any fuel: it runs out of fuel, or finds
    nothing because no buffer of the list holds the block, or finds the
    first buffer that does. *)
Lemma lookup_fwd_any s h dv bn l : ∀ a fuel,
  fwd s a ((Buf <$> l) ++ [Head h]) →
  lookup fuel (Head h) dv bn (firstp (Buf <$> l) (Head h)) s = Err OutOfFuel
  ∨ (lookup fuel (Head h) dv bn (firstp (Buf <$> l) (Head h)) s = Ok Null s
     ∧ ∀ x, x ∈ l → ¬ holds s x dv bn)
  ∨ (∃ x l1 l2,
       lookup fuel (Head h) dv bn (firstp (Buf <$> l) (Head h)) s = Ok (Buf x) s
       ∧ l = l1 ++ x :: l2 ∧ holds s x dv bn
       ∧ ∀ y, y ∈ l1 → ¬ holds s y dv bn).
Proof.
  induction l as [|x l IH]; intros a fuel Hf.
  - destruct fuel as [|fuel]; [by left|]. right. left. simpl.
    rewrite bool_decide_true by done. split; [done|].
    by intros x ?%elem_of_nil.
  - destruct fuel as [|fuel]; [by left|].
    simpl in Hf. destruct Hf as [_ Hf]. simpl firstp. simpl lookup.
    rewrite ?bool_decide_false by done.
    assert (∃ bx, get (Buf x) s = Some bx
              ∧ next bx = firstp (Buf <$> l) (Head h)) as (bx & Hbx & Hnx).
    { assert (nxt s (Buf x) = Some (firstp (Buf <$> l) (Head h))) as Hn
        by (destruct l; simpl in *; tauto).
      unfold nxt in Hn. destruct (get (Buf x) s) as [bx|]; [|done].
      exists bx. split; [done|]. simpl in Hn. congruence. }
    unfold bind. rewrite (rd_ok _ _ _ Hbx).
    destruct (decide (dev bx = dv ∧ blockno bx = bn)) as [Hm|Hm].
    + right. right. exists x, [], l. rewrite bool_decide_true by done.
      split; [done|]. split; [done|]. split; [exists bx; tauto|].
      by intros y ?%elem_of_nil.
    + rewrite bool_decide_false, Hnx by done.
      assert (¬ holds s x dv bn) as Hx.
      { intros (b & Hb & Hd & Hn). simpl in Hbx. rewrite Hbx in Hb.
        injection Hb as <-. tauto. }
      destruct (IH (Buf x) fuel Hf)
        as [Hout|[[Hnull Hnone]|(y & l1 & l2 & Hy & -> & Hhy & Hl1)]].
      * by left.
      * right. left. split; [done|].
        intros y [->|Hy]%elem_of_cons; [done|by apply Hnone].
      * right. right. exists y, (x :: l1), l2. repeat split; try done.
        intros z [->|Hz]%elem_of_cons; [done|by apply Hl1].
Qed.

Lemma lookup_ring_any s h dv bn l fuel hd :
  ring s h l → get (Head h) s = Some hd →
  lookup fuel (Head h) dv bn (next hd) s = Err OutOfFuel
  ∨ (lookup fuel (Head h) dv bn (next hd) s = Ok Null s
     ∧ ∀ x, x ∈ l → ¬ holds s x dv bn)
  ∨ (∃ x l1 l2, lookup fuel (Head h) dv bn (next hd) s = Ok (Buf x) s
       ∧ l = l1 ++ x :: l2 ∧ holds s x dv bn
       ∧ ∀ y, y ∈ l1 → ¬ holds s y dv bn).
Proof.
  intros Hr Hhd. pose proof (ring_head _ _ _ Hr) as Hn.
  unfold nxt in Hn. rewrite Hhd in Hn. injection Hn as ->.
  destruct Hr as [Hf _]. by apply (lookup_fwd_any s h dv bn l (Head h)).
Qed.

Lemma first_match_unique (P : nat → Prop) : ∀ l1 x l2 l1' x' l2',
  l1 ++ x :: l2 = l1' ++ x' :: l2' →
  P x → (∀ y, y ∈ l1 → ¬ P y) → P x' → (∀ y, y ∈ l1' → ¬ P y) → x = x'.
Proof.
  induction l1 as [|a l1 IH]; intros x l2 [|a' l1'] x' l2'; simpl.
  - by intros [= -> _].
  - intros [= -> _] Hx _ _ Hn. destruct (Hn a'); [apply elem_of_cons; by left|done].
  - intros [= -> _] _ Hn Hx' _. destruct (Hn x'); [apply elem_of_cons; by left|done].
  - intros [= -> Heq] Hx Hn Hx' Hn'. apply (IH _ _ _ _ _ Heq); try done.
    + intros y Hy. apply Hn. apply elem_of_cons; by right.
    + intros y Hy. apply Hn'. apply elem_of_cons; by right.
Qed.

(** *** The loop when no buffer is free *)

Lemma recycle_saturated s dv bn h :
  saturated s → ∀ fuel, recycle fuel dv bn h Null s = Err OutOfFuel.
Proof.
  intros Hsat. induction fuel as [|fuel IH]; [done|].
  simpl recycle. rewrite ?(bool_decide_false (Null ≠ Null)) by (intros H; by apply H).
  bstep ltac:(reflexivity). rewrite (scan_pool_saturated _ Hsat).
  rewrite ?(bool_decide_false (Null ≠ Null)) by (intros H; by apply H).
  exact IH.
Qed.

(** *** bget on a quiet cache *)

Section Bget.
Variable rs : bool.
Variables (s : state) (dv bn : Z) (hd : buf) (fuel : nat).
Hypothesis Hq : quiet s.
Hypothesis Hhd : get (Head (hash bn)) s = Some hd.

Let s1 : state :=
  set_spin (BucketLock (hash bn)) true (set_spin BcacheLock true s).

(** The first scan finds buffer [x]. *)
Lemma bget_found x bx :
  lookup fuel (Head (hash bn)) dv bn (next hd) s = Ok (Buf x) s →
  bcache_buf s !! x = Some bx →
  bget rs fuel dv bn s
  = if lock bx then Err Blocked
    else Ok (Buf x)
           (set_bcache_buf (<[x := set_lock true (incr rs bx)]> (bcache_buf s)) s).
Proof.
  intros Hlook Hbx. unfold bget.
  assert (spin (BucketLock (hash bn)) s = Some false) as Hsp
    by (apply quiet_bucket; [done|apply hash_lt]).
  bstep ltac:(by apply acquire_ok).
  bstep ltac:(apply rd_ok; rewrite get_set_spin; exact Hhd).
  bstep ltac:(apply (lookup_ext s); [intros p; apply get_set_spin|exact Hlook]).
  rewrite (bool_decide_true (Buf x ≠ Null)) by done.
  bstep ltac:(apply wr_ok; rewrite get_set_spin; simpl; by rewrite Hbx).
  bstep ltac:(apply release_ok;
              by rewrite spin_upd, spin_set_spin, decide_True, Hsp).
  rewrite upd_Buf_spin, set_spin_undo by (by rewrite spin_upd).
  assert (get (Buf x) (upd (Buf x) (incr rs) s) = Some (incr rs bx)) as Hg.
  { rewrite get_upd_eq. simpl. by rewrite Hbx. }
  destruct (lock bx) eqn:Hl.
  - apply bind_fail. by apply (acquiresleep_blocked _ _ (incr rs bx)).
  - bstep ltac:(by apply (acquiresleep_ok _ _ (incr rs bx))).
    unfold ret. by rewrite upd_Buf_upd, (upd_Buf_insert _ _ _ bx).
Qed.

(** Both scans find nothing: bget is its eviction loop, run with the
    eviction lock and the bucket lock held. *)
Lemma bget_not_found :
  lookup fuel (Head (hash bn)) dv bn (next hd) s = Ok Null s →
  bget rs fuel dv bn s = recycle fuel dv bn (hash bn) Null s1.
Proof.
  intros Hlook. unfold bget.
  assert (spin (BucketLock (hash bn)) s = Some false) as Hsp
    by (apply quiet_bucket; [done|apply hash_lt]).
  bstep ltac:(by apply acquire_ok).
  bstep ltac:(apply rd_ok; rewrite get_set_spin; exact Hhd).
  bstep ltac:(apply (lookup_ext s); [intros p; apply get_set_spin|exact Hlook]).
  rewrite (bool_decide_false (Null ≠ Null)) by (intros H; by apply H).
  bstep ltac:(apply release_ok; by rewrite spin_set_spin, decide_True, Hsp).
  rewrite set_spin_undo by done.
  bstep ltac:(apply acquire_ok; by apply quiet_bcache).
  bstep ltac:(apply acquire_ok; by rewrite spin_set_spin, decide_False).
  fold s1.
  bstep ltac:(apply rd_ok; unfold s1; rewrite !get_set_spin; exact Hhd).
  bstep ltac:(apply (lookup_ext s);
              [intros p; unfold s1; by rewrite !get_set_spin|exact Hlook]).
  by rewrite (bool_decide_false (Null ≠ Null)) by (intros H; by apply H).
Qed.

Lemma bget_no_fuel :
  lookup fuel (Head (hash bn)) dv bn (next hd) s = Err OutOfFuel →
  bget rs fuel dv bn s = Err OutOfFuel.
Proof.
  intros Hlook. unfold bget.
  assert (spin (BucketLock (hash bn)) s = Some false) as Hsp
    by (apply quiet_bucket; [done|apply hash_lt]).
  bstep ltac:(by apply acquire_ok).
  bstep ltac:(apply rd_ok; rewrite get_set_spin; exact Hhd).
  apply bind_fail. apply (lookup_fail_ext s); [|done].
  intros p. apply get_set_spin.
Qed.

End Bget.

End BioBgetCases.

Module BioWf.
Import Bio BioSpec BioChains BioLinked BioScans BioOps BioBget BioBgetCases.

(** *** The order of equal blocks on a list *)

Lemma keyof_get s' s x b' :
  keyof s' x = keyof s x → bcache_buf s' !! x = Some b' →
  ∃ b, bcache_buf s !! x = Some b ∧ key b = key b'.
Proof.
  unfold keyof. intros H Hb'. rewrite Hb' in H.
  destruct (bcache_buf s !! x) as [b|]; simpl in H; [|done].
  exists b. split; [done|]. congruence.
Qed.

Lemma key_fields b c :
  key b = key c → dev b = dev c ∧ blockno b = blockno c ∧ valid b = valid c.
Proof. unfold key. intros [= -> -> ->]. done. Qed.

Lemma first_wins_ext s s' l :
  (∀ x, x ∈ l → keyof s' x = keyof s x) → first_wins s l → first_wins s' l.
Proof.
  induction l as [|x l IH]; intros Hk; simpl; [done|]. intros [Hx Hl].
  split.
  - intros y bx' c' Hy Hbx' Hc' Hd Hn.
    destruct (keyof_get s' s x bx') as (bx & Hbx & Kx);
      [apply Hk; apply elem_of_cons; by left|done|].
    destruct (keyof_get s' s y c') as (c & Hc & Kc);
      [apply Hk; apply elem_of_cons; by right|done|].
    apply key_fields in Kx as (Kx1 & Kx2 & Kx3).
    apply key_fields in Kc as (Kc1 & Kc2 & Kc3).
    destruct (Hx y bx c Hy Hbx Hc) as (U1 & U2 & U3); [congruence..|].
    unfold unbound. repeat split; congruence.
  - apply IH; [|done]. intros y Hy. apply Hk. apply elem_of_cons; by right.
Qed.

Lemma first_wins_filter s (P : nat → Prop) `{∀ x, Decision (P x)} l :
  first_wins s l → first_wins s (filter P l).
Proof.
  induction l as [|x l IH]; simpl; [done|]. intros [Hx Hl].
  rewrite filter_cons. case_decide; [|by apply IH]. simpl. split; [|by apply IH].
  intros y bx c [_ Hy]%list_elem_of_filter. by apply Hx.
Qed.

(** The first buffer of a list that holds a block may become valid. *)
Lemma first_wins_validate s s' dv bn l1 x l2 :
  first_wins s (l1 ++ x :: l2) → x ∉ l1 → x ∉ l2 →
  holds s x dv bn → (∀ y, y ∈ l1 → ¬ holds s y dv bn) →
  holds s' x dv bn → (∀ y, y ≠ x → keyof s' y = keyof s y) →
  first_wins s' (l1 ++ x :: l2).
Proof.
  intros Hfw Hx1 Hx2 (bx & Hbx & Hdx & Hnx) Hl1 (bx' & Hbx' & Hdx' & Hnx') Hk.
  induction l1 as [|a l1 IH]; simpl in *.
  - destruct Hfw as [Hx Hl]. split.
    + intros y bx0 c' Hy Hbx0 Hc' Hd Hn.
      assert (y ≠ x) as Hyx by (by intros ->).
      destruct (keyof_get s' s y c' (Hk y Hyx) Hc') as (c & Hc & Kc).
      apply key_fields in Kc as (Kc1 & Kc2 & Kc3).
      rewrite Hbx' in Hbx0. injection Hbx0 as <-.
      destruct (Hx y bx c Hy Hbx Hc) as (U1 & U2 & U3); [congruence..|].
      unfold unbound. repeat split; congruence.
    + apply (first_wins_ext s); [|done]. intros y Hy. apply Hk. by intros ->.
  - destruct Hfw as [Ha Hl].
    assert (a ≠ x) as Hax.
    { intros ->. apply Hx1. apply elem_of_cons; by left. }
    split.
    + intros y ba' c' Hy Hba' Hc' Hd Hn.
      destruct (keyof_get s' s a ba' (Hk a Hax) Hba') as (ba & Hba & Ka).
      apply key_fields in Ka as (Ka1 & Ka2 & Ka3).
      destruct (decide (y = x)) as [->|Hyx].
      * rewrite Hbx' in Hc'. injection Hc' as <-.
        destruct (Hl1 a); [apply elem_of_cons; by left|].
        exists ba. split; [done|]. split; congruence.
      * destruct (keyof_get s' s y c' (Hk y Hyx) Hc') as (c & Hc & Kc).
        apply key_fields in Kc as (Kc1 & Kc2 & Kc3).
        destruct (Ha y ba c Hy Hba Hc) as (U1 & U2 & U3); [congruence..|].
        unfold unbound. repeat split; congruence.
    + apply IH; [done| |].
      * intros Hin. apply Hx1. apply elem_of_cons; by right.
      * intros y Hy. apply Hl1. apply elem_of_cons; by right.
Qed.

(** *** Frames of the invariant *)

Lemma get_set_disk v s p : get p (set_disk v s) = get p s.
Proof. by destruct p. Qed.
Lemma get_set_disk_log v s p : get p (set_disk_log v s) = get p s.
Proof. by destruct p. Qed.
Lemma get_set_ticks v s p : get p (set_ticks v s) = get p s.
Proof. by destruct p. Qed.

Lemma linked_same s s' D bk :
  (∀ p, get p s' = get p s) → linked s D bk → linked s' D bk.
Proof.
  intros Hg Hlk. apply (linked_frame s); [done| | |].
  - intros q. unfold nxt. by rewrite Hg.
  - intros q. unfold prv. by rewrite Hg.
  - intros j _. apply (f_equal (fmap blockno)). apply (Hg (Buf j)).
Qed.

Lemma keyof_same s s' x : (∀ p, get p s' = get p s) → keyof s' x = keyof s x.
Proof. intros Hg. unfold keyof. apply (f_equal (fmap key)), (Hg (Buf x)). Qed.

(** States with the same memory and locks. *)
Lemma wf_same s s' :
  (∀ p, get p s' = get p s) → bcache_lock s' = bcache_lock s →
  bucket s' = bucket s → 0 ≤ ticks s' → wf s → wf s'.
Proof.
  intros Hg Hl Hb Ht ((Hq1 & Hq2 & Hq3) & _ & bk & Hlk & Hfw).
  split; [|split; [done|]].
  - split; [congruence|]. split; [congruence|]. by rewrite Hb.
  - exists bk. split; [by apply (linked_same s)|].
    intros h Hh. apply (first_wins_ext s); [|by apply Hfw].
    intros x _. by apply keyof_same.
Qed.

(** One buffer changes, keeping its pointers and its key. *)
Lemma wf_update s j b f :
  wf s → bcache_buf s !! j = Some b →
  next (f b) = next b → prev (f b) = prev b → key (f b) = key b →
  wf (set_bcache_buf (<[j := f b]> (bcache_buf s)) s).
Proof.
  intros (Hq & Ht & bk & Hlk & Hfw) Hb Hn Hp Hk.
  assert (∀ q, get q (set_bcache_buf (<[j := f b]> (bcache_buf s)) s)
               = if decide (q = Buf j) then Some (f b) else get q s) as Hg.
  { intros q. rewrite <- (upd_Buf_insert _ _ _ _ Hb), get_upd.
    case_decide as Hq'; [|done]. subst q. simpl. by rewrite Hb. }
  assert (∀ x, bcache_buf (set_bcache_buf (<[j := f b]> (bcache_buf s)) s) !! x
               = if decide (Buf x = Buf j) then Some (f b)
                 else bcache_buf s !! x) as Hg'
    by (intros x; apply (Hg (Buf x))).
  split; [done|]. split; [done|]. exists bk. split.
  - apply (linked_frame s); [done| | |].
    + intros q. unfold nxt. rewrite Hg. case_decide as Hq'; [|done].
      subst q. simpl. rewrite Hb. simpl. by rewrite Hn.
    + intros q. unfold prv. rewrite Hg. case_decide as Hq'; [|done].
      subst q. simpl. rewrite Hb. simpl. by rewrite Hp.
    + intros x _. rewrite Hg'.
      case_decide as Hx; [|done]. injection Hx as ->. rewrite Hb. simpl.
      apply key_fields in Hk as (_ & -> & _). done.
  - intros h Hh. apply (first_wins_ext s); [|by apply Hfw]. intros x _.
    unfold keyof. rewrite Hg'.
    case_decide as Hx; [|done]. injection Hx as ->. rewrite Hb. simpl.
    by rewrite Hk.
Qed.

(** A bucket list is no longer than the pool. *)
Lemma linked_length s D bk h :
  linked s D bk → (h < NBUCKET)%nat →
  (length (bk h) ≤ length (bcache_buf s))%nat.
Proof.
  intros [_ Hnd Hhome _] Hh.
  pose proof (submseteq_length (bk h) (seq 0 (length (bcache_buf s)))) as Hle.
  rewrite length_seq in Hle. apply Hle.
  apply NoDup_submseteq; [by apply Hnd|].
  intros x Hx. destruct (Hhome h x Hh Hx) as (_ & b & Hb & _).
  apply elem_of_seq. split; [lia|]. simpl. by eapply lookup_lt_Some.
Qed.

Lemma pay_keyof s' s x :
  pay s' (Buf x) = pay s (Buf x) → keyof s' x = keyof s x.
Proof.
  unfold pay, keyof. simpl.
  destruct (bcache_buf s' !! x) as [b'|], (bcache_buf s !! x) as [b|];
    simpl; try done.
  intros [=]. unfold key. congruence.
Qed.

Lemma holds_keyof s' s x dv bn :
  keyof s' x = keyof s x → holds s' x dv bn → holds s x dv bn.
Proof.
  intros Hk (b' & Hb' & Hd & Hn).
  destruct (keyof_get s' s x b' Hk Hb') as (b & Hb & Kb).
  apply key_fields in Kb as (K1 & K2 & _). exists b. split; [done|].
  split; congruence.
Qed.

(** *** What a bget that returns has done *)

Lemma bget_outcome rs s dv bn fuel bk :
  quiet s → 0 ≤ ticks s → linked s (λ _, True) bk →
  (∀ k, (k < NBUCKET)%nat → first_wins s (bk k)) →
  (bget rs fuel dv bn s = Err OutOfFuel
   ∧ ((fuel ≤ length (bcache_buf s))%nat
      ∨ (saturated s ∧ ∀ y, ¬ holds s y dv bn)))
  ∨ (bget rs fuel dv bn s = Err Blocked
     ∧ ∃ j b, bcache_buf s !! j = Some b ∧ lock b = true
         ∧ (holds s j dv bn ∨ ((∀ y, ¬ holds s y dv bn) ∧ refcnt b = 0)))
  ∨ ∃ x b1 s1 bk1 l1 l2,
      bget rs fuel dv bn s = Ok (Buf x) s1
      ∧ quiet s1 ∧ ticks s1 = ticks s ∧ disk s1 = disk s
      ∧ disk_log s1 = disk_log s
      ∧ bcache_buf s1 !! x = Some b1
      ∧ dev b1 = dv ∧ blockno b1 = bn ∧ lock b1 = true
      ∧ linked s1 (λ _, True) bk1
      ∧ (∀ k, (k < NBUCKET)%nat → first_wins s1 (bk1 k))
      ∧ bk1 (hash bn) = l1 ++ x :: l2
      ∧ (∀ y, y ∈ l1 → ¬ holds s1 y dv bn)
      ∧ ((∃ bx, bcache_buf s !! x = Some bx ∧ dev bx = dv ∧ blockno bx = bn
            ∧ lock bx = false ∧ s1 = hit_state rs x bx s ∧ bk1 = bk)
         ∨ ((∀ y, ¬ holds s y dv bn)
            ∧ scan_pool s (bcache_buf s) 0 Null = Buf x
            ∧ l1 = []
            ∧ ∃ b, bcache_buf s !! x = Some b ∧ refcnt b = 0 ∧ lock b = false
                ∧ strip b1 = strip (set_lock true (set_refcnt 1 (set_valid 0
                                      (set_blockno bn (set_dev dv b)))))
                ∧ ∀ y, y ≠ x → pay s1 (Buf y) = pay s (Buf y))).
Proof.
  intros Hq Ht Hlk Hfw.
  pose proof (hash_lt bn) as Hh. set (h := hash bn) in *.
  pose proof (lk_ring _ _ _ Hlk h Hh) as Hring.
  destruct (ring_node_get _ _ _ (Head h) Hring) as [hd Hhd];
    [apply elem_of_cons; by left|].
  destruct (lookup_ring_any s h dv bn _ fuel hd Hring Hhd)
    as [Hout|[[Hnull Hnone]|(x & l1 & l2 & Hlook & Hsplit & Hx & Hl1)]].
  - left. split; [by apply (bget_no_fuel rs s dv bn hd fuel)|]. left.
    destruct (decide (length (bk h) < fuel)%nat) as [Hlt|Hge].
    + destruct (lookup_ring s h dv bn _ fuel hd Hring Hlt Hhd) as (r & Hr & _).
      congruence.
    + pose proof (linked_length _ _ _ h Hlk Hh). lia.
  - (* both scans miss *)
    rewrite (bget_not_found rs s dv bn hd fuel Hq Hhd Hnull).
    destruct fuel as [|fuel]; [done|].
    set (s1 := set_spin (BucketLock (hash bn)) true (set_spin BcacheLock true s)).
    assert (∀ p, get p s1 = get p s) as Hg1
      by (intros p; unfold s1; by rewrite !get_set_spin).
    assert (bcache_buf s1 = bcache_buf s) as Hp1
      by (unfold s1; by rewrite !pool_set_spin).
    assert (∀ y, ¬ holds s y dv bn) as Hnohold.
    { intros y (b & Hb & Hd & Hn).
      apply (Hnone y); [|by exists b]. unfold h. rewrite <- Hn.
      by apply (lk_all _ _ _ Hlk). }
    destruct (scan_pool_lru s) as [[Hscan Hsat]|(j & b & Hscan & _ & Hb & Hr & _)].
    { left. split.
      - apply recycle_saturated. intros j b Hb. rewrite Hp1 in Hb.
        apply (Hsat j b); [|done]. by eapply lookup_lt_Some.
      - right. split; [|done]. intros j b Hb.
        apply (Hsat j b); [|done]. by eapply lookup_lt_Some. }
    destruct (recycle_ok s1 dv bn bk j b fuel)
      as (s2 & b2 & Hrun & Hs1 & Hs2 & Hlen & Ht2 & Hd2 & Hdl2 & Hb2 & Hstrip
            & Hpay & Hlk2).
    { unfold s1. rewrite spin_set_spin, decide_False, spin_set_spin,
        decide_True by done. by rewrite quiet_bcache. }
    { intros k Hk. unfold s1. rewrite spin_set_spin. case_decide as Hkh.
      - injection Hkh as ->. rewrite spin_set_spin, decide_False by done.
        rewrite quiet_bucket by done. by rewrite bool_decide_true.
      - rewrite spin_set_spin, decide_False by done.
        rewrite quiet_bucket by done. rewrite bool_decide_false; [done|].
        intros ->. by apply Hkh. }
    { by apply (linked_same s). }
    { rewrite Hp1, <- Hscan. by apply scan_pool_ext. }
    { by rewrite Hp1. }
    { done. }
    rewrite Hrun. destruct (lock b) eqn:Hl.
    { right; left. split; [done|]. exists j, b. auto. }
    right. right.
    assert (∀ y, y ≠ j → pay s2 (Buf y) = pay s (Buf y)) as Hpay'.
    { intros y Hy. rewrite Hpay by done. unfold pay. by rewrite Hg1. }
    apply (f_equal dev) in Hstrip as Hdev. apply (f_equal blockno) in Hstrip as Hbn.
    apply (f_equal lock) in Hstrip as Hlock. simpl in Hdev, Hbn, Hlock.
    exists j, b2, s2,
      (λ k, if decide (k = hash bn) then j :: filter (λ x, x ≠ j) (bk k)
            else filter (λ x, x ≠ j) (bk k)),
      [], (filter (λ x, x ≠ j) (bk h)).
    split; [done|]. split.
    { apply quiet_intro; [done| |done]. rewrite Hlen. unfold s1.
      rewrite !length_bucket_set_spin. by destruct Hq as (_ & ? & _). }
    split; [unfold s1 in Ht2; by rewrite !ticks_set_spin in Ht2|].
    split; [unfold s1 in Hd2; by rewrite !disk_set_spin in Hd2|].
    split; [unfold s1 in Hdl2; by rewrite !disk_log_set_spin in Hdl2|].
    split; [done|]. split; [done|]. split; [done|]. split; [done|].
    split; [done|]. split.
    { intros k Hk.
      assert (first_wins s2 (filter (λ x, x ≠ j) (bk k))) as Hrest.
      { apply (first_wins_ext s).
        - intros y [Hy _]%list_elem_of_filter. by apply pay_keyof, Hpay'.
        - apply first_wins_filter. by apply Hfw. }
      case_decide; [|done]. subst k. simpl. split; [|done].
      intros y bx c [Hyj Hy]%list_elem_of_filter Hbx Hc Hdc Hnc.
      rewrite Hb2 in Hbx. injection Hbx as <-.
      destruct (Hnohold y). apply (holds_keyof s2).
      - by apply pay_keyof, Hpay'.
      - exists c. split; [done|]. split; congruence. }
    split; [by rewrite decide_True|]. split; [by intros y ?%elem_of_nil|].
    right. split; [done|]. split; [done|]. split; [done|].
    exists b. split; [done|]. split; [done|]. split; [done|]. by split.
  - (* a hit *)
    destruct Hx as (bx & Hbx & Hdx & Hnx).
    rewrite (bget_found rs s dv bn hd fuel Hq Hhd x bx Hlook Hbx).
    destruct (lock bx) eqn:Hl.
    { right; left. split; [done|]. exists x, bx. split; [done|]. split; [done|].
      left. by exists bx. }
    right. right.
    assert (wf (hit_state rs x bx s)) as (Hq1 & _ & _).
    { apply (wf_update s x bx (λ b, set_lock true (incr rs b))); try done.
      split; [done|]. split; [done|]. by exists bk. }
    assert (∀ q, get q (hit_state rs x bx s)
               = if decide (q = Buf x) then Some (set_lock true (incr rs bx))
                 else get q s) as Hg.
    { intros q. unfold hit_state.
      rewrite <- (upd_Buf_insert _ (λ b, set_lock true (incr rs b)) _ _ Hbx),
        get_upd.
      case_decide as Hq'; [|done]. subst q. simpl. by rewrite Hbx. }
    assert (∀ y, keyof (hit_state rs x bx s) y = keyof s y) as Hkey.
    { intros y. unfold keyof.
      change (bcache_buf (hit_state rs x bx s) !! y)
        with (get (Buf y) (hit_state rs x bx s)).
      rewrite Hg. case_decide as Hy; [|done]. injection Hy as ->.
      by rewrite Hbx. }
    exists x, (set_lock true (incr rs bx)), (hit_state rs x bx s), bk, l1, l2.
    split; [done|]. split; [done|]. split; [done|]. split; [done|].
    split; [done|]. split.
    { change (get (Buf x) (hit_state rs x bx s)
              = Some (set_lock true (incr rs bx))).
      by rewrite Hg, decide_True. }
    split; [done|]. split; [done|]. split; [done|]. split.
    { apply (linked_frame s); [done| | |].
      - intros q. unfold nxt. rewrite Hg. case_decide as Hq'; [|done].
        subst q. simpl. by rewrite Hbx.
      - intros q. unfold prv. rewrite Hg. case_decide as Hq'; [|done].
        subst q. simpl. by rewrite Hbx.
      - intros y _. pose proof (Hkey y) as Hk. unfold keyof in Hk.
        destruct (bcache_buf (hit_state rs x bx s) !! y) as [c'|],
          (bcache_buf s !! y) as [c|]; simpl in *; try done.
        unfold key in Hk. congruence. }
    split.
    { intros k Hk. apply (first_wins_ext s); [|by apply Hfw]. intros y _.
      apply Hkey. }
    split; [done|]. split.
    { intros y Hy Hhold. apply (Hl1 y Hy). by apply (holds_keyof _ s) in Hhold. }
    left. exists bx. by repeat split.
Qed.

End BioWf.

Module BioRun.
Import Bio BioSpec BioChains BioLinked BioScans BioOps BioBget BioBgetCases BioWf.

(** *** bread *)

Lemma virtio_read_ok x s1 b1 :
  bcache_buf s1 !! x = Some b1 →
  virtio_disk_rw (Buf x) false s1
  = Ok tt (upd (Buf x) (set_data (disk s1 (dev b1) (blockno b1)))
             (set_disk_log
                (disk_log s1 ++ [mkTransfer false (dev b1) (blockno b1)]) s1)).
Proof.
  intros Hb1. unfold virtio_disk_rw.
  bstep ltac:(by apply rd_ok).
  bstep ltac:(reflexivity).
  bstep ltac:(reflexivity).
  apply wr_ok. rewrite get_set_disk_log. simpl. by rewrite Hb1.
Qed.

Lemma bread_after rs fuel dv bn s x s1 b1 :
  bget rs fuel dv bn s = Ok (Buf x) s1 → bcache_buf s1 !! x = Some b1 →
  bread rs fuel dv bn s = Ok (Buf x) (read_state x b1 s1).
Proof.
  intros Hget Hb1. unfold bread, read_state.
  bstep ltac:(exact Hget).
  bstep ltac:(by apply rd_ok).
  case_bool_decide as Hv; simpl when; [|done].
  bstep ltac:(
    bstep ltac:(by apply virtio_read_ok);
    apply wr_ok, is_Some_get_upd; rewrite get_set_disk_log; simpl;
    by rewrite Hb1).
  unfold ret. rewrite upd_Buf_upd.
  by rewrite (upd_Buf_insert _ _ _ b1).
Qed.

Lemma read_state_get x b1 s1 q :
  bcache_buf s1 !! x = Some b1 → valid b1 = 0 →
  get q (read_state x b1 s1)
  = if decide (q = Buf x)
    then Some (set_valid 1 (set_data (disk s1 (dev b1) (blockno b1)) b1))
    else get q s1.
Proof.
  intros Hb1 Hv. unfold read_state. rewrite bool_decide_true by done.
  set (f := λ b, set_valid 1 (set_data (disk s1 (dev b1) (blockno b1)) b)).
  change (get q (set_bcache_buf (<[x := f b1]> (bcache_buf (set_disk_log
            (disk_log s1 ++ [mkTransfer false (dev b1) (blockno b1)]) s1)))
            (set_disk_log (disk_log s1 ++ [mkTransfer false (dev b1) (blockno b1)]) s1))
          = if decide (q = Buf x) then Some (f b1) else get q s1).
  rewrite <- (upd_Buf_insert _ f _ b1) by done.
  rewrite get_upd, get_set_disk_log. case_decide as Hq; [|done]. subst q.
  simpl. by rewrite Hb1.
Qed.

(** bread keeps the invariant: the buffer it validates is the first of its
    list that holds the block. *)
Lemma read_state_wf s1 bk1 x b1 l1 l2 :
  quiet s1 → 0 ≤ ticks s1 → linked s1 (λ _, True) bk1 →
  (∀ k, (k < NBUCKET)%nat → first_wins s1 (bk1 k)) →
  bcache_buf s1 !! x = Some b1 →
  bk1 (hash (blockno b1)) = l1 ++ x :: l2 →
  (∀ y, y ∈ l1 → ¬ holds s1 y (dev b1) (blockno b1)) →
  wf (read_state x b1 s1).
Proof.
  intros Hq Ht Hlk Hfw Hb1 Hsplit Hl1.
  destruct (decide (valid b1 = 0)) as [Hv|Hv].
  2:{ unfold read_state. rewrite bool_decide_false by done.
      split; [done|]. split; [done|]. by exists bk1. }
  pose proof (read_state_get x b1 s1) as Hg.
  assert (∀ y, y ≠ x → keyof (read_state x b1 s1) y = keyof s1 y) as Hkey.
  { intros y Hy. unfold keyof.
    change (bcache_buf (read_state x b1 s1) !! y)
      with (get (Buf y) (read_state x b1 s1)).
    rewrite Hg by done. rewrite decide_False; [done|congruence]. }
  assert (bcache_buf (read_state x b1 s1) !! x
          = Some (set_valid 1 (set_data (disk s1 (dev b1) (blockno b1)) b1)))
    as Hbx.
  { change (bcache_buf (read_state x b1 s1) !! x)
      with (get (Buf x) (read_state x b1 s1)).
    rewrite Hg by done. by rewrite decide_True. }
  pose proof (hash_lt (blockno b1)) as Hh.
  pose proof (lk_nodup _ _ _ Hlk _ Hh) as Hnd. rewrite Hsplit in Hnd.
  apply NoDup_app in Hnd as (_ & Hd & Hnd2).
  apply NoDup_cons in Hnd2 as [Hx2 _].
  assert (x ∉ l1) as Hx1.
  { intros Hin. apply (Hd _ Hin). apply elem_of_cons; by left. }
  split; [|split].
  - unfold read_state. rewrite bool_decide_true by done. exact Hq.
  - unfold read_state. rewrite bool_decide_true by done. exact Ht.
  - exists bk1. split.
    + apply (linked_frame s1); [done| | |].
      * intros q. unfold nxt. rewrite Hg by done. case_decide as Hq'; [|done].
        subst q. simpl. by rewrite Hb1.
      * intros q. unfold prv. rewrite Hg by done. case_decide as Hq'; [|done].
        subst q. simpl. by rewrite Hb1.
      * intros y _.
        change (blockno <$> get (Buf y) (read_state x b1 s1)
                = blockno <$> get (Buf y) s1).
        rewrite Hg by done. case_decide as Hy; [|done]. injection Hy as ->.
        simpl. by rewrite Hb1.
    + intros k Hk. destruct (decide (k = hash (blockno b1))) as [->|Hne].
      * rewrite Hsplit.
        apply (first_wins_validate s1 _ (dev b1) (blockno b1)); try done.
        -- rewrite <- Hsplit. by apply Hfw.
        -- by exists b1.
        -- eexists. split; [exact Hbx|done].
      * apply (first_wins_ext s1); [|by apply Hfw]. intros y Hy.
        apply Hkey. intros ->. apply Hne.
        apply (linked_home s1 _ bk1 Hlk k _ x); try done.
        rewrite Hsplit. apply elem_of_app; right. apply elem_of_cons; by left.
Qed.

Lemma bread_wf rs fuel dv bn s r s' :
  wf s → bread rs fuel dv bn s = Ok r s' → wf s'.
Proof.
  intros (Hq & Ht & bk & Hlk & Hfw) Hrun.
  destruct (bget_outcome rs s dv bn fuel bk Hq Ht Hlk Hfw)
    as [[Hout _]|[[Hblk _]|(x & b1 & s1 & bk1 & l1 & l2 & Hget & Hq1 & Ht1 & _ & _
                      & Hb1 & Hd1 & Hn1 & _ & Hlk1 & Hfw1 & Hsplit & Hl1 & _)]].
  - unfold bread in Hrun. by rewrite (bind_fail _ _ _ _ Hout) in Hrun.
  - unfold bread in Hrun. by rewrite (bind_fail _ _ _ _ Hblk) in Hrun.
  - rewrite (bread_after _ _ _ _ _ _ _ _ Hget Hb1) in Hrun.
    injection Hrun as _ <-. subst dv bn.
    apply (read_state_wf s1 bk1 x b1 l1 l2); try done. lia.
Qed.

(** *** Every call keeps the invariant *)

Lemma rd_none p s : get p s = None → rd p s = Err Fault.
Proof. intros H. unfold rd. by rewrite H. Qed.

Lemma run_wf rs fuel o s s' : wf s → run rs fuel o s = Ok tt s' → wf s'.
Proof.
  intros Hwf Hrun. pose proof Hwf as (Hq & Ht & _).
  destruct o as [dv bn|j|j|j|j|]; simpl in Hrun.
  - apply bind_inv in Hrun as (r & s1 & Hrun & Hret).
    injection Hret as <-. by apply (bread_wf rs fuel dv bn s r).
  - destruct (bcache_buf s !! j) as [b|] eqn:Hb.
    + destruct (lock b) eqn:Hl.
      * rewrite (bwrite_ok s j b Hb Hl) in Hrun. injection Hrun as <-.
        by apply (wf_same s).
      * unfold bwrite, holdingsleep in Hrun.
        erewrite bind_step in Hrun;
          [|bstep ltac:(by apply rd_ok); reflexivity|reflexivity].
        by rewrite Hl in Hrun.
    + unfold bwrite, holdingsleep in Hrun.
      erewrite bind_fail in Hrun; [done|].
      apply bind_fail. by apply rd_none.
  - destruct (bcache_buf s !! j) as [b|] eqn:Hb.
    + destruct (lock b) eqn:Hl.
      * rewrite (brelse_ok rs s j b Hq Hb Hl) in Hrun. injection Hrun as <-.
        by apply (wf_update s j b
                    (λ b, set_lu_time (ticks s) (decr rs (set_lock false b)))).
      * by rewrite (brelse_not_held rs s j b Hb Hl) in Hrun.
    + unfold brelse, holdingsleep in Hrun.
      erewrite bind_fail in Hrun; [done|].
      apply bind_fail. by apply rd_none.
  - destruct (bcache_buf s !! j) as [b|] eqn:Hb.
    + rewrite (bpin_ok rs s j b Hq Hb) in Hrun. injection Hrun as <-.
      by apply (wf_update s j b (incr rs)).
    + unfold bpin in Hrun. erewrite bind_fail in Hrun; [done|].
      by apply rd_none.
  - destruct (bcache_buf s !! j) as [b|] eqn:Hb.
    + rewrite (bunpin_ok rs s j b Hq Hb) in Hrun. injection Hrun as <-.
      by apply (wf_update s j b (decr rs)).
    + unfold bunpin in Hrun. erewrite bind_fail in Hrun; [done|].
      by apply rd_none.
  - injection Hrun as <-. apply (wf_same s); try done. simpl. lia.
Qed.

End BioRun.

Module BioBinit.
Import Bio BioSpec BioChains BioLinked BioScans BioOps BioBget BioBgetCases
  BioWf BioRun.

Ltac nxt_norm :=
  repeat first [rewrite nxt_upd_keep by done | rewrite nxt_upd_ne by done].
Ltac prv_norm :=
  repeat first [rewrite prv_upd_keep by done | rewrite prv_upd_ne by done].

(** *** binit *)

Lemma binit_buckets nbuf dsk :
  for_each (seq 0 NBUCKET) binit_bucket (set_spin BcacheLock false (boot nbuf dsk))
  = Ok tt (empty_buckets nbuf dsk).
Proof. reflexivity. Qed.

Lemma empty_buckets_linked nbuf dsk :
  linked (empty_buckets nbuf dsk) (λ _, False) (λ _, []).
Proof.
  split; try done.
  - intros h Hh. unfold NBUCKET in Hh.
    do 13 (destruct h as [|h]; [by repeat split|]). lia.
  - intros h _. constructor.
  - intros h j _ ?%elem_of_nil. done.
Qed.

Lemma pay_Some s p c :
  pay s p = Some c → ∃ b, get p s = Some b ∧ strip b = c.
Proof.
  unfold pay. destruct (get p s) as [b|]; simpl; [|done].
  intros [= <-]. by exists b.
Qed.

(** One turn of the second loop links buffer [j] at the head of bucket 0. *)
Lemma binit_buf_ok s bk j b :
  linked s (λ x, (x < j)%nat) bk → bcache_buf s !! j = Some b →
  blockno b = 0 →
  ∃ s', binit_buf j s = Ok tt s'
    ∧ linked s' (λ x, (x < S j)%nat)
        (λ k, if decide (k = 0%nat) then j :: bk k else bk k)
    ∧ pay s' (Buf j) = Some (strip (set_lu_time (-1) (set_lock false b)))
    ∧ (∀ q, q ≠ Buf j → pay s' q = pay s q)
    ∧ (∀ l, spin l s' = spin l s)
    ∧ ticks s' = ticks s ∧ disk s' = disk s ∧ disk_log s' = disk_log s
    ∧ length (bucket s') = length (bucket s)
    ∧ length (bcache_buf s') = length (bcache_buf s).
Proof.
  intros Hlk Hb Hbn.
  assert (0 < NBUCKET)%nat as H0 by (unfold NBUCKET; lia).
  pose proof (lk_ring _ _ _ Hlk 0%nat H0) as Hr.
  set (N0 := firstp (Buf <$> bk 0%nat) (Head 0)).
  pose proof (ring_head _ _ _ Hr) as HN0. fold N0 in HN0.
  assert (∃ hd, get (Head 0) s = Some hd ∧ next hd = N0) as (hd & Hhd & Hhdn).
  { unfold nxt in HN0. destruct (get (Head 0) s) as [hd|]; [|done].
    exists hd. split; [done|]. simpl in HN0. congruence. }
  assert (j ∉ bk 0%nat) as Hj.
  { intros Hin. destruct (lk_home _ _ _ Hlk 0%nat j H0 Hin) as [? _]. lia. }
  assert (N0 ≠ Buf j) as HN0j by (by apply firstp_ne_buf).
  assert (is_Some (get N0 s)) as HN0get
    by (apply (ring_node_get _ _ _ _ Hr), firstp_node).
  set (B := Buf j).
  set (s' := upd B (set_lu_time (-1))
               (upd (Head 0) (set_next B)
                  (upd N0 (set_prev B)
                     (upd B (set_lock false)
                        (upd B (set_prev (Head 0))
                           (upd B (set_next N0) s)))))).
  assert (pay s' B = Some (strip (set_lu_time (-1) (set_lock false b)))) as HpB.
  { unfold pay, s'. rewrite get_upd_eq, get_upd_ne, get_upd_ne by done.
    rewrite !get_upd_eq. simpl. rewrite Hb. done. }
  assert (∀ q, q ≠ B → pay s' q = pay s q) as Hpo.
  { intros q Hq. unfold s'. rewrite pay_upd_ne by done.
    rewrite !pay_upd_keep by done. by rewrite !pay_upd_ne. }
  exists s'. split; [|split; [|split; [done|split; [done|split]]]].
  - unfold binit_buf, initsleeplock. cbv zeta. fold B.
    bstep ltac:(by apply rd_ok). rewrite Hhdn.
    bstep ltac:(apply wr_ok; simpl; by rewrite Hb).
    bstep ltac:(apply wr_ok, is_Some_get_upd; simpl; by rewrite Hb).
    bstep ltac:(apply wr_ok; do 2 apply is_Some_get_upd; simpl; by rewrite Hb).
    bstep ltac:(apply rd_ok; rewrite !get_upd_ne by done; exact Hhd).
    rewrite Hhdn.
    bstep ltac:(apply wr_ok; by do 3 apply is_Some_get_upd).
    bstep ltac:(apply wr_ok; do 4 apply is_Some_get_upd; by rewrite Hhd).
    apply wr_ok. do 5 apply is_Some_get_upd. simpl. by rewrite Hb.
  - apply (linked_ext _ (λ x, (x < j)%nat ∨ x = j)).
    { intros x _ _. lia. }
    destruct (pay_Some _ _ _ HpB) as (b' & Hb' & Hstrip).
    apply (linked_insert s s' _ bk Hlk j 0%nat b' N0); try done.
    + lia.
    + apply (f_equal blockno) in Hstrip. simpl in Hstrip.
      by rewrite Hstrip, Hbn.
    + unfold s'. nxt_norm. apply nxt_upd_set. by do 4 apply is_Some_get_upd.
    + unfold s'. nxt_norm. apply nxt_upd_set. simpl. by rewrite Hb.
    + intros q Hq1 Hq2. unfold s'. by nxt_norm.
    + unfold s'. prv_norm. apply prv_upd_set, is_Some_get_upd.
      simpl. by rewrite Hb.
    + unfold s'. prv_norm. apply prv_upd_set. by do 3 apply is_Some_get_upd.
    + intros q Hq1 Hq2. unfold s'. by prv_norm.
    + intros x Hx. apply (pay_blockno _ _ (Buf x)), Hpo. unfold B. congruence.
  - intros l. unfold s'. by rewrite !spin_upd.
  - unfold s'. rewrite !ticks_upd, !disk_upd, !disk_log_upd,
      !length_bucket_upd, !length_pool_upd. done.
Qed.

Lemma strip_fresh b :
  strip b = strip zero_buf →
  strip (set_lu_time (-1) (set_lock false b)) = strip fresh_buf.
Proof.
  intros H. change (set_lu_time (-1) (set_lock false (strip b)) = strip fresh_buf).
  by rewrite H.
Qed.

Lemma binit_loop : ∀ k a s bk,
  linked s (λ x, (x < a)%nat) bk →
  (∀ x, (a ≤ x < a + k)%nat → pay s (Buf x) = Some (strip zero_buf)) →
  ∃ s' bk', for_each (seq a k) binit_buf s = Ok tt s'
    ∧ linked s' (λ x, (x < a + k)%nat) bk'
    ∧ (∀ x, (a ≤ x < a + k)%nat → pay s' (Buf x) = Some (strip fresh_buf))
    ∧ (∀ q, (∀ x, (a ≤ x < a + k)%nat → q ≠ Buf x) → pay s' q = pay s q)
    ∧ (∀ l, spin l s' = spin l s)
    ∧ ticks s' = ticks s ∧ disk s' = disk s ∧ disk_log s' = disk_log s
    ∧ length (bucket s') = length (bucket s)
    ∧ length (bcache_buf s') = length (bcache_buf s).
Proof.
  induction k as [|k IH]; intros a s bk Hlk Hzero.
  - exists s, bk. split; [done|]. split.
    { eapply linked_ext; [|exact Hlk]. intros x b _. cbv beta. lia. }
    split; [intros x Hx; lia|]. split; [done|]. by repeat split.
  - destruct (pay_Some _ _ _ (Hzero a ltac:(lia))) as (b & Hb & Hsb).
    assert (blockno b = 0) as Hbn.
    { apply (f_equal blockno) in Hsb. exact Hsb. }
    destruct (binit_buf_ok s bk a b Hlk Hb Hbn)
      as (s1 & Hrun1 & Hlk1 & Hpa & Hpo & Hsp1 & Ht1 & Hd1 & Hdl1 & Hlb1 & Hlp1).
    destruct (IH (S a) s1 _ Hlk1)
      as (s' & bk' & Hrun & Hlk' & Hfresh & Hframe & Hsp & Ht & Hd & Hdl
            & Hlb & Hlp).
    { intros x Hx. rewrite Hpo; [apply Hzero; lia|]. intros [= ->]. lia. }
    exists s', bk'. split.
    { simpl. bstep ltac:(exact Hrun1). exact Hrun. }
    split.
    { eapply linked_ext; [|exact Hlk']. intros x c _. cbv beta. lia. }
    split.
    { intros x Hx. destruct (decide (x = a)) as [->|Hne].
      - rewrite Hframe, Hpa; [by rewrite (strip_fresh b)|].
        intros x Hx' [= ->]. lia.
      - apply Hfresh. lia. }
    split.
    { intros q Hq. rewrite Hframe, Hpo; [done| |].
      - apply Hq. lia.
      - intros x Hx. apply Hq. lia. }
    split; [intros l; by rewrite Hsp|].
    repeat split; congruence.
Qed.

(** binit, run on the memory of a fresh boot, returns; the cache is then
    well formed and every buffer is [fresh_buf] up to its list pointers. *)
Lemma binit_ok nbuf dsk :
  ∃ s0 bk, binit (boot nbuf dsk) = Ok tt s0
    ∧ quiet s0 ∧ ticks s0 = 0 ∧ disk s0 = dsk ∧ disk_log s0 = []
    ∧ length (bcache_buf s0) = nbuf
    ∧ linked s0 (λ _, True) bk
    ∧ (∀ x, (x < nbuf)%nat → pay s0 (Buf x) = Some (strip fresh_buf)).
Proof.
  destruct (binit_loop nbuf 0 (empty_buckets nbuf dsk) (λ _, []))
    as (s0 & bk & Hrun & Hlk & Hfresh & _ & Hsp & Ht & Hd & Hdl & Hlb & Hlp).
  { eapply linked_ext; [|apply empty_buckets_linked]. intros x b _. cbv beta. lia. }
  { intros x Hx. unfold pay. simpl. rewrite lookup_replicate_2 by lia. done. }
  exists s0, bk. split.
  { unfold binit.
    apply (bind_step _ _ _ tt (set_spin BcacheLock false (boot nbuf dsk)));
      [reflexivity|].
    apply (bind_step _ _ _ tt (empty_buckets nbuf dsk));
      [apply binit_buckets|].
    apply (bind_step _ _ _ nbuf (empty_buckets nbuf dsk)); [|exact Hrun].
    unfold gets, empty_buckets. cbn [bcache_buf]. by rewrite length_replicate. }
  assert (length (bcache_buf s0) = nbuf) as Hlen.
  { rewrite Hlp. simpl. apply length_replicate. }
  split.
  { apply quiet_intro.
    - by rewrite Hsp.
    - rewrite Hlb. reflexivity.
    - intros i Hi. rewrite Hsp. unfold NBUCKET in Hi.
      do 13 (destruct i as [|i]; [reflexivity|]). lia. }
  split; [by rewrite Ht|]. split; [by rewrite Hd|]. split; [by rewrite Hdl|].
  split; [done|]. split; [|intros x Hx; apply Hfresh; lia].
  eapply linked_ext; [|exact Hlk]. intros x b Hb. cbv beta.
  apply lookup_lt_Some in Hb. lia.
Qed.

End BioBinit.

Module BioReach.
Import Bio BioSpec BioChains BioLinked BioScans BioOps BioBget BioBgetCases
  BioWf BioRun BioBinit.

(** *** What holds after every completed call *)

Lemma first_wins_unbound s l :
  (∀ x b, bcache_buf s !! x = Some b → unbound b) → first_wins s l.
Proof.
  intros Hu. induction l as [|x l IH]; simpl; [done|]. split; [|done].
  intros y bx c _ _ Hc _ _. by apply (Hu y).
Qed.

Lemma binit_wf nbuf dsk s :
  binit (boot nbuf dsk) = Ok tt s →
  wf s ∧ length (bcache_buf s) = nbuf ∧ disk_log s = []
  ∧ ∀ j b, bcache_buf s !! j = Some b → strip b = strip fresh_buf.
Proof.
  intros Hrun.
  destruct (binit_ok nbuf dsk)
    as (s0 & bk & Hrun0 & Hq & Ht & Hd & Hdl & Hlen & Hlk & Hfresh).
  rewrite Hrun0 in Hrun. injection Hrun as <-.
  assert (∀ j b, bcache_buf s0 !! j = Some b → strip b = strip fresh_buf) as Hall.
  { intros j b Hb.
    assert (j < nbuf)%nat as Hj by (rewrite <- Hlen; by eapply lookup_lt_Some).
    destruct (pay_Some _ _ _ (Hfresh j Hj)) as (b' & Hb' & Hs).
    simpl in Hb'. congruence. }
  split; [|by repeat split].
  split; [done|]. split; [lia|]. exists bk. split; [done|].
  intros h _. apply first_wins_unbound. intros x b Hb.
  pose proof (Hall x b Hb) as Hs.
  apply (f_equal key) in Hs. unfold key in Hs. simpl in Hs.
  injection Hs as Hd' Hn Hv. by repeat split.
Qed.

Lemma reach_wf rs tr s : reach rs tr s → wf s.
Proof.
  induction 1 as [nbuf dsk s Hrun|tr s fuel o s' _ IH Hrun].
  - by destruct (binit_wf nbuf dsk s Hrun).
  - by apply (run_wf rs fuel o s).
Qed.

(** A bget that returns has changed nothing in the other buffers, and has
    kept the [lu_time] of the buffer it returns. *)
Lemma bget_frame rs s dv bn fuel r s1 :
  wf s → bget rs fuel dv bn s = Ok r s1 →
  ∃ x b b1, r = Buf x ∧ bcache_buf s !! x = Some b
    ∧ bcache_buf s1 !! x = Some b1
    ∧ lu_time b1 = lu_time b ∧ data b1 = data b
    ∧ dev b1 = dv ∧ blockno b1 = bn ∧ lock b1 = true
    ∧ disk s1 = disk s ∧ disk_log s1 = disk_log s ∧ ticks s1 = ticks s
    ∧ (∀ y, y ≠ x → pay s1 (Buf y) = pay s (Buf y)).
Proof.
  intros (Hq & Ht & bk & Hlk & Hfw) Hrun.
  destruct (bget_outcome rs s dv bn fuel bk Hq Ht Hlk Hfw)
    as [[Hout _]|[[Hblk _]|(x & b1 & s1' & bk1 & l1 & l2 & Hget & Hq1 & Ht1 & Hd1
                      & Hdl1 & Hb1 & Hdv & Hbn & Hl1 & _ & _ & _ & _ & Hcase)]];
    [congruence..|].
  rewrite Hget in Hrun. injection Hrun as <- <-.
  destruct Hcase as [(bx & Hbx & _ & _ & _ & -> & _)
                    |(_ & _ & _ & b & Hb & _ & _ & Hstrip & Hpay)].
  - exists x, bx, b1. unfold hit_state in *. simpl in Hb1.
    rewrite list_lookup_insert_eq in Hb1 by (by eapply lookup_lt_Some).
    assert (b1 = set_lock true (incr rs bx)) as -> by congruence.
    split_and!; try done.
    { simpl. by apply list_lookup_insert_eq, (lookup_lt_Some _ _ bx). }
    intros y Hy. unfold pay. simpl.
    rewrite list_lookup_insert_ne; [done|congruence].
  - exists x, b, b1.
    apply (f_equal lu_time) in Hstrip as Hlu.
    apply (f_equal data) in Hstrip as Hda. by split_and!.
Qed.

Lemma bread_frame rs s dv bn fuel r s' :
  wf s → bread rs fuel dv bn s = Ok r s' →
  ∀ j, lu_time <$> bcache_buf s' !! j = lu_time <$> bcache_buf s !! j.
Proof.
  intros Hwf Hrun j. pose proof Hrun as Hrun'. unfold bread in Hrun'.
  apply bind_inv in Hrun' as (r1 & s1 & Hget & _).
  destruct (bget_frame rs s dv bn fuel r1 s1 Hwf Hget)
    as (x & b & b1 & -> & Hb & Hb1 & Hlu & _ & _ & _ & _ & _ & _ & _ & Hpay).
  rewrite (bread_after _ _ _ _ _ _ _ _ Hget Hb1) in Hrun.
  injection Hrun as _ <-.
  assert (lu_time <$> bcache_buf (read_state x b1 s1) !! j
          = lu_time <$> bcache_buf s1 !! j) as ->.
  { unfold read_state. case_bool_decide; [|done]. simpl.
    destruct (decide (j = x)) as [->|Hne].
    - rewrite list_lookup_insert_eq by (by eapply lookup_lt_Some).
      by rewrite Hb1.
    - by rewrite list_lookup_insert_ne. }
  destruct (decide (j = x)) as [->|Hne].
  - rewrite Hb, Hb1. simpl. by rewrite Hlu.
  - specialize (Hpay j Hne). apply (f_equal (fmap lu_time)) in Hpay.
    unfold pay in Hpay. rewrite <- !option_fmap_compose in Hpay. exact Hpay.
Qed.

(** Only brelse writes [lu_time]: the tick at which it runs. *)
Lemma run_lu_time rs fuel o s s' j :
  wf s → run rs fuel o s = Ok tt s' →
  lu_time <$> bcache_buf s' !! j
  = if decide (o = Brelse j) then (λ _, ticks s) <$> bcache_buf s !! j
    else lu_time <$> bcache_buf s !! j.
Proof.
  intros Hwf Hrun. pose proof Hwf as (Hq & Ht & _).
  destruct o as [dv bn|i|i|i|i|]; simpl in Hrun.
  - rewrite decide_False by done.
    apply bind_inv in Hrun as (r & s1 & Hrun & Hret). injection Hret as <-.
    by apply (bread_frame rs s dv bn fuel r).
  - rewrite decide_False by done.
    destruct (bcache_buf s !! i) as [b|] eqn:Hb.
    + destruct (lock b) eqn:Hl.
      * rewrite (bwrite_ok s i b Hb Hl) in Hrun. by injection Hrun as <-.
      * unfold bwrite, holdingsleep in Hrun.
        erewrite bind_step in Hrun;
          [|eapply bind_step; [by apply rd_ok|reflexivity]|reflexivity].
        by rewrite Hl in Hrun.
    + unfold bwrite, holdingsleep in Hrun.
      erewrite bind_fail in Hrun; [done|]. apply bind_fail. by apply rd_none.
  - destruct (bcache_buf s !! i) as [b|] eqn:Hb.
    + destruct (lock b) eqn:Hl.
      * rewrite (brelse_ok rs s i b Hq Hb Hl) in Hrun. injection Hrun as <-.
        simpl. case_decide as Hij.
        -- injection Hij as ->.
           rewrite list_lookup_insert_eq by (by eapply lookup_lt_Some).
           by rewrite Hb.
        -- rewrite list_lookup_insert_ne; [done|congruence].
      * by rewrite (brelse_not_held rs s i b Hb Hl) in Hrun.
    + unfold brelse, holdingsleep in Hrun.
      erewrite bind_fail in Hrun; [done|]. apply bind_fail. by apply rd_none.
  - rewrite decide_False by done.
    destruct (bcache_buf s !! i) as [b|] eqn:Hb.
    + rewrite (bpin_ok rs s i b Hq Hb) in Hrun. injection Hrun as <-. simpl.
      destruct (decide (j = i)) as [->|Hne].
      * rewrite list_lookup_insert_eq by (by eapply lookup_lt_Some).
        by rewrite Hb.
      * by rewrite list_lookup_insert_ne.
    + unfold bpin in Hrun. erewrite bind_fail in Hrun; [done|].
      by apply rd_none.
  - rewrite decide_False by done.
    destruct (bcache_buf s !! i) as [b|] eqn:Hb.
    + rewrite (bunpin_ok rs s i b Hq Hb) in Hrun. injection Hrun as <-. simpl.
      destruct (decide (j = i)) as [->|Hne].
      * rewrite list_lookup_insert_eq by (by eapply lookup_lt_Some).
        by rewrite Hb.
      * by rewrite list_lookup_insert_ne.
    + unfold bunpin in Hrun. erewrite bind_fail in Hrun; [done|].
      by apply rd_none.
  - rewrite decide_False by done. by injection Hrun as <-.
Qed.

(** A buffer never released still has binit's [lu_time], -1; a released one
    has the tick of its last release, which is not negative. *)
Lemma reach_lu_time rs tr s :
  reach rs tr s →
  ∀ j b, bcache_buf s !! j = Some b →
    (¬ released tr j → lu_time b = -1) ∧ (released tr j → 0 ≤ lu_time b).
Proof.
  induction 1 as [nbuf dsk s Hrun|tr s fuel o s' Hreach IH Hrun]; intros j b Hb.
  - destruct (binit_wf nbuf dsk s Hrun) as (_ & _ & _ & Hfresh).
    pose proof (Hfresh j b Hb) as Hs. apply (f_equal lu_time) in Hs.
    simpl in Hs. split; [done|]. unfold released. by intros ?%elem_of_nil.
  - pose proof (reach_wf _ _ _ Hreach) as Hwf.
    pose proof (run_lu_time rs fuel o s s' j Hwf Hrun) as Hlu.
    rewrite Hb in Hlu. simpl in Hlu.
    destruct Hwf as (_ & Ht & _).
    unfold released in *. case_decide as Ho.
    + subst o. destruct (bcache_buf s !! j) as [b0|]; [|done].
      simpl in Hlu. injection Hlu as ->. split; [|done].
      intros Hn. destruct Hn. apply elem_of_app; right.
      by apply list_elem_of_singleton.
    + destruct (bcache_buf s !! j) as [b0|] eqn:Hb0; [|done].
      simpl in Hlu. injection Hlu as ->.
      destruct (IH j b0 Hb0) as [IH1 IH2]. split.
      * intros Hn. apply IH1. intros Hin. apply Hn. apply elem_of_app; by left.
      * intros [Hin|Hin]%elem_of_app; [by apply IH2|].
        apply list_elem_of_singleton in Hin. congruence.
Qed.

End BioReach.

(** ** The claims about bio.c *)

Module BioClaims.
Import Bio BioSpec BioChains BioLinked BioScans BioOps BioBget BioBgetCases
  BioWf BioRun BioBinit BioReach.

Lemma wrap_fits rs z : fits rs z → wrap rs z = z.
Proof.
  unfold fits, wrap. destruct rs; intros Hz.
  - rewrite Z.mod_small by lia. lia.
  - by rewrite Z.mod_small by lia.
Qed.

(** The pointers of a state decide its rings. *)
Lemma on_list_same s s' h x :
  (∀ q, nxt s' q = nxt s q) → (∀ q, prv s' q = prv s q) →
  on_list s h x → on_list s' h x.
Proof.
  intros Hn Hp (l & Hr & Hx). exists l. split; [|done].
  apply (ring_frame s); [|done]. auto.
Qed.

Lemma insert_pointers s j b b' :
  bcache_buf s !! j = Some b → next b' = next b → prev b' = prev b →
  (∀ q, nxt (set_bcache_buf (<[j := b']> (bcache_buf s)) s) q = nxt s q)
  ∧ (∀ q, prv (set_bcache_buf (<[j := b']> (bcache_buf s)) s) q = prv s q).
Proof.
  intros Hb Hn Hp.
  assert (∀ q, get q (set_bcache_buf (<[j := b']> (bcache_buf s)) s)
               = if decide (q = Buf j) then Some b' else get q s) as Hg.
  { intros q. rewrite <- (upd_Buf_insert _ (λ _, b') _ _ Hb), get_upd.
    case_decide as Hq'; [|done]. subst q. simpl. by rewrite Hb. }
  split; intros q; unfold nxt, prv; rewrite Hg; case_decide as Hq; try done;
    subst q; simpl; rewrite Hb; simpl; congruence.
Qed.

Lemma cold3_reach rs : reach rs [] cold3.
Proof. apply (reach_binit rs 3 demo_disk). vm_compute. reflexivity. Qed.

Lemma held7_reach : reach false [Bread 1 7] held7.
Proof.
  apply (reach_run false [] cold3 4 (Bread 1 7) held7 (cold3_reach _)).
  vm_compute. reflexivity.
Qed.

(** C8.  brelse(b), called with no spin-lock held by a caller that holds
    the sleep-lock of buffer [j]: the call returns; the cache is the old one
    with buffer [j] replaced by a buffer whose sleep-lock is free, whose
    [refcnt] is one less (in the arithmetic of its type; exactly one less
    when that fits the type), whose [lu_time] is the current tick and whose
    other fields, list pointers included, are the old ones.  So every other
    buffer and the membership of every bucket list are unchanged. *)
Theorem brelse_frame (rs : bool) (s : state) (j : nat) (b : buf) :
  quiet s → bcache_buf s !! j = Some b → lock b = true →
  ∃ s' b',
    brelse rs (Buf j) s = Ok tt s'
    ∧ s' = set_bcache_buf (<[j := b']> (bcache_buf s)) s
    ∧ lock b' = false
    ∧ refcnt b' = wrap rs (refcnt b - 1)
    ∧ (fits rs (refcnt b - 1) → refcnt b' = refcnt b - 1)
    ∧ lu_time b' = ticks s
    ∧ dev b' = dev b ∧ blockno b' = blockno b ∧ valid b' = valid b
    ∧ data b' = data b ∧ prev b' = prev b ∧ next b' = next b
    ∧ (∀ x, x ≠ j → bcache_buf s' !! x = bcache_buf s !! x)
    ∧ bucket s' = bucket s
    ∧ (∀ h x, on_list s' h x ↔ on_list s h x).
Proof.
  intros Hq Hb Hl.
  exists (set_bcache_buf
            (<[j := set_lu_time (ticks s) (decr rs (set_lock false b))]>
               (bcache_buf s)) s),
    (set_lu_time (ticks s) (decr rs (set_lock false b))).
  split; [by apply brelse_ok|]. split; [done|]. split; [done|].
  split; [done|]. split; [intros Hf; simpl; by apply wrap_fits|].
  split_and!; try done.
  - intros x Hx. simpl. by rewrite list_lookup_insert_ne.
  - intros h x.
    destruct (insert_pointers s j b
                (set_lu_time (ticks s) (decr rs (set_lock false b))) Hb)
      as [Hn Hp]; [done..|].
    split; apply on_list_same; auto.
Qed.

Lemma brelse_frame_witness :
  ∃ s' b', brelse false (Buf 0) held7 = Ok tt s'
    ∧ bcache_buf held7 !! 0%nat = Some b' ∧ lock b' = true.
Proof.
  assert (quiet held7) as Hq by (by destruct (reach_wf _ _ _ held7_reach)).
  assert (bcache_buf held7 !! 0%nat
          = Some (mkBuf 1 1 7 true 1 (Head 7) (Head 7) [1; 7] (-1))) as Hb
    by (vm_compute; reflexivity).
  destruct (brelse_frame false held7 0 _ Hq Hb eq_refl) as (s' & b' & Hrun & _).
  exists s'. eexists. split; [exact Hrun|]. split; [exact Hb|reflexivity].
Defined.

(** Buffers whose count is not zero are passed over by the eviction scan. *)
Lemma scan_pool_skips s j b :
  bcache_buf s !! j = Some b → refcnt b ≠ 0 →
  scan_pool s (bcache_buf s) 0 Null ≠ Buf j.
Proof.
  intros Hb Hr Hscan.
  destruct (scan_pool_lru s) as [[Hn _]|(l & bl & Hl & _ & Hbl & Hrl & _)];
    [congruence|].
  rewrite Hscan in Hl. injection Hl as <-. congruence.
Qed.

(** C10 as amended.  bunpin(b), called with no spin-lock held, never panics
    and has no lower bound: it returns with the [refcnt] of buffer [j] one
    less in the arithmetic of its type; from 0 that is -1 for an int and
    2^32 - 1 for a uint, and the eviction scan passes over the buffer in every
    state in which its count still has that value. *)
Theorem bunpin_no_lower_bound (rs : bool) (s : state) (j : nat) (b : buf) :
  quiet s → bcache_buf s !! j = Some b →
  bunpin rs (Buf j) s
  = Ok tt (set_bcache_buf (<[j := decr rs b]> (bcache_buf s)) s)
  ∧ refcnt (decr rs b) = wrap rs (refcnt b - 1)
  ∧ (fits rs (refcnt b - 1) → refcnt (decr rs b) = refcnt b - 1)
  ∧ (refcnt b = 0 →
     refcnt (decr rs b) = (if rs then -1 else 2 ^ 32 - 1)
     ∧ ∀ s' c, bcache_buf s' !! j = Some c → refcnt c = refcnt (decr rs b) →
         scan_pool s' (bcache_buf s') 0 Null ≠ Buf j).
Proof.
  intros Hq Hb. split; [by apply bunpin_ok|]. split; [done|].
  split; [intros Hf; simpl; by apply wrap_fits|].
  intros Hz.
  assert (refcnt (decr rs b) = (if rs then -1 else 2 ^ 32 - 1)) as Hv.
  { simpl. rewrite Hz. by destruct rs. }
  split; [done|]. intros s' c Hc Hrc. apply (scan_pool_skips s' j c Hc).
  rewrite Hrc, Hv. by destruct rs.
Qed.

Lemma bunpin_no_lower_bound_witness :
  bunpin false (Buf 1) cold3
  = Ok tt (set_bcache_buf
             (<[1%nat := decr false (mkBuf 0 0 0 false 0 (Buf 2) (Buf 0) [] (-1))]>
                (bcache_buf cold3)) cold3).
Proof.
  assert (quiet cold3) as Hq by (by destruct (reach_wf _ _ _ (cold3_reach false))).
  assert (bcache_buf cold3 !! 1%nat
          = Some (mkBuf 0 0 0 false 0 (Buf 2) (Buf 0) [] (-1))) as Hb
    by (vm_compute; reflexivity).
  exact (proj1 (bunpin_no_lower_bound false cold3 1 _ Hq Hb)).
Defined.

(** C10 as stated fails: after the misuse a single bpin brings the count
    back to 0 and the eviction scan picks the buffer again. *)
Lemma bunpin_not_permanent :
  ∃ s1 s2 b0 b1,
    bcache_buf cold3 !! 0%nat = Some b0 ∧ refcnt b0 = 0
    ∧ bunpin false (Buf 0) cold3 = Ok tt s1
    ∧ bcache_buf s1 !! 0%nat = Some b1 ∧ refcnt b1 = 2 ^ 32 - 1
    ∧ bpin false (Buf 0) s1 = Ok tt s2
    ∧ scan_pool s2 (bcache_buf s2) 0 Null = Buf 0.
Proof.
  exists (after (bunpin false (Buf 0) cold3) cold3),
    (after (bpin false (Buf 0) (after (bunpin false (Buf 0) cold3) cold3)) cold3),
    (mkBuf 0 0 0 false 0 (Buf 1) (Head 0) [] (-1)),
    (mkBuf 0 0 0 false (2 ^ 32 - 1) (Buf 1) (Head 0) [] (-1)).
  split_and!; vm_compute; reflexivity.
Qed.



Lemma rel7_reach : reach false [Bread 1 7; Clock; Brelse 0] rel7.
Proof.
  apply (reach_run false [Bread 1 7; Clock] (after (clock held7) held7) 4
           (Brelse 0) rel7); [|vm_compute; reflexivity].
  apply (reach_run false [Bread 1 7] held7 4 Clock _ held7_reach).
  vm_compute. reflexivity.
Qed.

(** C9.  After binit (an empty trace of calls) every buffer has
    [lu_time = -1]; after any completed calls a buffer that was never
    released still has it and a released one has a tick of 0 or more.  So
    whenever a buffer with [refcnt] 0 that was never released exists, the
    eviction scan selects such a buffer: its victim has [refcnt] 0, was
    never released, and its [lu_time] is below that of every released
    buffer with [refcnt] 0. *)
Theorem never_released_evicted_first (rs : bool) (tr : list op) (s : state) :
  reach rs tr s →
  (tr = [] → ∀ j b, bcache_buf s !! j = Some b → lu_time b = -1)
  ∧ (∀ j b, bcache_buf s !! j = Some b →
       (¬ released tr j → lu_time b = -1) ∧ (released tr j → 0 ≤ lu_time b))
  ∧ ∀ f bf, bcache_buf s !! f = Some bf → refcnt bf = 0 → ¬ released tr f →
      ∃ v bv, scan_pool s (bcache_buf s) 0 Null = Buf v
        ∧ bcache_buf s !! v = Some bv ∧ refcnt bv = 0 ∧ lu_time bv = -1
        ∧ ¬ released tr v
        ∧ ∀ x c, bcache_buf s !! x = Some c → refcnt c = 0 → released tr x →
            lu_time bv < lu_time c.
Proof.
  intros Hreach. pose proof (reach_lu_time rs tr s Hreach) as Hlu.
  split.
  { intros -> j b Hb. apply (Hlu j b Hb). unfold released. by intros ?%elem_of_nil. }
  split; [done|].
  intros f bf Hf Hrf Hnf.
  destruct (scan_pool_candidate s f bf Hf Hrf) as (v & bv & Hscan & Hv & Hrv & Hmin).
  assert (lu_time bf = -1) as Hlf by (by apply (Hlu f bf Hf)).
  assert (¬ released tr v) as Hnv.
  { intros Hrel. destruct (Hlu v bv Hv) as [_ Hpos]. specialize (Hpos Hrel).
    destruct (Hmin f bf Hf Hrf) as [Hle _]. lia. }
  assert (lu_time bv = -1) as Hlv by (by apply (Hlu v bv Hv)).
  exists v, bv. split_and!; try done.
  intros x c Hc Hrc Hrel. destruct (Hlu x c Hc) as [_ Hpos].
  specialize (Hpos Hrel). lia.
Qed.

Lemma never_released_evicted_first_witness :
  ∃ v bv, scan_pool rel7 (bcache_buf rel7) 0 Null = Buf v
    ∧ bcache_buf rel7 !! v = Some bv ∧ refcnt bv = 0 ∧ lu_time bv = -1
    ∧ ¬ released [Bread 1 7; Clock; Brelse 0] v.
Proof.
  assert (bcache_buf rel7 !! 1%nat
          = Some (mkBuf 0 0 0 false 0 (Buf 2) (Head 0) [] (-1))) as Hb
    by (vm_compute; reflexivity).
  assert (¬ released [Bread 1 7; Clock; Brelse 0] 1) as Hn.
  { unfold released. rewrite !elem_of_cons, elem_of_nil.
    intros [H|[H|[H|[]]]]; discriminate H. }
  destruct (never_released_evicted_first false _ rel7 rel7_reach)
    as (_ & _ & Hscan).
  destruct (Hscan 1%nat _ Hb eq_refl Hn) as (v & bv & Hv & Hbv & Hr & Hl & Hnv & _).
  exists v, bv. split_and!; assumption.
Defined.

(** A block that no buffer on the list of its bucket holds is held by no
    buffer of the pool. *)
Lemma miss_pool s bk dv bn :
  linked s (λ _, True) bk →
  (∀ y, on_list s (hash bn) y → ¬ holds s y dv bn) →
  ∀ y, ¬ holds s y dv bn.
Proof.
  intros Hlk Hmiss y Hy. apply (Hmiss y); [|done].
  destruct Hy as (b & Hb & _ & <-).
  by apply (linked_on_list s (λ _, True) bk).
Qed.

Lemma holds_on_list s bk y dv bn :
  linked s (λ _, True) bk → holds s y dv bn → y ∈ bk (hash bn).
Proof.
  intros Hlk (b & Hb & _ & <-). by apply (lk_all _ _ _ Hlk).
Qed.

(** The buffer at the front of a ring. *)
Lemma ring_front s h x l :
  ring s h (x :: l) →
  nxt s (Head h) = Some (Buf x) ∧ prv s (Buf x) = Some (Head h).
Proof. intros [[Hn _] [Hp _]]. done. Qed.

(** C1.  A bget(dev, blockno) that finds no buffer of the block on the list
    of bucket [blockno mod 13] (NBUCKET is 13), called between two calls of
    the cache: a buffer it returns is a buffer of the pool that had [refcnt]
    0 and the least [lu_time] among the buffers of the pool with [refcnt] 0;
    in the state it leaves that buffer has the [dev] and [blockno] of the
    call, [valid] 0 and [refcnt] 1, and is the first buffer of the list of
    bucket [blockno mod 13]: the [next] of that bucket's head points to it
    and its [prev] to that head.  And bget does return when some buffer
    with [refcnt] 0 exists and the sleep-locks of such buffers are free. *)
Theorem bget_miss_recycles_lru (rs : bool) (s : state) (dv bn : Z)
    (fuel : nat) :
  wf s →
  (∀ y, on_list s (Z.to_nat (bn `mod` 13)) y → ¬ holds s y dv bn) →
  (∀ r s', bget rs fuel dv bn s = Ok r s' →
     ∃ j b b', r = Buf j ∧ bcache_buf s !! j = Some b ∧ refcnt b = 0
       ∧ (∀ x c, bcache_buf s !! x = Some c → refcnt c = 0 →
            lu_time b ≤ lu_time c)
       ∧ bcache_buf s' !! j = Some b'
       ∧ dev b' = dv ∧ blockno b' = bn ∧ valid b' = 0 ∧ refcnt b' = 1
       ∧ nxt s' (Head (Z.to_nat (bn `mod` 13))) = Some (Buf j)
       ∧ prv s' (Buf j) = Some (Head (Z.to_nat (bn `mod` 13)))
       ∧ on_list s' (Z.to_nat (bn `mod` 13)) j
       ∧ (∀ h, on_list s' h j → h = Z.to_nat (bn `mod` 13)))
  ∧ ((length (bcache_buf s) < fuel)%nat →
     (∃ f bf, bcache_buf s !! f = Some bf ∧ refcnt bf = 0) →
     (∀ x c, bcache_buf s !! x = Some c → refcnt c = 0 → lock c = false) →
     ∃ j s', bget rs fuel dv bn s = Ok (Buf j) s').
Proof.
  change (Z.to_nat (bn `mod` 13)) with (hash bn).
  intros (Hq & Ht & bk & Hlk & Hfw) Hmiss.
  pose proof (miss_pool s bk dv bn Hlk Hmiss) as Hnone.
  destruct (bget_outcome rs s dv bn fuel bk Hq Ht Hlk Hfw)
    as [[Hout Hwhy]|[[Hblk Hwhy]|
        (x & b1 & s1 & bk1 & l1 & l2 & Hrun & _ & _ & _ & _ & Hb1 & Hd1 & Hn1
         & _ & Hlk1 & _ & Hsplit & _ & Hcase)]].
  - split; [intros r s' Hr; congruence|].
    intros Hfuel (f & bf & Hf & Hrf) _.
    destruct Hwhy as [Hle|[Hsat _]]; [lia|]. by destruct (Hsat f bf).
  - split; [intros r s' Hr; congruence|].
    intros _ _ Hfree.
    destruct Hwhy as (j & b & Hb & Hl & [Hh|[_ Hr]]).
    + by destruct (Hnone j).
    + rewrite (Hfree j b Hb Hr) in Hl. discriminate.
  - split; [|intros _ _ _; by exists x, s1].
    intros r s' Hr. rewrite Hrun in Hr. injection Hr as <- <-.
    destruct Hcase as [(bx & Hbx & Hdx & Hnx & _)|
                       (_ & Hscan & -> & b & Hb & Hrb & _ & Hstrip & _)].
    { destruct (Hnone x). by exists bx. }
    destruct (scan_pool_candidate s x b Hb Hrb)
      as (l & bl & Hl & Hbl & _ & Hmin).
    rewrite Hscan in Hl. injection Hl as <-.
    rewrite Hb in Hbl. injection Hbl as <-.
    pose proof (lk_ring _ _ _ Hlk1 (hash bn) (hash_lt bn)) as Hring.
    rewrite Hsplit in Hring. simpl in Hring.
    destruct (ring_front _ _ _ _ Hring) as [Hnx Hpx].
    assert (on_list s1 (hash bn) x) as Hon.
    { exists (bk1 (hash bn)). split; [apply (lk_ring _ _ _ Hlk1), hash_lt|].
      rewrite Hsplit. apply elem_of_cons. by left. }
    exists x, b, b1. split_and!; try done.
    + intros y c Hc Hrc. by destruct (Hmin y c Hc Hrc).
    + by apply (f_equal valid) in Hstrip.
    + by apply (f_equal refcnt) in Hstrip.
    + intros h Hh. by apply (on_list_unique s1 h (hash bn) x).
Qed.

Lemma cold3_holds y b :
  bcache_buf cold3 !! y = Some b → dev b = 0 ∧ blockno b = 0 ∧ refcnt b = 0
    ∧ lock b = false.
Proof.
  destruct y as [|[|[|y]]]; vm_compute; intros H; [| | |discriminate H];
    injection H as <-; done.
Qed.

Lemma bget_miss_recycles_lru_witness :
  ∃ j s', bget false 4 1 7 cold3 = Ok (Buf j) s'
    ∧ nxt s' (Head 7) = Some (Buf j) ∧ prv s' (Buf j) = Some (Head 7)
    ∧ on_list s' 7 j ∧ (∀ h, on_list s' h j → h = 7%nat).
Proof.
  assert (wf cold3) as Hwf by exact (reach_wf _ _ _ (cold3_reach false)).
  assert (∀ y, on_list cold3 (Z.to_nat (7 `mod` 13)) y → ¬ holds cold3 y 1 7)
    as Hmiss.
  { intros y _ (b & Hb & Hd & _).
    destruct (cold3_holds y b Hb) as (Hd0 & _). rewrite Hd0 in Hd.
    discriminate Hd. }
  destruct (bget_miss_recycles_lru false cold3 1 7 4 Hwf Hmiss)
    as [Hres Hret].
  destruct Hret as (j & s' & Hrun).
  - vm_compute. lia.
  - exists 0%nat. eexists. split; vm_compute; reflexivity.
  - intros x c Hc _. by destruct (cold3_holds x c Hc) as (_ & _ & _ & Hl).
  - destruct (Hres _ _ Hrun)
      as (j' & b & b' & Hj & _ & _ & _ & _ & _ & _ & _ & _ & Hn & Hp & Hon
          & Huniq).
    injection Hj as <-. exists j, s'. split; [exact Hrun|].
    split; [exact Hn|]. split; [exact Hp|]. split; [exact Hon|exact Huniq].
Defined.

(** C2.  With every buffer of the pool in use and the block held by none of
    them, bget does not panic: whatever the bound on its loops, the
    [while(lru == 0)] loop is still running when the bound is reached, and
    [panic("bget: no buffers")] is not reached. *)
Theorem bget_saturated_spins (rs : bool) (s : state) (dv bn : Z) :
  wf s → saturated s → (∀ y, on_list s (hash bn) y → ¬ holds s y dv bn) →
  ∀ fuel,
    bget rs fuel dv bn s = Err OutOfFuel
    ∧ bget rs fuel dv bn s ≠ Err (Panic "bget: no buffers").
Proof.
  intros (Hq & Ht & bk & Hlk & Hfw) Hsat Hmiss fuel.
  pose proof (miss_pool s bk dv bn Hlk Hmiss) as Hnone.
  assert (bget rs fuel dv bn s = Err OutOfFuel) as Hout.
  { destruct (bget_outcome rs s dv bn fuel bk Hq Ht Hlk Hfw)
      as [[Hout _]|[[_ Hwhy]|
          (x & b1 & s1 & bk1 & l1 & l2 & _ & _ & _ & _ & _ & _ & _ & _
           & _ & _ & _ & _ & _ & Hcase)]]; [done| |].
    - destruct Hwhy as (j & b & Hb & _ & [Hh|[_ Hr]]).
      + by destruct (Hnone j).
      + by destruct (Hsat j b).
    - destruct Hcase as [(bx & Hbx & Hdx & Hnx & _)|
                         (_ & Hscan & _)].
      + destruct (Hnone x). by exists bx.
      + rewrite (scan_pool_saturated s Hsat) in Hscan. discriminate. }
  split; [done|]. rewrite Hout. discriminate.
Qed.

Lemma full3_reach : reach false [Bread 1 7; Bread 1 20; Bread 1 33] full3.
Proof.
  apply (reach_run false [Bread 1 7; Bread 1 20]
           (after (bread false 4 1 20 held7) held7) 4 (Bread 1 33) full3);
    [|vm_compute; reflexivity].
  apply (reach_run false [Bread 1 7] held7 4 (Bread 1 20) _ held7_reach).
  vm_compute. reflexivity.
Qed.

Lemma full3_holds y b :
  bcache_buf full3 !! y = Some b →
  refcnt b = 1 ∧ dev b = 1 ∧ (blockno b = 7 ∨ blockno b = 20 ∨ blockno b = 33).
Proof.
  destruct y as [|[|[|y]]]; vm_compute; intros H; [| | |discriminate H];
    injection H as <-; split_and!; auto.
Qed.

Lemma bget_saturated_spins_witness :
  bget false 1000 1 46 full3 = Err OutOfFuel.
Proof.
  assert (wf full3) as Hwf by exact (reach_wf _ _ _ full3_reach).
  assert (saturated full3) as Hsat.
  { intros j b Hb. destruct (full3_holds j b Hb) as [-> _]. done. }
  assert (∀ y, on_list full3 (hash 46) y → ¬ holds full3 y 1 46) as Hmiss.
  { intros y _ (b & Hb & _ & Hn).
    destruct (full3_holds y b Hb) as (_ & _ & [H|[H|H]]); congruence. }
  exact (proj1 (bget_saturated_spins false full3 1 46 Hwf Hsat Hmiss 1000)).
Defined.

(** On a bucket list, a buffer that comes after a buffer of the same block
    was never bound. *)
Lemma first_wins_later s l1 x l2 y bx c :
  first_wins s (l1 ++ x :: l2) → y ∈ l2 →
  bcache_buf s !! x = Some bx → bcache_buf s !! y = Some c →
  dev bx = dev c → blockno bx = blockno c → unbound c.
Proof.
  induction l1 as [|z l1 IH]; simpl; intros [Hx Hl] Hy Hbx Hc Hd Hn.
  - by apply (Hx y bx c).
  - by apply IH.
Qed.

Lemma first_wins_pair s l x y bx c :
  first_wins s l → x ∈ l → y ∈ l → x ≠ y →
  bcache_buf s !! x = Some bx → bcache_buf s !! y = Some c →
  dev bx = dev c → blockno bx = blockno c → unbound bx ∨ unbound c.
Proof.
  intros Hfw Hx Hy Hne Hbx Hc Hd Hn.
  apply list_elem_of_split in Hx as (l1 & l2 & ->).
  apply elem_of_app in Hy as [Hy|Hy].
  - left. apply list_elem_of_split in Hy as (la & lb & ->).
    rewrite <- app_assoc in Hfw. simpl in Hfw.
    apply (first_wins_later s la y (lb ++ x :: l2) x c bx Hfw); try done.
    apply elem_of_app. right. apply elem_of_cons. by left.
  - apply elem_of_cons in Hy as [->|Hy]; [done|]. right.
    by apply (first_wins_later s l1 x l2 y bx c).
Qed.

(** C3.  bread(dev, blockno), called between two calls of the cache.  When
    bget returns, its result is a buffer of the pool bound to the block, and
    bread returns it: if its [valid] is 0, exactly one transfer, a read of
    that block, is added to those of the disk, the data of the buffer is the
    block and its [valid] is 1; otherwise bread leaves the state of bget, with
    no transfer.  In particular, when a buffer with [valid] not 0 holds the
    block and the sleep-lock of no holder of the block is taken, bread
    returns that buffer with no transfer: its [refcnt] is one more (in the
    arithmetic of its type), its sleep-lock is taken and nothing else of the
    cache has changed. *)
Theorem bread_reads_iff_not_valid (rs : bool) (s : state) (dv bn : Z)
    (fuel : nat) :
  wf s →
  (∀ p s1, bget rs fuel dv bn s = Ok p s1 →
     ∃ x b1 s2, p = Buf x ∧ bcache_buf s1 !! x = Some b1
       ∧ dev b1 = dv ∧ blockno b1 = bn
       ∧ bread rs fuel dv bn s = Ok (Buf x) s2
       ∧ (valid b1 = 0 →
            disk_log s2 = disk_log s ++ [mkTransfer false dv bn]
            ∧ bcache_buf s2
              = <[x := set_valid 1 (set_data (disk s dv bn) b1)]> (bcache_buf s1))
       ∧ (valid b1 ≠ 0 → s2 = s1 ∧ disk_log s2 = disk_log s))
  ∧ (∀ x bx, (length (bcache_buf s) < fuel)%nat →
       bcache_buf s !! x = Some bx → dev bx = dv → blockno bx = bn →
       valid bx ≠ 0 →
       (∀ y c, bcache_buf s !! y = Some c → dev c = dv → blockno c = bn →
          lock c = false) →
       bread rs fuel dv bn s = Ok (Buf x) (hit_state rs x bx s)
       ∧ disk_log (hit_state rs x bx s) = disk_log s
       ∧ disk (hit_state rs x bx s) = disk s
       ∧ bucket (hit_state rs x bx s) = bucket s
       ∧ bcache_buf (hit_state rs x bx s)
         = <[x := set_lock true (set_refcnt (wrap rs (refcnt bx + 1)) bx)]>
             (bcache_buf s)).
Proof.
  intros (Hq & Ht & bk & Hlk & Hfw).
  destruct (bget_outcome rs s dv bn fuel bk Hq Ht Hlk Hfw)
    as [[Hout Hwhy]|[[Hblk Hwhy]|
        (x & b1 & s1 & bk1 & l1 & l2 & Hrun & _ & _ & Hdisk & Hlog & Hb1 & Hd1
         & Hn1 & _ & _ & _ & Hsplit & Hl1 & Hcase)]].
  - split; [intros p s1 Hr; congruence|].
    intros x bx Hfuel Hbx Hdx Hnx _ _.
    destruct Hwhy as [Hle|[_ Hnone]]; [lia|]. destruct (Hnone x). by exists bx.
  - split; [intros p s1 Hr; congruence|].
    intros x bx _ Hbx Hdx Hnx _ Hfree.
    destruct Hwhy as (j & b & Hb & Hl & [(b' & Hb' & Hd' & Hn')|[Hnone _]]).
    + rewrite Hb in Hb'. injection Hb' as <-.
      rewrite (Hfree j b Hb Hd' Hn') in Hl. discriminate.
    + destruct (Hnone x). by exists bx.
  - pose proof (bread_after rs fuel dv bn s x s1 b1 Hrun Hb1) as Hread.
    split.
    + intros p s1' Hr. rewrite Hrun in Hr. injection Hr as <- <-.
      exists x, b1, (read_state x b1 s1). split_and!; try done.
      * intros Hv. unfold read_state. rewrite (bool_decide_true _ Hv). simpl.
        by rewrite Hlog, Hdisk, Hd1, Hn1.
      * intros Hv. unfold read_state. by rewrite (bool_decide_false _ Hv).
    + intros y by' _ Hby Hdy Hny Hvy _.
      destruct Hcase as [(bx & Hbx & Hdx & Hnx & _ & -> & ->)|(Hnone & _)];
        [|destruct (Hnone y); by exists by'].
      assert (y = x) as ->.
      { destruct (decide (y = x)) as [|Hne]; [done|]. exfalso.
        assert (y ∈ l1 ++ x :: l2) as Hy.
        { rewrite <- Hsplit. apply (holds_on_list s bk y dv bn Hlk).
          by exists by'. }
        apply elem_of_app in Hy as [Hy|Hy].
        - apply (Hl1 y Hy). exists by'. split; [|done].
          unfold hit_state. simpl. by rewrite list_lookup_insert_ne.
        - apply elem_of_cons in Hy as [->|Hy]; [done|].
          specialize (Hfw (hash bn) (hash_lt bn)). rewrite Hsplit in Hfw.
          destruct (first_wins_later s l1 x l2 y bx by' Hfw Hy Hbx Hby)
            as (_ & _ & Hv0); congruence. }
      rewrite Hbx in Hby. injection Hby as <-.
      assert (b1 = set_lock true (incr rs bx)) as ->.
      { unfold hit_state in Hb1. simpl in Hb1.
        rewrite list_lookup_insert_eq in Hb1 by (by eapply lookup_lt_Some).
        congruence. }
      unfold read_state in Hread.
      rewrite (bool_decide_false (valid (set_lock true (incr rs bx)) = 0))
        in Hread by done.
      done.
Qed.

Lemma rel7_holds y c :
  bcache_buf rel7 !! y = Some c → lock c = false.
Proof.
  destruct y as [|[|[|y]]]; vm_compute; intros H; [| | |discriminate H];
    by injection H as <-.
Qed.

Lemma bread_reads_iff_not_valid_witness :
  bread false 4 1 7 rel7
  = Ok (Buf 0) (hit_state false 0 (mkBuf 1 1 7 false 0 (Head 7) (Head 7) [1; 7] 1) rel7)
  ∧ disk_log (hit_state false 0 (mkBuf 1 1 7 false 0 (Head 7) (Head 7) [1; 7] 1) rel7)
    = [mkTransfer false 1 7]
  ∧ disk_log rel7 = [mkTransfer false 1 7].
Proof.
  assert (wf rel7) as Hwf by exact (reach_wf _ _ _ rel7_reach).
  assert (bcache_buf rel7 !! 0%nat
          = Some (mkBuf 1 1 7 false 0 (Head 7) (Head 7) [1; 7] 1)) as Hb
    by (vm_compute; reflexivity).
  destruct (bread_reads_iff_not_valid false rel7 1 7 4 Hwf) as [_ Hhit].
  destruct (Hhit 0%nat _ ltac:(vm_compute; lia) Hb eq_refl eq_refl
              ltac:(discriminate)
              (λ y c Hc _ _, rel7_holds y c Hc)) as (Hrun & _).
  split; [exact Hrun|]. split; vm_compute; reflexivity.
Defined.

Lemma zero3_reach : reach false [Bread 0 0] zero3.
Proof.
  apply (reach_run false [] cold3 4 (Bread 0 0) zero3 (cold3_reach _)).
  vm_compute. reflexivity.
Qed.

(** C4 as stated fails: after [bread(0, 0)] on a cache that binit has just
    set up, block [(0, 0)] is cached by buffer 2, valid and in use, and
    buffer 1, which was never bound, has the same [dev] and [blockno]. *)
Lemma zero_block_held_twice :
  reach false [Bread 0 0] zero3
  ∧ ∃ b2 b1, bcache_buf zero3 !! 2%nat = Some b2
      ∧ bcache_buf zero3 !! 1%nat = Some b1
      ∧ valid b2 = 1 ∧ refcnt b2 = 1
      ∧ dev b2 = dev b1 ∧ blockno b2 = blockno b1.
Proof.
  split; [exact zero3_reach|].
  eexists _, _. split; [vm_compute; reflexivity|].
  split; [vm_compute; reflexivity|]. split_and!; reflexivity.
Qed.

(** C4 as amended.  After binit and any completed calls, two different
    buffers of the pool have the same [dev] and [blockno] only when both are
    0 and one of the two was never bound ([valid] 0); so a block other than
    [(0, 0)] is held by at most one buffer and every block by at most one
    valid buffer.  And a bget for a block that some buffer holds binds no
    buffer: it returns a buffer that held the block, with one more reference
    and its sleep-lock taken, and changes nothing else. *)
Theorem one_bound_buffer_per_block (rs : bool) (tr : list op) (s : state) :
  reach rs tr s →
  (∀ x y bx c, x ≠ y →
     bcache_buf s !! x = Some bx → bcache_buf s !! y = Some c →
     dev bx = dev c → blockno bx = blockno c →
     dev bx = 0 ∧ blockno bx = 0 ∧ (valid bx = 0 ∨ valid c = 0))
  ∧ (∀ fuel dv bn r s', (∃ y, holds s y dv bn) →
       bget rs fuel dv bn s = Ok r s' →
       ∃ x bx, r = Buf x ∧ bcache_buf s !! x = Some bx
         ∧ dev bx = dv ∧ blockno bx = bn
         ∧ s' = hit_state rs x bx s
         ∧ ∀ y, key <$> bcache_buf s' !! y = key <$> bcache_buf s !! y).
Proof.
  intros Hreach.
  destruct (reach_wf _ _ _ Hreach) as (Hq & Ht & bk & Hlk & Hfw).
  split.
  - intros x y bx c Hne Hbx Hc Hd Hn.
    assert (x ∈ bk (hash (blockno bx))) as Hx by (by apply (lk_all _ _ _ Hlk)).
    assert (y ∈ bk (hash (blockno bx))) as Hy.
    { rewrite Hn. by apply (lk_all _ _ _ Hlk). }
    destruct (first_wins_pair s _ x y bx c (Hfw _ (hash_lt _)) Hx Hy Hne
                Hbx Hc Hd Hn) as [(Hd0 & Hn0 & Hv0)|(Hd0 & Hn0 & Hv0)].
    + auto.
    + split; [congruence|]. split; [congruence|]. auto.
  - intros fuel dv bn r s' [y Hy] Hr.
    destruct (bget_outcome rs s dv bn fuel bk Hq Ht Hlk Hfw)
      as [[Hout _]|[[Hblk _]|
          (x & b1 & s1 & bk1 & l1 & l2 & Hrun & _ & _ & _ & _ & _ & _
           & _ & _ & _ & _ & _ & _ & Hcase)]]; [congruence..|].
    rewrite Hrun in Hr. injection Hr as <- <-.
    destruct Hcase as [(bx & Hbx & Hdx & Hnx & _ & -> & _)|(Hnone & _)];
      [|by destruct (Hnone y)].
    exists x, bx. split_and!; try done.
    intros z. unfold hit_state. simpl.
    destruct (decide (z = x)) as [->|Hz].
    + rewrite list_lookup_insert_eq by (by eapply lookup_lt_Some).
      by rewrite Hbx.
    + by rewrite list_lookup_insert_ne.
Qed.

Lemma one_bound_buffer_per_block_witness :
  ∃ bx c, bcache_buf zero3 !! 2%nat = Some bx
    ∧ bcache_buf zero3 !! 1%nat = Some c
    ∧ dev bx = 0 ∧ blockno bx = 0 ∧ (valid bx = 0 ∨ valid c = 0).
Proof.
  assert (bcache_buf zero3 !! 2%nat
          = Some (mkBuf 1 0 0 true 1 (Head 0) (Buf 1) [0; 0] (-1))) as H2
    by (vm_compute; reflexivity).
  assert (bcache_buf zero3 !! 1%nat
          = Some (mkBuf 0 0 0 false 0 (Buf 2) (Buf 0) [] (-1))) as H1
    by (vm_compute; reflexivity).
  destruct (one_bound_buffer_per_block false _ zero3 zero3_reach)
    as [Hpair _].
  destruct (Hpair 2%nat 1%nat _ _ ltac:(discriminate) H2 H1 eq_refl eq_refl)
    as (Hd & Hn & Hv).
  eexists _, _. split; [exact H2|]. split; [exact H1|]. split_and!; assumption.
Defined.

End BioClaims.

(** ** bio.c: hits, and what a call leaves of the other buffers *)

Module BioMore.
Import Bio BioSpec BioChains BioLinked BioScans BioOps BioBget BioBgetCases
  BioWf BioRun BioBinit BioReach BioClaims.

(** The scan of a bucket list stops at a valid buffer of the block: no
    buffer of the same block comes before it. *)
Lemma valid_holder_found s bk dv bn fuel x bx :
  linked s (λ _, True) bk →
  (∀ k, (k < NBUCKET)%nat → first_wins s (bk k)) →
  (length (bcache_buf s) < fuel)%nat →
  bcache_buf s !! x = Some bx → dev bx = dv → blockno bx = bn →
  valid bx ≠ 0 →
  ∃ hd, get (Head (hash bn)) s = Some hd
    ∧ lookup fuel (Head (hash bn)) dv bn (next hd) s = Ok (Buf x) s.
Proof.
  intros Hlk Hfw Hfuel Hbx Hd Hn Hv.
  pose proof (hash_lt bn) as Hh.
  pose proof (lk_ring _ _ _ Hlk _ Hh) as Hring.
  destruct (ring_node_get _ _ _ (Head (hash bn)) Hring) as [hd Hhd];
    [apply elem_of_cons; by left|].
  exists hd. split; [done|].
  assert (holds s x dv bn) as Hx by (by exists bx).
  pose proof (holds_on_list s bk x dv bn Hlk Hx) as Hin.
  destruct (lookup_ring s (hash bn) dv bn _ fuel hd Hring) as (r & Hr & Hspec);
    [pose proof (linked_length _ _ _ _ Hlk Hh); lia|done|].
  destruct Hspec as [[-> Hnone]|(y & l1 & l2 & -> & Hsplit & Hy & Hl1)].
  { by destruct (Hnone x). }
  rewrite Hr. repeat f_equal.
  destruct (decide (y = x)) as [|Hne]; [done|]. exfalso.
  rewrite Hsplit in Hin. apply elem_of_app in Hin as [Hin|Hin].
  - by apply (Hl1 x).
  - apply elem_of_cons in Hin as [->|Hin]; [done|].
    destruct Hy as (by' & Hby & Hdy & Hny).
    specialize (Hfw _ Hh). rewrite Hsplit in Hfw.
    destruct (first_wins_later s l1 y l2 x by' bx Hfw Hin Hby Hbx)
      as (_ & _ & Hv0); congruence.
Qed.


(** bget on a block that a valid buffer holds: the buffer is returned with
    one more reference, or the caller sleeps on its sleep-lock. *)
Lemma bget_hit rs s dv bn fuel x bx :
  wf s → (length (bcache_buf s) < fuel)%nat →
  bcache_buf s !! x = Some bx → dev bx = dv → blockno bx = bn →
  valid bx ≠ 0 →
  bget rs fuel dv bn s
  = if lock bx then Err Blocked else Ok (Buf x) (hit_state rs x bx s).
Proof.
  intros (Hq & _ & bk & Hlk & Hfw) Hfuel Hbx Hd Hn Hv.
  destruct (valid_holder_found s bk dv bn fuel x bx Hlk Hfw Hfuel Hbx Hd Hn Hv)
    as (hd & Hhd & Hlook).
  by apply (bget_found rs s dv bn hd fuel Hq Hhd x bx).
Qed.

Lemma bread_hit rs s dv bn fuel x bx :
  wf s → (length (bcache_buf s) < fuel)%nat →
  bcache_buf s !! x = Some bx → dev bx = dv → blockno bx = bn →
  valid bx ≠ 0 → lock bx = false →
  bread rs fuel dv bn s = Ok (Buf x) (hit_state rs x bx s).
Proof.
  intros Hwf Hfuel Hbx Hd Hn Hv Hl.
  pose proof (bget_hit rs s dv bn fuel x bx Hwf Hfuel Hbx Hd Hn Hv) as Hget.
  rewrite Hl in Hget.
  assert (bcache_buf (hit_state rs x bx s) !! x
          = Some (set_lock true (incr rs bx))) as Hb1.
  { unfold hit_state. simpl. apply list_lookup_insert_eq.
    by eapply lookup_lt_Some. }
  rewrite (bread_after rs fuel dv bn s x _ _ Hget Hb1).
  unfold read_state. by rewrite bool_decide_false by done.
Qed.

(** What bread leaves: the buffer it returns is valid and holds the block,
    either as it was cached or as read from the disk; no other buffer has
    changed but for its list pointers. *)
Lemma bread_result rs s dv bn fuel r s' :
  wf s → bread rs fuel dv bn s = Ok r s' →
  ∃ x b b', r = Buf x ∧ bcache_buf s !! x = Some b
    ∧ bcache_buf s' !! x = Some b'
    ∧ dev b' = dv ∧ blockno b' = bn ∧ valid b' ≠ 0
    ∧ lock b' = true ∧ lock b = false
    ∧ disk s' = disk s ∧ ticks s' = ticks s
    ∧ ((dev b = dv ∧ blockno b = bn ∧ valid b ≠ 0
        ∧ s' = hit_state rs x b s)
       ∨ (data b' = disk s dv bn ∧ valid b' = 1
          ∧ disk_log s' = disk_log s ++ [mkTransfer false dv bn]
          ∧ ((dev b = dv ∧ blockno b = bn ∧ valid b = 0)
             ∨ (refcnt b = 0 ∧ refcnt b' = 1 ∧ ∀ y, ¬ holds s y dv bn))))
    ∧ (∀ y, y ≠ x → pay s' (Buf y) = pay s (Buf y)).
Proof.
  intros Hwf Hrun. pose proof Hwf as (Hq & Ht & bk & Hlk & Hfw).
  destruct (bget_outcome rs s dv bn fuel bk Hq Ht Hlk Hfw)
    as [[Hout _]|[[Hblk _]|(x & b1 & s1 & bk1 & l1 & l2 & Hget & _ & Ht1 & Hdisk
                      & Hlog & Hb1 & Hd1 & Hn1 & Hl1 & _ & _ & _ & _ & Hcase)]].
  - unfold bread in Hrun. by rewrite (bind_fail _ _ _ _ Hout) in Hrun.
  - unfold bread in Hrun. by rewrite (bind_fail _ _ _ _ Hblk) in Hrun.
  - rewrite (bread_after _ _ _ _ _ _ _ _ Hget Hb1) in Hrun.
    injection Hrun as <- <-.
    assert (∀ y, y ≠ x → pay (read_state x b1 s1) (Buf y) = pay s1 (Buf y))
      as Hpay1.
    { intros y Hy. unfold read_state. case_bool_decide; [|done].
      unfold pay. simpl. by rewrite list_lookup_insert_ne. }
    assert (disk (read_state x b1 s1) = disk s
            ∧ ticks (read_state x b1 s1) = ticks s) as [Hdk Htk].
    { unfold read_state. case_bool_decide; simpl; by rewrite ?Hdisk, ?Ht1. }
    assert (∃ b, bcache_buf s !! x = Some b ∧ lock b = false
              ∧ (∀ y, y ≠ x → pay s1 (Buf y) = pay s (Buf y))
              ∧ ((dev b = dv ∧ blockno b = bn ∧ valid b1 = valid b
                  ∧ s1 = hit_state rs x b s)
                 ∨ (valid b1 = 0 ∧ refcnt b = 0 ∧ refcnt b1 = 1
                    ∧ ∀ y, ¬ holds s y dv bn)))
      as (b & Hb & Hlb & Hpay & Hkind).
    { destruct Hcase as [(bx & Hbx & Hdx & Hnx & Hlx & -> & _)
                        |(Hnone & _ & _ & b & Hb & Hrb & Hlb & Hstrip & Hpay)].
      - exists bx. split; [done|]. split; [done|]. split.
        { intros y Hy. unfold pay, hit_state. simpl.
          by rewrite list_lookup_insert_ne. }
        left. unfold hit_state in Hb1. simpl in Hb1.
        rewrite list_lookup_insert_eq in Hb1 by (by eapply lookup_lt_Some).
        injection Hb1 as <-. done.
      - exists b. split; [done|]. split; [done|]. split; [done|]. right.
        split; [by apply (f_equal valid) in Hstrip|]. split; [done|].
        split; [by apply (f_equal refcnt) in Hstrip|done]. }
    destruct (decide (valid b1 = 0)) as [Hv|Hv].
    + exists x, b, (set_valid 1 (set_data (disk s1 dv bn) b1)).
      split; [done|]. split; [done|]. split.
      { unfold read_state. rewrite bool_decide_true by done. simpl.
        rewrite Hd1, Hn1. apply list_lookup_insert_eq.
        by eapply lookup_lt_Some. }
      split; [done|]. split; [done|]. split; [done|]. split; [done|].
      split; [done|]. split; [done|]. split; [done|]. split.
      * right. split; [simpl; by rewrite Hdisk|]. split; [done|]. split.
        { unfold read_state. rewrite bool_decide_true by done. simpl.
          by rewrite Hlog, Hd1, Hn1. }
        destruct Hkind as [(Hdb & Hnb & Hvb & _)|(_ & Hrb & Hr1 & Hnone)].
        -- left. split; [done|]. split; [done|]. congruence.
        -- right. done.
      * intros y Hy. by rewrite Hpay1, Hpay.
    + destruct Hkind as [(Hdb & Hnb & Hvb & ->)|(Hv0 & _)]; [|done].
      exists x, b, b1.
      assert (read_state x b1 (hit_state rs x b s) = hit_state rs x b s) as Hrs.
      { unfold read_state. by rewrite bool_decide_false. }
      rewrite Hrs in *. split; [done|]. split; [done|]. split; [done|].
      split; [done|]. split; [done|]. split; [done|]. split; [done|].
      split; [done|]. split; [done|]. split; [done|]. split.
      * left. split; [done|]. split; [done|]. split; [congruence|done].
      * done.
Qed.

(** Counting up and down again gives the count back. *)
Lemma wrap_up_down rs z : fits rs z → wrap rs (wrap rs (z + 1) - 1) = z.
Proof.
  unfold fits, wrap. destruct rs; intros Hz.
  - replace ((z + 1 + 2 ^ 31) `mod` 2 ^ 32 - 2 ^ 31 - 1 + 2 ^ 31)
      with ((z + 1 + 2 ^ 31) `mod` 2 ^ 32 - 1) by lia.
    rewrite Zminus_mod_idemp_l.
    replace (z + 1 + 2 ^ 31 - 1) with (z + 2 ^ 31) by lia.
    rewrite Z.mod_small by lia. lia.
  - rewrite Zminus_mod_idemp_l. replace (z + 1 - 1) with z by lia.
    by rewrite Z.mod_small by lia.
Qed.

Lemma wrap_down_up rs z : fits rs z → wrap rs (wrap rs (z - 1) + 1) = z.
Proof.
  unfold fits, wrap. destruct rs; intros Hz.
  - replace ((z - 1 + 2 ^ 31) `mod` 2 ^ 32 - 2 ^ 31 + 1 + 2 ^ 31)
      with ((z - 1 + 2 ^ 31) `mod` 2 ^ 32 + 1) by lia.
    rewrite Zplus_mod_idemp_l.
    replace (z - 1 + 2 ^ 31 + 1) with (z + 2 ^ 31) by lia.
    rewrite Z.mod_small by lia. lia.
  - rewrite Zplus_mod_idemp_l. replace (z - 1 + 1) with z by lia.
    by rewrite Z.mod_small by lia.
Qed.

Lemma insert_back s j b c :
  bcache_buf s !! j = Some b →
  set_bcache_buf
    (<[j := b]> (bcache_buf (set_bcache_buf (<[j := c]> (bcache_buf s)) s)))
    (set_bcache_buf (<[j := c]> (bcache_buf s)) s) = s.
Proof.
  intros Hb. destruct s as [bl pool bks t d dl]. unfold set_bcache_buf. simpl in *.
  by rewrite list_insert_insert_eq, list_insert_id.
Qed.

Lemma quiet_insert s j c : quiet s → quiet (set_bcache_buf (<[j := c]> (bcache_buf s)) s).
Proof. done. Qed.

Lemma length_eq_lookup {A} (l1 l2 : list A) :
  (∀ y, is_Some (l1 !! y) ↔ is_Some (l2 !! y)) → length l1 = length l2.
Proof.
  intros H.
  destruct (decide (length l1 < length l2)%nat) as [Hlt|Hge].
  - destruct (proj2 (H (length l1))) as [a Ha];
      [by apply lookup_lt_is_Some_2|].
    apply lookup_lt_Some in Ha. lia.
  - destruct (decide (length l2 < length l1)%nat) as [Hlt|Hge']; [|lia].
    destruct (proj1 (H (length l2))) as [a Ha];
      [by apply lookup_lt_is_Some_2|].
    apply lookup_lt_Some in Ha. lia.
Qed.

(** bread keeps the size of the pool. *)
Lemma bread_length rs s dv bn fuel r s' :
  wf s → bread rs fuel dv bn s = Ok r s' →
  length (bcache_buf s') = length (bcache_buf s).
Proof.
  intros Hwf Hrun.
  destruct (bread_result rs s dv bn fuel r s' Hwf Hrun)
    as (x & b & b' & _ & Hb & Hb' & _ & _ & _ & _ & _ & _ & _ & _ & Hpay).
  apply length_eq_lookup. intros y. destruct (decide (y = x)) as [->|Hy].
  - rewrite Hb, Hb'. split; eauto.
  - specialize (Hpay y Hy). unfold pay in Hpay. simpl in Hpay.
    rewrite <- (fmap_is_Some strip (bcache_buf s' !! y)).
    rewrite <- (fmap_is_Some strip (bcache_buf s !! y)). by rewrite Hpay.
Qed.






End BioMore.

(** ** bio.c: what a file system can rely on *)

Module BioExtras.
Import Bio BioSpec BioChains BioLinked BioScans BioOps BioBget BioBgetCases
  BioWf BioRun BioBinit BioReach BioClaims BioMore.

Lemma held7_wf : wf held7.
Proof. exact (reach_wf _ _ _ held7_reach). Qed.

Lemma cold3_wf : wf cold3.
Proof. exact (reach_wf _ _ _ (cold3_reach false)). Qed.

Lemma rel7_wf : wf rel7.
Proof. exact (reach_wf _ _ _ rel7_reach). Qed.

(** X9.  bwrite(b) panics exactly when the caller does not hold the
    sleep-lock of [b].  Otherwise it returns after one write transfer of the
    block of [b]: that block of the disk now holds the data of [b], every
    other block of the disk and the whole cache are as before. *)
Theorem bwrite_writes_held_buffer (s : state) (j : nat) (b : buf) :
  bcache_buf s !! j = Some b →
  (bwrite (Buf j) s = Err (Panic "bwrite") ↔ lock b = false)
  ∧ (lock b = true →
     ∃ s', bwrite (Buf j) s = Ok tt s'
       ∧ bcache_buf s' = bcache_buf s ∧ bucket s' = bucket s
       ∧ bcache_lock s' = bcache_lock s ∧ ticks s' = ticks s
       ∧ disk_log s' = disk_log s ++ [mkTransfer true (dev b) (blockno b)]
       ∧ disk s' (dev b) (blockno b) = data b
       ∧ ∀ d n, ¬ (d = dev b ∧ n = blockno b) → disk s' d n = disk s d n).
Proof.
  intros Hb. split.
  - split.
    + intros Hp. destruct (lock b) eqn:Hl; [|done].
      by rewrite (bwrite_ok s j b Hb Hl) in Hp.
    + intros Hl. unfold bwrite, holdingsleep.
      bstep ltac:(bstep ltac:(by apply rd_ok); reflexivity).
      by rewrite Hl.
  - intros Hl. eexists. split; [by apply bwrite_ok|]. simpl.
    split_and!; try done.
    + by rewrite bool_decide_true.
    + intros d n Hne. by rewrite bool_decide_false.
Qed.

Lemma bwrite_writes_held_buffer_witness :
  ∃ s', bwrite (Buf 0) held7 = Ok tt s'
    ∧ disk_log s' = [mkTransfer false 1 7; mkTransfer true 1 7].
Proof.
  assert (bcache_buf held7 !! 0%nat
          = Some (mkBuf 1 1 7 true 1 (Head 7) (Head 7) [1; 7] (-1))) as Hb
    by (vm_compute; reflexivity).
  destruct (bwrite_writes_held_buffer held7 0 _ Hb) as [_ Hok].
  destruct (Hok eq_refl) as (s' & Hrun & _ & _ & _ & _ & Hlog & _).
  exists s'. split; [exact Hrun|]. rewrite Hlog. vm_compute. reflexivity.
Defined.

(** X10.  brelse(b), called with no spin-lock held, panics exactly when the
    caller does not hold the sleep-lock of [b]. *)
Theorem brelse_panics_iff_not_held (rs : bool) (s : state) (j : nat)
    (b : buf) :
  quiet s → bcache_buf s !! j = Some b →
  (brelse rs (Buf j) s = Err (Panic "brelse") ↔ lock b = false).
Proof.
  intros Hq Hb. split.
  - intros Hp. destruct (lock b) eqn:Hl; [|done].
    by rewrite (brelse_ok rs s j b Hq Hb Hl) in Hp.
  - by apply brelse_not_held.
Qed.

Lemma brelse_panics_iff_not_held_witness :
  brelse false (Buf 1) held7 = Err (Panic "brelse").
Proof.
  destruct held7_wf as [Hq _].
  assert (bcache_buf held7 !! 1%nat
          = Some (mkBuf 0 0 0 false 0 (Buf 2) (Head 0) [] (-1))) as Hb
    by (vm_compute; reflexivity).
  by apply (brelse_panics_iff_not_held false held7 1 _ Hq Hb).
Defined.

(** X11.  bpin(b) followed by bunpin(b), with no spin-lock held, leaves the
    cache exactly as it was.  In between the count is one more in the
    arithmetic of its type; when the count was 0 or more and one more still
    fits the type (no wrap-around), it is exactly one more and not 0, and
    the eviction scan does not pick the buffer. *)
Theorem bpin_then_bunpin_restores (rs : bool) (s : state) (j : nat)
    (b : buf) :
  quiet s → bcache_buf s !! j = Some b → fits rs (refcnt b) →
  ∃ s1 b1, bpin rs (Buf j) s = Ok tt s1
    ∧ bcache_buf s1 !! j = Some b1
    ∧ refcnt b1 = wrap rs (refcnt b + 1)
    ∧ bunpin rs (Buf j) s1 = Ok tt s
    ∧ (0 ≤ refcnt b → fits rs (refcnt b + 1) →
         refcnt b1 = refcnt b + 1 ∧ refcnt b1 ≠ 0
         ∧ scan_pool s1 (bcache_buf s1) 0 Null ≠ Buf j).
Proof.
  intros Hq Hb Hfit.
  exists (set_bcache_buf (<[j := incr rs b]> (bcache_buf s)) s), (incr rs b).
  split; [by apply bpin_ok|].
  assert (bcache_buf (set_bcache_buf (<[j := incr rs b]> (bcache_buf s)) s) !! j
          = Some (incr rs b)) as Hb1.
  { simpl. apply list_lookup_insert_eq. by eapply lookup_lt_Some. }
  split; [done|]. split; [done|]. split.
  - rewrite (bunpin_ok rs _ j (incr rs b)); [|by apply quiet_insert|done].
    f_equal.
    assert (decr rs (incr rs b) = b) as ->.
    { destruct b. unfold decr, incr. simpl in *. by rewrite wrap_up_down. }
    by apply insert_back.
  - intros Hpos Hfit1.
    assert (refcnt (incr rs b) = refcnt b + 1) as Hr
      by (simpl; by rewrite wrap_fits).
    split; [done|]. split; [lia|].
    apply (scan_pool_skips _ j (incr rs b) Hb1). lia.
Qed.

Lemma bpin_then_bunpin_restores_witness :
  ∃ s1, bpin false (Buf 1) cold3 = Ok tt s1
    ∧ bunpin false (Buf 1) s1 = Ok tt cold3
    ∧ scan_pool s1 (bcache_buf s1) 0 Null ≠ Buf 1.
Proof.
  destruct cold3_wf as [Hq _].
  assert (bcache_buf cold3 !! 1%nat
          = Some (mkBuf 0 0 0 false 0 (Buf 2) (Buf 0) [] (-1))) as Hb
    by (vm_compute; reflexivity).
  destruct (bpin_then_bunpin_restores false cold3 1 _ Hq Hb)
    as (s1 & b1 & Hp & _ & _ & Hu & Hscan); [unfold fits; simpl; lia|].
  exists s1. split; [exact Hp|]. split; [exact Hu|].
  apply Hscan; [simpl; lia|unfold fits; simpl; lia].
Defined.

(** X12.  A bget that returns, called between two calls of the cache, has
    taken a sleep-lock that was free, and has changed one buffer at most
    apart from list pointers: every other buffer keeps all its fields but
    [prev] and [next], and a buffer with [refcnt] not 0 keeps its [dev],
    [blockno], [valid] and [data]: a buffer in use is never recycled. *)
Theorem bget_keeps_buffers_in_use (rs : bool) (s : state) (dv bn : Z)
    (fuel : nat) (r : ptr) (s' : state) :
  wf s → bget rs fuel dv bn s = Ok r s' →
  ∃ x bx bx', r = Buf x ∧ bcache_buf s !! x = Some bx ∧ lock bx = false
    ∧ bcache_buf s' !! x = Some bx' ∧ lock bx' = true
    ∧ (∀ y c, y ≠ x → bcache_buf s !! y = Some c →
         ∃ c', bcache_buf s' !! y = Some c' ∧ strip c' = strip c)
    ∧ (∀ y c, bcache_buf s !! y = Some c → refcnt c ≠ 0 →
         ∃ c', bcache_buf s' !! y = Some c' ∧ dev c' = dev c
           ∧ blockno c' = blockno c ∧ valid c' = valid c ∧ data c' = data c).
Proof.
  intros Hwf Hrun. pose proof Hwf as (Hq & Ht & bk & Hlk & Hfw).
  destruct (bget_outcome rs s dv bn fuel bk Hq Ht Hlk Hfw)
    as [[Hout _]|[[Hblk _]|(x & b1 & s1 & bk1 & l1 & l2 & Hget & _ & _ & _
                      & _ & Hb1 & _ & _ & Hl1 & _ & _ & _ & _ & Hcase)]];
    [congruence..|].
  rewrite Hget in Hrun. injection Hrun as <- <-.
  assert (∀ y c, y ≠ x → pay s1 (Buf y) = pay s (Buf y) →
            bcache_buf s !! y = Some c →
            ∃ c', bcache_buf s1 !! y = Some c' ∧ strip c' = strip c) as Hother.
  { intros y c Hy Hpay Hc. unfold pay in Hpay. simpl in Hpay.
    rewrite Hc in Hpay. simpl in Hpay.
    destruct (bcache_buf s1 !! y) as [c'|]; [|done].
    exists c'. split; [done|]. simpl in Hpay. congruence. }
  destruct Hcase as [(bx & Hbx & _ & _ & Hlx & -> & _)
                    |(_ & _ & _ & b & Hb & Hrb & Hlb & Hstrip & Hpay)].
  - assert (∀ y, y ≠ x → pay (hit_state rs x bx s) (Buf y) = pay s (Buf y))
      as Hpay.
    { intros y Hy. unfold pay, hit_state. simpl.
      by rewrite list_lookup_insert_ne. }
    exists x, bx, b1. split_and!; try done.
    + intros y c Hy Hc. by apply Hother; [|apply Hpay|].
    + intros y c Hc _. destruct (decide (y = x)) as [->|Hy].
      * exists b1. split; [done|]. unfold hit_state in Hb1. simpl in Hb1.
        rewrite list_lookup_insert_eq in Hb1 by (by eapply lookup_lt_Some).
        injection Hb1 as <-. rewrite Hbx in Hc. by injection Hc as <-.
      * destruct (Hother y c Hy (Hpay y Hy) Hc) as (c' & Hc' & Hs).
        exists c'. split; [done|].
        split; [by apply (f_equal dev) in Hs|].
        split; [by apply (f_equal blockno) in Hs|].
        split; [by apply (f_equal valid) in Hs|by apply (f_equal data) in Hs].
  - exists x, b, b1. split_and!; try done.
    + intros y c Hy Hc. by apply Hother; [|apply Hpay|].
    + intros y c Hc Hr. assert (y ≠ x) as Hy by (intros ->; congruence).
      destruct (Hother y c Hy (Hpay y Hy) Hc) as (c' & Hc' & Hs).
      exists c'. split; [done|].
      split; [by apply (f_equal dev) in Hs|].
      split; [by apply (f_equal blockno) in Hs|].
      split; [by apply (f_equal valid) in Hs|by apply (f_equal data) in Hs].
Qed.

Lemma bget_keeps_buffers_in_use_witness :
  ∃ x bx', bget false 4 1 7 rel7 = Ok (Buf x) (after (bget false 4 1 7 rel7) rel7)
    ∧ bcache_buf (after (bget false 4 1 7 rel7) rel7) !! x = Some bx'
    ∧ lock bx' = true.
Proof.
  assert (bget false 4 1 7 rel7
          = Ok (Buf 0) (after (bget false 4 1 7 rel7) rel7)) as Hrun
    by (vm_compute; reflexivity).
  destruct (bget_keeps_buffers_in_use false rel7 1 7 4 (Buf 0) _ rel7_wf Hrun)
    as (x & bx & bx' & Hx & _ & _ & Hbx' & Hl' & _).
  injection Hx as <-. exists 0%nat, bx'.
  split; [exact Hrun|]. split; [exact Hbx'|exact Hl'].
Defined.

(** X13.  After binit and any calls that returned, no spin-lock of the
    cache is held: neither [bcache.lock] nor the lock of any of the NBUCKET
    buckets. *)
Theorem calls_leave_spin_locks_free (rs : bool) (tr : list op) (s : state) :
  reach rs tr s →
  bcache_lock s = false
  ∧ length (bucket s) = NBUCKET
  ∧ ∀ i k, bucket s !! i = Some k → bucket_lock k = false.
Proof. intros Hr. by destruct (reach_wf _ _ _ Hr) as [Hq _]. Qed.

Lemma calls_leave_spin_locks_free_witness :
  bcache_lock rel7 = false ∧ length (bucket rel7) = NBUCKET.
Proof.
  destruct (calls_leave_spin_locks_free false _ rel7 rel7_reach)
    as (Hb & Hl & _).
  split; [exact Hb|exact Hl].
Defined.

Lemma linked_bk_ext s D bk bk' :
  (∀ h, bk h = bk' h) → linked s D bk → linked s D bk'.
Proof.
  intros Heq [Hring Hnd Hhome Hall]. split.
  - intros h Hh. rewrite <- Heq. by apply Hring.
  - intros h Hh. rewrite <- Heq. by apply Hnd.
  - intros h j Hh Hj. rewrite <- Heq in Hj. by apply Hhome.
  - intros j b HD Hb. rewrite <- Heq. by apply Hall.
Qed.

(** The second loop of binit puts each buffer in front of the ones before
    it. *)
Lemma binit_loop_order : ∀ k a s bk,
  linked s (λ x, (x < a)%nat) bk →
  (∀ x, (a ≤ x < a + k)%nat → pay s (Buf x) = Some (strip zero_buf)) →
  ∃ s', for_each (seq a k) binit_buf s = Ok tt s'
    ∧ linked s' (λ x, (x < a + k)%nat)
        (λ h, if decide (h = 0%nat) then reverse (seq a k) ++ bk h else bk h).
Proof.
  induction k as [|k IH]; intros a s bk Hlk Hzero.
  - exists s. split; [done|].
    apply (linked_bk_ext _ _ bk); [intros h; by case_decide|].
    eapply linked_ext; [|exact Hlk]. intros x b _. cbv beta. lia.
  - destruct (pay_Some _ _ _ (Hzero a ltac:(lia))) as (b & Hb & Hsb).
    assert (blockno b = 0) as Hbn.
    { apply (f_equal blockno) in Hsb. exact Hsb. }
    destruct (binit_buf_ok s bk a b Hlk Hb Hbn)
      as (s1 & Hrun1 & Hlk1 & _ & Hpo & _).
    destruct (IH (S a) s1 _ Hlk1) as (s' & Hrun & Hlk').
    { intros x Hx. rewrite Hpo; [apply Hzero; lia|]. intros [= ->]. lia. }
    exists s'. split.
    { simpl. bstep ltac:(exact Hrun1). exact Hrun. }
    eapply linked_ext; [|eapply linked_bk_ext; [|exact Hlk']].
    + intros x c _. cbv beta. lia.
    + intros h. cbv beta. case_decide; [|done]. simpl seq.
      by rewrite reverse_cons, <- app_assoc.
Qed.

(** X14.  binit(), run on the zeroed memory of a fresh boot with any
    number of buffers, returns.  The list of bucket 0 then holds every
    buffer of the pool once, the last buffer of the pool first, and the
    lists of the other buckets are empty; every buffer has [refcnt] 0, a
    free sleep-lock, [valid] 0 and [lu_time] -1, no spin-lock is held and
    the disk has not been touched. *)
Theorem binit_links_all_into_bucket_0 (nbuf : nat) (dsk : Z → Z → block) :
  ∃ s0, binit (boot nbuf dsk) = Ok tt s0
    ∧ ring s0 0 (reverse (seq 0 nbuf))
    ∧ (∀ h, (0 < h < NBUCKET)%nat → ring s0 h [])
    ∧ length (bcache_buf s0) = nbuf
    ∧ (∀ j b, bcache_buf s0 !! j = Some b →
         refcnt b = 0 ∧ lock b = false ∧ valid b = 0 ∧ lu_time b = -1
         ∧ dev b = 0 ∧ blockno b = 0)
    ∧ quiet s0 ∧ disk s0 = dsk ∧ disk_log s0 = [].
Proof.
  destruct (binit_ok nbuf dsk)
    as (s0 & bk & Hrun & Hq & _ & Hd & Hdl & Hlen & _ & Hfresh).
  destruct (binit_loop_order nbuf 0 (empty_buckets nbuf dsk) (λ _, []))
    as (s' & Hrun' & Hlk').
  { eapply linked_ext; [|apply empty_buckets_linked]. intros x b _. cbv beta. lia. }
  { intros x Hx. unfold pay. simpl. rewrite lookup_replicate_2 by lia. done. }
  assert (binit (boot nbuf dsk) = Ok tt s') as Hrun2.
  { unfold binit.
    apply (bind_step _ _ _ tt (set_spin BcacheLock false (boot nbuf dsk)));
      [reflexivity|].
    apply (bind_step _ _ _ tt (empty_buckets nbuf dsk));
      [apply binit_buckets|].
    apply (bind_step _ _ _ nbuf (empty_buckets nbuf dsk)); [|exact Hrun'].
    unfold gets, empty_buckets. cbn [bcache_buf]. by rewrite length_replicate. }
  assert (s' = s0) as -> by congruence.
  exists s0. split; [done|]. split.
  { pose proof (lk_ring _ _ _ Hlk' 0%nat ltac:(unfold NBUCKET; lia)) as Hr.
    simpl in Hr. by rewrite app_nil_r in Hr. }
  split.
  { intros h Hh. pose proof (lk_ring _ _ _ Hlk' h ltac:(lia)) as Hr.
    cbv beta in Hr. by rewrite decide_False in Hr by lia. }
  split; [done|]. split; [|done].
  intros j b Hb.
  assert (strip b = strip fresh_buf) as Hs.
  { specialize (Hfresh j ltac:(rewrite <- Hlen; by eapply lookup_lt_Some)).
    unfold pay in Hfresh. simpl in Hfresh. rewrite Hb in Hfresh.
    simpl in Hfresh. congruence. }
  split; [by apply (f_equal refcnt) in Hs|].
  split; [by apply (f_equal lock) in Hs|].
  split; [by apply (f_equal valid) in Hs|].
  split; [by apply (f_equal lu_time) in Hs|].
  split; [by apply (f_equal dev) in Hs|by apply (f_equal blockno) in Hs].
Qed.

(** X15.  The buffer a bget miss recycles is the first in pool order among
    the buffers with [refcnt] 0 of least [lu_time]: every such buffer at a
    lower index has a strictly greater [lu_time], none has a smaller one. *)
Theorem bget_victim_is_first_of_oldest (rs : bool) (s : state) (dv bn : Z)
    (fuel j : nat) (s' : state) :
  wf s → (∀ y, on_list s (hash bn) y → ¬ holds s y dv bn) →
  bget rs fuel dv bn s = Ok (Buf j) s' →
  ∃ b, bcache_buf s !! j = Some b ∧ refcnt b = 0
    ∧ ∀ x c, bcache_buf s !! x = Some c → refcnt c = 0 →
        lu_time b ≤ lu_time c ∧ ((x < j)%nat → lu_time b < lu_time c).
Proof.
  intros (Hq & Ht & bk & Hlk & Hfw) Hmiss Hrun.
  pose proof (miss_pool s bk dv bn Hlk Hmiss) as Hnone.
  destruct (bget_outcome rs s dv bn fuel bk Hq Ht Hlk Hfw)
    as [[Hout _]|[[Hblk _]|(x & b1 & s1 & bk1 & l1 & l2 & Hget & _ & _ & _
                      & _ & _ & _ & _ & _ & _ & _ & _ & _ & Hcase)]];
    [congruence..|].
  rewrite Hget in Hrun. injection Hrun as <- <-.
  destruct Hcase as [(bx & Hbx & Hdx & Hnx & _)
                    |(_ & Hscan & _ & b & Hb & Hrb & _)].
  { destruct (Hnone x). by exists bx. }
  destruct (scan_pool_candidate s x b Hb Hrb)
    as (l & bl & Hl & Hbl & _ & Hmin).
  rewrite Hscan in Hl. injection Hl as <-.
  rewrite Hb in Hbl. injection Hbl as <-.
  exists b. split; [done|]. split; [done|]. exact Hmin.
Qed.

Lemma rel7_misses dv bn :
  (dv, bn) ≠ (1, 7) → (dv, bn) ≠ (0, 0) →
  ∀ y, on_list rel7 (hash bn) y → ¬ holds rel7 y dv bn.
Proof.
  intros H1 H0 y _ (b & Hb & Hd & Hn).
  destruct y as [|[|[|y]]]; vm_compute in Hb; [| | |discriminate Hb];
    injection Hb as <-; simpl in *; congruence.
Qed.

Lemma bget_victim_is_first_of_oldest_witness :
  ∃ b, bcache_buf rel7 !! 1%nat = Some b ∧ refcnt b = 0
    ∧ ∀ x c, bcache_buf rel7 !! x = Some c → refcnt c = 0 →
        lu_time b ≤ lu_time c ∧ ((x < 1)%nat → lu_time b < lu_time c).
Proof.
  apply (bget_victim_is_first_of_oldest false rel7 1 9 4 1
           (after (bget false 4 1 9 rel7) rel7) rel7_wf).
  - apply rel7_misses; discriminate.
  - vm_compute. reflexivity.
Defined.






(** X18.  bread of a block that a valid, unlocked buffer holds, followed by
    brelse of the buffer returned, leaves the cache as it was but for the
    [lu_time] of that buffer, which is the current tick: the count of the
    buffer, its sleep-lock, its data and the disk are as before. *)
Theorem bread_then_brelse_restores (rs : bool) (s : state) (dv bn : Z)
    (fuel x : nat) (bx : buf) :
  wf s → (length (bcache_buf s) < fuel)%nat →
  bcache_buf s !! x = Some bx → dev bx = dv → blockno bx = bn →
  valid bx ≠ 0 → lock bx = false → fits rs (refcnt bx) →
  ∃ s1, bread rs fuel dv bn s = Ok (Buf x) s1
    ∧ brelse rs (Buf x) s1
      = Ok tt (set_bcache_buf (<[x := set_lu_time (ticks s) bx]> (bcache_buf s)) s).
Proof.
  intros Hwf Hfuel Hbx Hd Hn Hv Hl Hfit. pose proof Hwf as (Hq & _).
  exists (hit_state rs x bx s). split; [by apply bread_hit|].
  assert (bcache_buf (hit_state rs x bx s) !! x
          = Some (set_lock true (incr rs bx))) as Hb1.
  { unfold hit_state. simpl. apply list_lookup_insert_eq.
    by eapply lookup_lt_Some. }
  unfold hit_state in *.
  rewrite (brelse_ok rs _ x _ (quiet_insert s x _ Hq) Hb1 eq_refl).
  f_equal.
  assert (decr rs (set_lock false (set_lock true (incr rs bx))) = bx) as ->.
  { destruct bx. unfold decr, incr. simpl in *. subst.
    by rewrite wrap_up_down. }
  destruct s. unfold set_bcache_buf. simpl.
  by rewrite list_insert_insert_eq.
Qed.

Lemma bread_then_brelse_restores_witness :
  ∃ s1, bread false 4 1 7 rel7 = Ok (Buf 0) s1
    ∧ brelse false (Buf 0) s1
      = Ok tt (set_bcache_buf
                 (<[0%nat := set_lu_time (ticks rel7)
                      (mkBuf 1 1 7 false 0 (Head 7) (Head 7) [1; 7] 1)]>
                    (bcache_buf rel7)) rel7).
Proof.
  assert (bcache_buf rel7 !! 0%nat
          = Some (mkBuf 1 1 7 false 0 (Head 7) (Head 7) [1; 7] 1)) as Hb
    by (vm_compute; reflexivity).
  apply (bread_then_brelse_restores false rel7 1 7 4 0 _ rel7_wf
           ltac:(vm_compute; lia) Hb eq_refl eq_refl ltac:(discriminate)
           eq_refl).
  unfold fits. simpl. lia.
Defined.

(** X19.  After a bread that returned and the brelse of its buffer, a
    second bread of the same block returns the same buffer with the same
    data and issues no disk transfer. *)
Theorem reread_after_release_hits (rs : bool) (s : state) (dv bn : Z)
    (fuel : nat) (r : ptr) (s1 : state) :
  wf s → (length (bcache_buf s) < fuel)%nat →
  bread rs fuel dv bn s = Ok r s1 →
  ∃ x b1 s2 s3 b3, r = Buf x ∧ bcache_buf s1 !! x = Some b1
    ∧ brelse rs (Buf x) s1 = Ok tt s2
    ∧ bread rs fuel dv bn s2 = Ok (Buf x) s3
    ∧ disk_log s3 = disk_log s1
    ∧ bcache_buf s3 !! x = Some b3
    ∧ data b3 = data b1 ∧ dev b3 = dv ∧ blockno b3 = bn.
Proof.
  intros Hwf Hfuel Hrun.
  destruct (bread_result rs s dv bn fuel r s1 Hwf Hrun)
    as (x & b & b1 & -> & Hb & Hb1 & Hd1 & Hn1 & Hv1 & Hl1 & _).
  pose proof (bread_wf rs fuel dv bn s _ s1 Hwf Hrun) as Hwf1.
  pose proof (bread_length rs s dv bn fuel _ s1 Hwf Hrun) as Hlen.
  pose proof Hwf1 as (Hq1 & _).
  set (b2 := set_lu_time (ticks s1) (decr rs (set_lock false b1))).
  set (s2 := set_bcache_buf (<[x := b2]> (bcache_buf s1)) s1).
  assert (brelse rs (Buf x) s1 = Ok tt s2) as Hrel by (by apply brelse_ok).
  assert (wf s2) as Hwf2.
  { by apply (wf_update s1 x b1
                (λ b, set_lu_time (ticks s1) (decr rs (set_lock false b)))). }
  assert (bcache_buf s2 !! x = Some b2) as Hb2.
  { unfold s2. simpl. apply list_lookup_insert_eq. by eapply lookup_lt_Some. }
  assert (bread rs fuel dv bn s2 = Ok (Buf x) (hit_state rs x b2 s2)) as Hread.
  { apply bread_hit; try done. unfold s2. simpl. rewrite length_insert. lia. }
  exists x, b1, s2, (hit_state rs x b2 s2), (set_lock true (incr rs b2)).
  split_and!; try done.
  unfold hit_state. simpl. apply list_lookup_insert_eq.
  rewrite length_insert. by eapply lookup_lt_Some.
Qed.

Lemma reread_after_release_hits_witness :
  ∃ x b1 s2 s3 b3, bcache_buf held7 !! x = Some b1
    ∧ brelse false (Buf x) held7 = Ok tt s2
    ∧ bread false 4 1 7 s2 = Ok (Buf x) s3
    ∧ disk_log s3 = disk_log held7
    ∧ bcache_buf s3 !! x = Some b3 ∧ data b3 = data b1.
Proof.
  assert (bread false 4 1 7 cold3 = Ok (Buf 0) held7) as Hrun
    by (vm_compute; reflexivity).
  destruct (reread_after_release_hits false cold3 1 7 4 _ held7 cold3_wf
              ltac:(vm_compute; lia) Hrun)
    as (x & b1 & s2 & s3 & b3 & _ & H1 & H2 & H3 & H4 & H5 & H6 & _).
  exists x, b1, s2, s3, b3. split_and!; assumption.
Defined.

(** X20.  A bread called between two calls of the cache, with a loop bound
    above the size of the pool, ends in one of three ways and in no other:
    it never panics and never follows a null or wild pointer.  It spins in
    the eviction loop, exactly when no buffer holds the block and every
    buffer has [refcnt] not 0; or it sleeps on the sleep-lock of a buffer
    that holds the block or has [refcnt] 0; or it returns a buffer of the
    pool and leaves the cache well formed. *)
Theorem bread_ends_in_three_ways (rs : bool) (s : state) (dv bn : Z)
    (fuel : nat) :
  wf s → (length (bcache_buf s) < fuel)%nat →
  (bread rs fuel dv bn s = Err OutOfFuel
   ↔ saturated s ∧ ∀ y, ¬ holds s y dv bn)
  ∧ ((bread rs fuel dv bn s = Err OutOfFuel)
     ∨ (bread rs fuel dv bn s = Err Blocked
        ∧ ∃ j b, bcache_buf s !! j = Some b ∧ lock b = true
            ∧ (holds s j dv bn ∨ refcnt b = 0))
     ∨ (∃ x s', bread rs fuel dv bn s = Ok (Buf x) s' ∧ wf s'
          ∧ is_Some (bcache_buf s' !! x))).
Proof.
  intros Hwf Hfuel. pose proof Hwf as (Hq & Ht & bk & Hlk & Hfw).
  destruct (bget_outcome rs s dv bn fuel bk Hq Ht Hlk Hfw)
    as [[Hout Hwhy]|[[Hblk Hwhy]|(x & b1 & s1 & bk1 & l1 & l2 & Hget & _ & _
                      & _ & _ & Hb1 & _ & _ & _ & _ & _ & _ & _ & Hcase)]].
  - assert (bread rs fuel dv bn s = Err OutOfFuel) as Hrun
      by (unfold bread; by apply bind_fail).
    destruct Hwhy as [Hle|Hsat]; [lia|]. split; [|by left]. by split.
  - assert (bread rs fuel dv bn s = Err Blocked) as Hrun
      by (unfold bread; by apply bind_fail).
    destruct Hwhy as (j & b & Hb & Hl & Hwhy). split.
    + rewrite Hrun. split; [done|]. intros [Hsat Hnone].
      destruct Hwhy as [Hh|[_ Hr]]; [by destruct (Hnone j)|by destruct (Hsat j b)].
    + right. left. split; [done|]. exists j, b. split; [done|]. split; [done|].
      destruct Hwhy as [Hh|[_ Hr]]; auto.
  - pose proof (bread_after rs fuel dv bn s x s1 b1 Hget Hb1) as Hrun.
    split.
    + rewrite Hrun. split; [done|]. intros [Hsat Hnone].
      destruct Hcase as [(bx & Hbx & Hdx & Hnx & _)|(_ & Hscan & _)].
      * destruct (Hnone x). by exists bx.
      * rewrite (scan_pool_saturated s Hsat) in Hscan. discriminate.
    + right. right. exists x, (read_state x b1 s1). split; [done|].
      split; [by apply (bread_wf rs fuel dv bn s (Buf x))|].
      unfold read_state. case_bool_decide; simpl; [|by eauto].
      apply lookup_lt_is_Some. rewrite length_insert.
      by eapply lookup_lt_Some.
Qed.

Lemma bread_ends_in_three_ways_witness :
  bread false 4 1 46 full3 = Err OutOfFuel.
Proof.
  assert (wf full3) as Hwf by exact (reach_wf _ _ _ full3_reach).
  destruct (bread_ends_in_three_ways false full3 1 46 4 Hwf
              ltac:(vm_compute; lia)) as [Hiff _].
  apply Hiff. split.
  - intros j b Hb. destruct (full3_holds j b Hb) as [-> _]. done.
  - intros y (b & Hb & _ & Hn).
    destruct (full3_holds y b Hb) as (_ & _ & [H|[H|H]]); congruence.
Defined.

End BioExtras.
